(** * Huawei eSDK K8S plugin: the storage-array plugin layer

    A shallow embedding of
    - [csi/backend/plugin/oceanstor-san.go]   (HyperMetro dispatch, session
      counting, capability refresh, validation),
    - [csi/backend/plugin/fusionstorage-san.go] (capability report),
    - the oceanstor-dtree plugin ([Validate]),
    - [csi/driver/controller.go]              (teardown entry points),
    and the properties of the specification that concern them.

    Go values of type [interface{}] are an inductive type, Go maps with
    string keys are [gmap string _], Go [int] is [Z] with its 64-bit
    wrap-around, pointers to plugins are keys of a store, and every call
    that leaves the process (array client, attacher, logger, backend
    registry) appends an event to a trace and takes its answer from an
    environment that may look at the whole history. *)

From stdpp Require Import gmap strings list fin_maps.
From Stdlib Require Import ZArith Lia.

Set Warnings "-register-all".
Set Default Proof Using "Type".

(* ================================================================== *)
(** ** Go values                                                       *)
(* ================================================================== *)

(** A dynamic Go value, as stored in a [map[string]interface{}] or carried
    by a [reflect.Value].  [VErr format args] is an [error] built from a
    format string and its arguments ([errors.New msg] has no arguments). *)
Inductive value :=
  | VNil
  | VBool (b : bool)
  | VInt (n : Z)
  | VString (s : string)
  | VList (l : list value)
  | VMap (m : gmap string value)
  | VErr (format : string) (args : list value).

Abbreviation gomap := (gmap string value).

(** A Go [error] that is not nil: the format string and the arguments. *)
Definition goerror : Type := string * list value.

(** The Go type [error]: [None] is nil. *)
Definition error : Type := option goerror.

Definition errors_New (msg : string) : goerror := (msg, []).
Definition fmt_Errorf (format : string) (args : list value) : goerror := (format, args).

(** An error seen as an [interface{}] value, for use as a format argument
    and in the error slot of a reflected result. *)
Definition VError (e : goerror) : value := VErr e.1 e.2.

(** [v.(string)] with the comma-ok form. *)
Definition as_string (v : option value) : option string :=
  match v with Some (VString s) => Some s | _ => None end.

(** [v.(map[string]interface{})] with the comma-ok form. *)
Definition as_map (v : option value) : option gomap :=
  match v with Some (VMap m) => Some m | _ => None end.

(** [v.([]interface{})] with the comma-ok form. *)
Definition as_list (v : option value) : option (list value) :=
  match v with Some (VList l) => Some l | _ => None end.

(** [m[k]] read as an [interface{}]: a missing key reads as nil. *)
Definition index (m : gomap) (k : string) : value := default VNil (m !! k).

(** [v == s] for an [interface{}] [v] and a string constant [s]. *)
Definition iface_eq_string (v : option value) (s : string) : bool :=
  match v with Some (VString t) => bool_decide (t = s) | _ => false end.

(** [v == false] for an [interface{}] [v]. *)
Definition iface_eq_false (v : value) : bool :=
  match v with VBool false => true | _ => false end.

(* ================================================================== *)
(** ** Machine integers                                                *)
(* ================================================================== *)

(** Go [int] on the 64-bit targets the driver is built for. *)
Definition wrap_int (x : Z) : Z := (x + 2 ^ 63) `mod` 2 ^ 64 - 2 ^ 63.

Definition int_incr (x : Z) : Z := wrap_int (x + 1).
Definition int_decr (x : Z) : Z := wrap_int (x - 1).

(* ================================================================== *)
(** ** Plugins, attachers, events                                      *)
(* ================================================================== *)

(** A handle on an array client ([client.BaseClientInterface]). *)
Abbreviation client := nat.

(** A pointer to an [OceanstorSanPlugin]. *)
Abbreviation ptr := nat.

Record OceanstorSanPlugin := mkSanPlugin {
  product : string;                    (* OceanstorPlugin.product *)
  cli : client;                        (* OceanstorPlugin.cli *)
  protocol : string;
  portals : list string;
  alua : gomap;
  replicaRemotePlugin : option ptr;
  metroRemotePlugin : option ptr;
  storageOnline : bool;
  clientCount : Z
}.

Definition set_storageOnline (b : bool) (p : OceanstorSanPlugin) : OceanstorSanPlugin :=
  mkSanPlugin (product p) (cli p) (protocol p) (portals p) (alua p)
    (replicaRemotePlugin p) (metroRemotePlugin p) b (clientCount p).

Definition set_clientCount (n : Z) (p : OceanstorSanPlugin) : OceanstorSanPlugin :=
  mkSanPlugin (product p) (cli p) (protocol p) (portals p) (alua p)
    (replicaRemotePlugin p) (metroRemotePlugin p) (storageOnline p) n.

(** What [attacher.NewAttacher] and [attacher.NewMetroAttacher] are given.
    The client is an interface value and may be nil. *)
Inductive attacher :=
  | NewAttacher (product : string) (cli : option client) (protocol invoker : string)
      (portals : list string) (alua : gomap)
  | NewMetroAttacher (localAttacher remoteAttacher : attacher) (protocol : string).

Inductive level := Info | Warning | Error.

(** What the process does to the outside, and what it is answered. *)
Inductive event :=
  | EvLog (lv : level) (format : string) (args : list value)
  | EvLogin (c : client) (r : error)
  | EvLogout (c : client)
  | EvGetLunByName (c : client) (lunName : string) (r : option gomap * error)
  | EvGetHyperMetroPair (c : client) (localLunID : string) (r : option gomap * error)
  | EvReflectCall (a : attacher) (method lunName : string) (parameters : gomap)
      (out : list value)
  | EvNewClient (config : gomap) (r : client)
  | EvValidateLogin (c : client) (r : error)
  | EvBaseCapabilities (p : ptr) (r : option gomap * option gomap * error)
  | EvGetBackend (backendName : string) (found : bool)
  | EvPluginCall (method : string) (args : list value) (r : error).

Record World := mkWorld {
  heap : gmap ptr OceanstorSanPlugin;
  nextClient : client;
  trace : list event
}.

(* ================================================================== *)
(** ** Computations                                                    *)
(* ================================================================== *)

Inductive outcome (A : Type) :=
  | Done (a : A)
  | Panic (msg : string).
Arguments Done {A} a.
Arguments Panic {A} msg.

Definition M (A : Type) : Type := World → outcome A * World.

Definition ret {A} (a : A) : M A := λ w, (Done a, w).

Definition bind {A B} (c : M A) (k : A → M B) : M B :=
  λ w, match c w with
       | (Done a, w') => k a w'
       | (Panic msg, w') => (Panic msg, w')
       end.

Notation "'let*' x := c1 'in' c2" := (bind c1 (λ x, c2))
  (at level 10, x name, c1 at level 100, c2 at level 200, only parsing).
Notation "'do' c1 'then' c2" := (bind c1 (λ _, c2))
  (at level 10, c1 at level 100, c2 at level 200, only parsing).

Definition panic {A} (msg : string) : M A := λ w, (Panic msg, w).

(** The world after one more event. *)
Definition extend (w : World) (e : event) : World :=
  mkWorld (heap w) (nextClient w) (trace w ++ [e]).

Definition emit (e : event) : M unit := λ w, (Done tt, extend w e).

Definition history : M (list event) := λ w, (Done (trace w), w).

(** [*p]: a pointer that is not in the store behaves as nil. *)
Definition deref (p : ptr) : M OceanstorSanPlugin :=
  λ w, match heap w !! p with
       | Some pl => (Done pl, w)
       | None => (Panic "invalid memory address or nil pointer dereference", w)
       end.

Definition store (p : ptr) (pl : OceanstorSanPlugin) : M unit :=
  λ w, (Done tt, mkWorld (<[p := pl]> (heap w)) (nextClient w) (trace w)).

(** [v.(string)] without the comma-ok form. *)
Definition must_string (v : option value) : M string :=
  match as_string v with
  | Some s => ret s
  | None => panic "interface conversion: interface {} is not string"
  end.

(** A method call through an interface value that may be nil. *)
Definition must_client (c : option client) : M client :=
  match c with
  | Some c => ret c
  | None => panic "invalid memory address or nil pointer dereference"
  end.

Definition log (lv : level) (format : string) (args : list value) : M unit :=
  emit (EvLog lv format args).

(* ================================================================== *)
(** ** The environment                                                 *)
(* ================================================================== *)

(** The plugin interface as the driver uses it: each method is a
    computation on the world. *)
Record Plugin := mkPlugin {
  plugin_DeleteVolume : string → M error;
  plugin_DeleteDTreeVolume : gomap → M error;
  plugin_DetachVolume : string → gomap → M error;
  plugin_DeleteSnapshot : string → string → M error
}.

Record Backend := mkBackend {
  Storage : string;
  Parameters : gomap;
  BackendPlugin : Plugin
}.

(** Everything the modelled code calls and does not define: the array
    client, the attachers reached through [utils.ReflectCall], the volume
    package, the backend registry, [encoding/json] and small helpers.  An
    answer may depend on the history, so two identical calls need not be
    answered alike. *)
Record Env := mkEnv {
  env_Login : client → list event → error;
  env_ValidateLogin : client → list event → error;
  env_GetLunByName : client → string → list event → option gomap * error;
  env_GetHyperMetroPairByLocalObjID :
    client → string → list event → option gomap * error;
  env_MakeLunName : client → string → string;
  env_ReflectCall : attacher → string → string → gomap → list event → list value;
  env_Unmarshal_strings : string → option (gmap string string);
  env_Unmarshal_map : string → gomap * error;
  env_baseUpdateBackendCapabilities :
    ptr → list event → option gomap * option gomap * error;
  env_getNewClientConfig : gomap → gomap * error;
  env_NewClient_error : gomap → list event → error;
  env_VerifyIscsiPortals : list value → list string * error;
  env_ToStringWithFlag : value → string * bool;
  env_volume : string → list value → list event → error;
  env_GetSnapshotName : string → string;
  env_GetBackendWithFresh : string → list event → option Backend;
  env_SplitVolumeId : string → string * string;
  env_SplitSnapshotId : string → string * string * string
}.

Definition is_nil (e : error) : bool :=
  match e with None => true | Some _ => false end.

(** The double quote, for format strings that contain one. *)
Definition dq : string := String (Ascii.ascii_of_nat 34) EmptyString.

Section Oceanstor.
Variable E : Env.

(** *** Calls that leave the process *)

Definition Login (c : client) : M error :=
  let* tr := history in
  let r := env_Login E c tr in
  do emit (EvLogin c r) then ret r.

Definition Logout (c : client) : M unit := emit (EvLogout c).

Definition ValidateLogin (c : client) : M error :=
  let* tr := history in
  let r := env_ValidateLogin E c tr in
  do emit (EvValidateLogin c r) then ret r.

Definition GetLunByName (c : client) (lunName : string) : M (option gomap * error) :=
  let* tr := history in
  let r := env_GetLunByName E c lunName tr in
  do emit (EvGetLunByName c lunName r) then ret r.

Definition GetHyperMetroPairByLocalObjID (c : client) (localLunID : string)
  : M (option gomap * error) :=
  let* tr := history in
  let r := env_GetHyperMetroPairByLocalObjID E c localLunID tr in
  do emit (EvGetHyperMetroPair c localLunID r) then ret r.

(** [utils.ReflectCall(obj, method, ctx, lunName, parameters)]: the results
    of the attacher's method, as a slice of reflected values. *)
Definition ReflectCall (a : attacher) (method lunName : string) (parameters : gomap)
  : M (list value) :=
  let* tr := history in
  let out := env_ReflectCall E a method lunName parameters tr in
  do emit (EvReflectCall a method lunName parameters out) then ret out.

(** [client.NewClient(config)]: a client no plugin holds. *)
Definition NewClient (config : gomap) : M client :=
  λ w, let c := nextClient w in
       (Done c, mkWorld (heap w) (S c) (trace w ++ [EvNewClient config c])).

(** A call into the volume package ([san.Delete], [san.DeleteSnapshot]). *)
Definition volume_call (method : string) (args : list value) : M error :=
  let* tr := history in
  let r := env_volume E method args tr in
  do emit (EvPluginCall method args r) then ret r.

(** Modelled from the spec: [utils.Errorf] is not among the sources.  Every
    wrapped error is built from the format and its arguments and, as the
    helper's uses show, logged on the way. *)
Definition utils_Errorf (format : string) (args : list value) : M goerror :=
  do log Error format args then ret (fmt_Errorf format args).

(** *** oceanstor-san.go *)

Definition hyperMetroPairRunningStatusNormal : string := "1".
Definition hyperMetroPairRunningStatusPause : string := "41".
Definition reflectResultLength : nat := 2.

Record handlerRequest := mkHandlerRequest {
  localCli : option client;
  metroCli : option client;
  lun : gomap;
  parameters : gomap;
  method : string
}.

Definition isHyperMetro (lun : gomap) : M bool :=
  match as_string (lun !! "HASRSSOBJECT") with
  | None =>
      do log Error ("get lun HASRSSOBJECT failed, lun[" +:+ dq +:+ "HASRSSOBJECT" +:+ dq +:+ "]:%v")
           [index lun "HASRSSOBJECT"]
      then ret false
  | Some rssStr =>
      match env_Unmarshal_strings E rssStr with
      | None =>
          do log Error ("unmarshal lun HASRSSOBJECT failed, lun[" +:+ dq +:+ "HASRSSOBJECT" +:+ dq +:+ "]:%s")
               [VString rssStr]
          then ret false
      | Some rss =>
          match rss !! "HyperMetro" with
          | Some hyperMetro => ret (bool_decide (hyperMetro = "TRUE"))
          | None => ret false
          end
      end
  end.

(** [p.metroRemotePlugin != nil && p.metroRemotePlugin.storageOnline] *)
Definition metroRemoteOnline (pl : OceanstorSanPlugin) : M bool :=
  match metroRemotePlugin pl with
  | None => ret false
  | Some q => let* remote := deref q in ret (storageOnline remote)
  end.

(** [p.metroRemotePlugin.f]: panics on a nil pointer. *)
Definition must_remote (pl : OceanstorSanPlugin) : M OceanstorSanPlugin :=
  match metroRemotePlugin pl with
  | None => panic "invalid memory address or nil pointer dereference"
  | Some q => deref q
  end.

Definition metroHandler (p : ptr) (req : handlerRequest) : M (list value * error) :=
  let* localLunID := must_string (lun req !! "ID") in
  let* c := must_client (localCli req) in
  let* r := GetHyperMetroPairByLocalObjID c localLunID in
  match r with
  | (_, Some err) => ret ([], Some err)
  | (None, None) =>
      ret ([], Some (fmt_Errorf "hypermetro pair of LUN %s doesn't exist" [VString localLunID]))
  | (Some pair_, None) =>
      do (if bool_decide (method req = "ControllerDetach")
             || bool_decide (method req = "NodeUnstage")
          then
            if negb (iface_eq_string (pair_ !! "RUNNINGSTATUS") hyperMetroPairRunningStatusNormal)
               && negb (iface_eq_string (pair_ !! "RUNNINGSTATUS") hyperMetroPairRunningStatusPause)
            then log Warning "hypermetro pair status of LUN %s is not normal or pause"
                   [VString localLunID]
            else ret tt
          else
            if negb (iface_eq_string (pair_ !! "RUNNINGSTATUS") hyperMetroPairRunningStatusNormal)
            then log Warning "hypermetro pair status of LUN %s is not normal" [VString localLunID]
            else ret tt)
      then
      let* pl := deref p in
      let localAttacher :=
        NewAttacher (product pl) (localCli req) (protocol pl) "csi" (portals pl) (alua pl) in
      let* remote := must_remote pl in
      let remoteAttacher :=
        NewAttacher (product remote) (metroCli req) (protocol remote) "csi"
          (portals remote) (alua remote) in
      let metroAttacher := NewMetroAttacher localAttacher remoteAttacher (protocol pl) in
      let* lunName := must_string (lun req !! "NAME") in
      let* out := ReflectCall metroAttacher (method req) lunName (parameters req) in
      ret (out, None)
  end.

Definition commonHandler (p plugin : ptr) (lun parameters : gomap) (method : string)
  : M (list value * error) :=
  let* pl := deref plugin in
  let commonAttacher :=
    NewAttacher (product pl) (Some (cli pl)) (protocol pl) "csi" (portals pl) (alua pl) in
  match as_string (lun !! "NAME") with
  | None => ret ([], Some (errors_New "there is no NAME in lun info"))
  | Some lunName =>
      let* out := ReflectCall commonAttacher method lunName parameters in
      ret (out, None)
  end.

Definition handler (p : ptr) (req : handlerRequest) : M (list value * error) :=
  let* isMetro := isHyperMetro (lun req) in
  if negb isMetro then commonHandler p p (lun req) (parameters req) (method req)
  else
    let* pl := deref p in
    let* both := (if storageOnline pl then metroRemoteOnline pl else ret false) in
    if both then metroHandler p req
    else if storageOnline pl then
      let* lunName := must_string (lun req !! "NAME") in
      do log Warning "the lun %s is hyperMetro, but just the local storage is online"
           [VString lunName]
      then commonHandler p p (lun req) (parameters req) (method req)
    else
      let* remoteOnline := metroRemoteOnline pl in
      if remoteOnline then
        let* lunName := must_string (lun req !! "NAME") in
        do log Warning "the lun %s is hyperMetro, but just the remote storage is online"
             [VString lunName]
        then
        match metroRemotePlugin pl with
        | Some q => commonHandler p q (lun req) (parameters req) (method req)
        | None => panic "invalid memory address or nil pointer dereference"
        end
      else ret ([], None).

Definition getLunInfo (p : ptr) (localCli remoteCli : option client) (lunName : string)
  : M (option gomap * error) :=
  let* pl := deref p in
  if storageOnline pl then
    let* c := must_client localCli in GetLunByName c lunName
  else
    let* remoteOnline := metroRemoteOnline pl in
    if remoteOnline then
      let* c := must_client remoteCli in GetLunByName c lunName
    else ret (None, Some (errors_New "both the local and remote storage are not online")).

(** The clients an operation works with: the local one when the plugin is
    online, the remote one when a metro remote is bonded and online. *)
Definition pickClients (p : ptr) : M (option client * option client) :=
  let* pl := deref p in
  let localCli := if storageOnline pl then Some (cli pl) else None in
  let* metroCli :=
    match metroRemotePlugin pl with
    | None => ret None
    | Some q =>
        let* remote := deref q in
        ret (if storageOnline remote then Some (cli remote) else None)
    end in
  ret (localCli, metroCli).

(** AttachVolume attach volume to node, return storage mapping info. *)
Definition AttachVolume (p : ptr) (name : string) (parameters : gomap)
  : M (option gomap * error) :=
  let* clis := pickClients p in
  let* pl := deref p in
  let lunName := env_MakeLunName E (cli pl) name in
  let* r := getLunInfo p clis.1 clis.2 lunName in
  match r with
  | (_, Some err) =>
      do log Error "Get lun %s error: %v" [VString lunName; VError err]
      then ret (None, Some err)
  | (None, None) =>
      let* e := utils_Errorf "Get empty lun info, lunName: %v" [VString lunName] in
      ret (None, Some e)
  | (Some lun, None) =>
      let* r := handler p (mkHandlerRequest clis.1 clis.2 lun parameters "ControllerAttach") in
      match r with
      | (_, Some err) =>
          let* e := utils_Errorf "Storage connect for volume %s error: %v"
                      [VString lunName; VError err] in
          ret (None, Some e)
      | (out, None) =>
          if negb (length out =? reflectResultLength)%nat then
            let* e := utils_Errorf "attach volume %s error" [VString lunName] in
            ret (None, Some e)
          else
            match nth 1 out VNil with
            | VNil =>
                match as_map (Some (nth 0 out VNil)) with
                | Some connectInfo => ret (Some connectInfo, None)
                | None =>
                    ret (None, Some (fmt_Errorf "controller attach volume %s error"
                                       [VString lunName]))
                end
            | VErr format args => ret (None, Some (format, args))
            | _ => panic "interface conversion: interface {} is not error"
            end
      end
  end.

Definition DetachVolume (p : ptr) (name : string) (parameters : gomap) : M error :=
  let* clis := pickClients p in
  let* pl := deref p in
  let lunName := env_MakeLunName E (cli pl) name in
  let* r := getLunInfo p clis.1 clis.2 lunName in
  match r with
  | (_, Some err) =>
      do log Error "Get lun %s error: %v" [VString lunName; VError err]
      then ret (Some err)
  | (None, None) =>
      do log Warning "LUN %s to detach doesn't exist" [VString lunName]
      then ret None
  | (Some lun, None) =>
      let* r := handler p (mkHandlerRequest clis.1 clis.2 lun parameters "ControllerDetach") in
      match r with
      | (_, Some err) => ret (Some err)
      | (out, None) =>
          if negb (length out =? reflectResultLength)%nat then
            ret (Some (fmt_Errorf "detach volume %s error" [VString lunName]))
          else
            match nth 1 out VNil with
            | VNil => ret None
            | VErr format args => ret (Some (format, args))
            | _ => panic "interface conversion: interface {} is not error"
            end
      end
  end.

(** The mutex makes each of the two functions below one atomic step. *)
Definition mutexReleaseClient (p plugin : ptr) (cli : option client) : M unit :=
  let* pl := deref plugin in
  let pl := set_clientCount (int_decr (clientCount pl)) pl in
  do store plugin pl then
  if bool_decide (clientCount pl = 0%Z) then
    let* c := must_client cli in
    do Logout c then
    let* pl := deref plugin in
    store plugin (set_storageOnline false pl)
  else ret tt.

Definition releaseClient (p : ptr) (cli metroCli : option client) : M unit :=
  let* pl := deref p in
  do (if storageOnline pl then mutexReleaseClient p p cli else ret tt) then
  let* pl := deref p in
  match metroRemotePlugin pl with
  | None => ret tt
  | Some q =>
      let* remote := deref q in
      if storageOnline remote then mutexReleaseClient p q metroCli else ret tt
  end.

Definition mutexGetClient (p : ptr) : M (client * error) :=
  let* pl := deref p in
  if negb (storageOnline pl) || bool_decide (clientCount pl = 0%Z) then
    let* err := Login (cli pl) in
    let* pl := deref p in
    let pl := set_storageOnline (is_nil err) pl in
    let pl := if is_nil err then set_clientCount (int_incr (clientCount pl)) pl else pl in
    do store p pl then ret (cli pl, err)
  else
    do store p (set_clientCount (int_incr (clientCount pl)) pl) then ret (cli pl, None).

Definition getClient (p : ptr) : M (option client * option client * error) :=
  let* r := mutexGetClient p in
  let* pl := deref p in
  match metroRemotePlugin pl with
  | Some q =>
      let* rmt := mutexGetClient q in
      if negb (is_nil r.2) && negb (is_nil rmt.2) then
        ret (None, None, Some (errors_New "local and remote storage can not login"))
      else ret (Some r.1, Some rmt.1, None)
  | None =>
      if negb (is_nil r.2) then
        ret (None, None, Some (errors_New "local storage can not login"))
      else ret (Some r.1, None, None)
  end.

(** [p.OceanstorPlugin.UpdateBackendCapabilities()]: the embedded base
    plugin is not among the sources; it asks the array and cannot reach the
    fields [OceanstorSanPlugin] adds. *)
Definition base_UpdateBackendCapabilities (p : ptr)
  : M (option gomap * option gomap * error) :=
  let* tr := history in
  let r := env_baseUpdateBackendCapabilities E p tr in
  do emit (EvBaseCapabilities p r) then ret r.

(** A Go map is updated in place; here the updated map is handed back.
    A nil map reads as empty and is never written, since a write is reached
    only when the key is there. *)
Definition updateHyperMetroCapability (p : ptr) (capabilities : option gomap)
  : M (option gomap) :=
  match capabilities ≫= (λ m, m !! "SupportMetro") with
  | None => ret capabilities
  | Some metroSupport =>
      if iface_eq_false metroSupport then ret capabilities
      else
        let* pl := deref p in
        let* v :=
          match metroRemotePlugin pl with
          | None => ret false
          | Some q =>
              if storageOnline pl then
                let* remote := deref q in ret (storageOnline remote)
              else ret false
          end in
        ret (<["SupportMetro" := VBool v]> <$> capabilities)
  end.

Definition updateReplicaCapability (p : ptr) (capabilities : option gomap)
  : M (option gomap) :=
  match capabilities ≫= (λ m, m !! "SupportReplication") with
  | None => ret capabilities
  | Some metroReplica =>
      if iface_eq_false metroReplica then ret capabilities
      else
        let* pl := deref p in
        ret (<["SupportReplication" := VBool (bool_decide (replicaRemotePlugin pl ≠ None))]>
               <$> capabilities)
  end.

(** UpdateBackendCapabilities to update the block storage capabilities *)
Definition UpdateBackendCapabilities (p : ptr)
  : M (option gomap * option gomap * error) :=
  let* r := base_UpdateBackendCapabilities p in
  match r with
  | (_, _, Some err) =>
      let* pl := deref p in
      do store p (set_storageOnline false pl) then
      ret (None, None, Some err)
  | (capabilities, specifications, None) =>
      let* pl := deref p in
      do store p (set_storageOnline true pl) then
      let* capabilities := updateHyperMetroCapability p capabilities in
      let* capabilities := updateReplicaCapability p capabilities in
      ret (capabilities, specifications, None)
  end.

Definition is_san_protocol (protocol : string) : bool :=
  bool_decide (protocol = "iscsi") || bool_decide (protocol = "fc")
  || bool_decide (protocol = "roce") || bool_decide (protocol = "fc-nvme").

Definition verifyOceanstorSanParam (config : gomap) : M error :=
  match as_map (config !! "parameters") with
  | None =>
      let msg := fmt_Errorf "Verify parameters: [%v] failed. \nparameters must be provided"
                   [index config "parameters"] in
      do log Error msg.1 msg.2 then ret (Some msg)
  | Some parameters =>
      match as_string (parameters !! "protocol") with
      | Some protocol =>
          if negb (is_san_protocol protocol) then
            let msg := fmt_Errorf ("Verify protocol: [%v] failed. \nprotocol must be provided and be one of "
                         +:+ "[iscsi, fc, roce, fc-nvme] for oceanstor-san backend\n")
                         [index parameters "protocol"] in
            do log Error msg.1 msg.2 then ret (Some msg)
          else if bool_decide (protocol = "iscsi") || bool_decide (protocol = "roce") then
            match as_list (parameters !! "portals") with
            | None =>
                let msg := fmt_Errorf ("Verify portals: [%v] failed. \nportals are required to configure for "
                             +:+ "iscsi or roce for oceanstor-san backend\n")
                             [index parameters "portals"] in
                do log Error msg.1 msg.2 then ret (Some msg)
            | Some portals => ret (env_VerifyIscsiPortals E portals).2
            end
          else ret None
      | None =>
          let msg := fmt_Errorf ("Verify protocol: [%v] failed. \nprotocol must be provided and be one of "
                       +:+ "[iscsi, fc, roce, fc-nvme] for oceanstor-san backend\n")
                       [index parameters "protocol"] in
          do log Error msg.1 msg.2 then ret (Some msg)
      end
  end.

Definition Validate (p : ptr) (param : gomap) : M error :=
  do log Info "Start to validate OceanstorSanPlugin parameters." [] then
  let* err := verifyOceanstorSanParam param in
  match err with
  | Some e => ret (Some e)
  | None =>
      match env_getNewClientConfig E param with
      | (_, Some e) => ret (Some e)
      | (clientConfig, None) =>
          (* Login verification *)
          let* c := NewClient clientConfig in
          let* err := ValidateLogin c in
          match err with
          | Some e => ret (Some e)
          | None => do Logout c then ret None
          end
      end
  end.

(** The volume package does the work of these two. *)
Definition DeleteVolume (p : ptr) (name : string) : M error :=
  volume_call "SAN.Delete" [VString name].

Definition DeleteSnapshot (p : ptr) (snapshotParentID snapshotName : string) : M error :=
  let snapshotName := env_GetSnapshotName E snapshotName in
  let* err := volume_call "SAN.DeleteSnapshot" [VString snapshotName] in
  match err with
  | Some e => ret (Some e)
  | None => ret None
  end.

Definition DeleteDTreeVolume (p : ptr) (m : gomap) : M error :=
  ret (Some (errors_New "not implement")).

(** The plugin behind the [Plugin] interface. *)
Definition SanPlugin (p : ptr) : Plugin :=
  mkPlugin (DeleteVolume p) (DeleteDTreeVolume p) (DetachVolume p) (DeleteSnapshot p).

End Oceanstor.

(* ================================================================== *)
(** ** fusionstorage-san.go                                            *)
(* ================================================================== *)

Module FusionStorage.

Record FusionStorageSanPlugin := mkFusionSanPlugin {
  cli : client;                        (* FusionStoragePlugin.cli *)
  hosts : gmap string string;
  protocol : string;
  portals : list string;
  alua : gomap;
  storageOnline : bool;
  clientCount : Z
}.

(** The receiver is a pointer: the plugin is handed back with the results. *)
Definition UpdateBackendCapabilities (p : FusionStorageSanPlugin)
  : M (FusionStorageSanPlugin * (option gomap * option gomap * error)) :=
  let capabilities : gomap :=
    <["SupportThin" := VBool true]>
      (<["SupportThick" := VBool false]>
         (<["SupportQoS" := VBool true]>
            (<["SupportClone" := VBool true]>
               (<["SupportLabel" := VBool false]> ∅)))) in
  ret (p, (Some capabilities, None, None)).

End FusionStorage.

(* ================================================================== *)
(** ** The oceanstor-dtree plugin                                      *)
(* ================================================================== *)

Module DTree.

Definition DTreeStorage : string := "oceanstor-dtree".

Record OceanstorDTreePlugin := mkDTreePlugin {
  cli : client;                        (* OceanstorPlugin.cli *)
  portal : string;
  parentName : string
}.

Section WithEnv.
Variable E : Env.

(** [client.NewClient(config)] of this plugin may fail. *)
Definition NewClient (config : gomap) : M (option client * error) :=
  λ w, match env_NewClient_error E config (trace w) with
       | Some e => (Done (None, Some e), w)
       | None =>
           let c := nextClient w in
           (Done (Some c, None),
            mkWorld (heap w) (S c) (trace w ++ [EvNewClient config c]))
       end.

Definition failed (format : string) (args : list value) : M error :=
  let msg := fmt_Errorf format args in
  do log Error msg.1 msg.2 then ret (Some msg).

Definition verifyOceanstorDTreeParam (config : gomap) : M error :=
  (* verify storage *)
  let storage := env_ToStringWithFlag E (index config "storage") in
  if negb storage.2 || negb (bool_decide (storage.1 = DTreeStorage)) then
    failed "Verify storage: [%v] failed. \nstorage must be %s"
      [index config "storage"; VString DTreeStorage]
  else
  (* verify parameters *)
  match as_map (config !! "parameters") with
  | None =>
      failed "Verify parameters: [%v] failed. \nparameters must be provided"
        [index config "parameters"]
  | Some parameters =>
      (* verify parent name *)
      let parentName := env_ToStringWithFlag E (index parameters "parentname") in
      if negb parentName.2 || bool_decide (parentName.1 = EmptyString) then
        failed ("Verify parentname: [%v] failed. \nParentname must be provided for "
                +:+ "oceanstor-dtree backend\n") [index parameters "parentname"]
      else
      (* verify protocol portals *)
      let protocol := env_ToStringWithFlag E (index parameters "protocol") in
      if negb protocol.2 || negb (bool_decide (protocol.1 = "nfs")) then
        failed ("Verify protocol: [%v] failed. \nProtocol must be provided and must be "
                +:+ dq +:+ "nfs" +:+ dq +:+ " for oceanstor-dtree backend\n")
          [index parameters "protocol"]
      else
      match parameters !! "portals" with
      | None =>
          failed ("Verify portals: [%v] failed. \nportals must be provided for oceanstor-dtree backend "
                  +:+ "and just support one portal\n") [index parameters "portals"]
      | Some v =>
          match as_list (Some v) with
          | Some [_] => ret None
          | _ =>
              failed ("Verify portals: [%v] failed. \nportals must be provided for oceanstor-dtree backend "
                      +:+ "and just support one portal\n") [index parameters "portals"]
          end
      end
  end.

Definition Validate (p : OceanstorDTreePlugin) (param : gomap)
  : M (OceanstorDTreePlugin * error) :=
  do log Info "Start to validate OceanstorDTreePlugin parameters." [] then
  match env_getNewClientConfig E param with
  | (_, Some e) => ret (p, Some e)
  | (clientConfig, None) =>
      let* err := verifyOceanstorDTreeParam param in
      match err with
      | Some e => ret (p, Some e)
      | None =>
          (* Login verification *)
          let* r := NewClient clientConfig in
          match r with
          | (_, Some e) => ret (p, Some e)
          | (None, None) => panic "invalid memory address or nil pointer dereference"
          | (Some c, None) =>
              let* err := ValidateLogin E c in
              match err with
              | Some e => ret (p, Some e)
              | None => do Logout c then ret (p, None)
              end
          end
      end
  end.

End WithEnv.
End DTree.

(* ================================================================== *)
(** ** controller.go                                                   *)
(* ================================================================== *)

Module Driver.

Inductive codes := InvalidArgument | FailedPrecondition | Internal | Unimplemented.

(** [status.Error(code, msg)] *)
Definition status : Type := codes * goerror.

Record DeleteVolumeRequest := mkDeleteVolumeRequest { dv_VolumeId : string }.
Record ControllerUnpublishVolumeRequest := mkControllerUnpublishVolumeRequest {
  cu_VolumeId : string;
  cu_NodeId : string
}.
Record DeleteSnapshotRequest := mkDeleteSnapshotRequest { ds_SnapshotId : string }.

Inductive DeleteVolumeResponse := mkDeleteVolumeResponse.
Inductive ControllerUnpublishVolumeResponse := mkControllerUnpublishVolumeResponse.
Inductive DeleteSnapshotResponse := mkDeleteSnapshotResponse.

Section WithEnv.
Variable E : Env.

(** [backend.GetBackendWithFresh(ctx, backendName, true)] *)
Definition GetBackendWithFresh (backendName : string) : M (option Backend) :=
  let* tr := history in
  let r := env_GetBackendWithFresh E backendName tr in
  do emit (EvGetBackend backendName (bool_decide (is_Some r))) then ret r.

Definition DeleteVolume (req : DeleteVolumeRequest)
  : M (option DeleteVolumeResponse * option status) :=
  let volumeId := dv_VolumeId req in
  do log Info "Start to delete volume %s" [VString volumeId] then
  let names := env_SplitVolumeId E volumeId in
  let backendName := names.1 in
  let volName := names.2 in
  let* backend := GetBackendWithFresh backendName in
  match backend with
  | None =>
      do log Warning ("Backend %s doesn't exist. Ignore this request and return success. "
                      +:+ "CAUTION: volume need to manually delete from array.")
           [VString backendName]
      then ret (Some mkDeleteVolumeResponse, None)
  | Some backend =>
      let* err :=
        if bool_decide (Storage backend = DTree.DTreeStorage) then
          plugin_DeleteDTreeVolume (BackendPlugin backend)
            (<["parentname" := index (Parameters backend) "parentname"]>
               (<["name" := VString volName]> ∅))
        else plugin_DeleteVolume (BackendPlugin backend) volName in
      match err with
      | Some e =>
          do log Error "Delete volume %s error: %v" [VString volumeId; VError e]
          then ret (None, Some (Internal, e))
      | None =>
          do log Info "Volume %s is deleted" [VString volumeId]
          then ret (Some mkDeleteVolumeResponse, None)
      end
  end.

Definition ControllerUnpublishVolume (req : ControllerUnpublishVolumeRequest)
  : M (option ControllerUnpublishVolumeResponse * option status) :=
  let volumeId := cu_VolumeId req in
  let nodeInfo := cu_NodeId req in
  do log Info "Start to controller unpublish volume %s from node %s"
       [VString volumeId; VString nodeInfo] then
  let names := env_SplitVolumeId E volumeId in
  let backendName := names.1 in
  let volName := names.2 in
  let* backend := GetBackendWithFresh backendName in
  match backend with
  | None =>
      do log Warning ("Backend %s doesn't exist. Ignore this request and return success. "
                      +:+ "CAUTION: volume %s need to manually detach from array.")
           [VString backendName; VString volName]
      then ret (Some mkControllerUnpublishVolumeResponse, None)
  | Some backend =>
      match env_Unmarshal_map E nodeInfo with
      | (_, Some err) =>
          do log Error "Unmarshal node info of %s error: %v" [VString nodeInfo; VError err]
          then ret (None, Some (Internal, err))
      | (parameters, None) =>
          let* err := plugin_DetachVolume (BackendPlugin backend) volName parameters in
          match err with
          | Some e =>
              do log Error "Unpublish volume %s from node %s error: %v"
                   [VString volName; VString nodeInfo; VError e]
              then ret (None, Some (Internal, e))
          | None =>
              do log Info "Volume %s is controller unpublished from node %s"
                   [VString volumeId; VString nodeInfo]
              then ret (Some mkControllerUnpublishVolumeResponse, None)
          end
      end
  end.

Definition DeleteSnapshot (req : DeleteSnapshotRequest)
  : M (option DeleteSnapshotResponse * option status) :=
  let snapshotId := ds_SnapshotId req in
  if bool_decide (snapshotId = EmptyString) then
    ret (None, Some (InvalidArgument, errors_New "Snapshot ID missing in request"))
  else
  do log Info "Start to Delete snapshot %s." [VString snapshotId] then
  let names := env_SplitSnapshotId E snapshotId in
  let backendName := names.1.1 in
  let snapshotParentId := names.1.2 in
  let snapshotName := names.2 in
  let* backend := GetBackendWithFresh backendName in
  match backend with
  | None =>
      do log Warning ("Backend %s doesn't exist. Ignore this request and return success. "
                      +:+ "CAUTION: snapshot need to manually delete from array.")
           [VString backendName]
      then ret (Some mkDeleteSnapshotResponse, None)
  | Some backend =>
      let* err := plugin_DeleteSnapshot (BackendPlugin backend) snapshotParentId snapshotName in
      match err with
      | Some e =>
          do log Error "Delete snapshot %s error: %v" [VString snapshotName; VError e]
          then ret (None, Some (Internal, e))
      | None =>
          do log Info "Finish to Delete snapshot %s" [VString snapshotId]
          then ret (Some mkDeleteSnapshotResponse, None)
      end
  end.

End WithEnv.
End Driver.

(* ================================================================== *)
(** ** Session sequences                                               *)
(* ================================================================== *)

(** One holder taking or giving back the session of plugin [p]. *)
Inductive session_op := Acquire | Release.

Section Sessions.
Variable E : Env.

(** An acquire is [mutexGetClient]; a release is [mutexReleaseClient] on the
    plugin itself, with the client the acquire handed out.  The result of
    an acquire is its error; a release has none. *)
Definition run_op (p : ptr) (op : session_op) : M error :=
  match op with
  | Acquire => let* r := mutexGetClient E p in ret r.2
  | Release =>
      let* pl := deref p in
      do mutexReleaseClient p p (Some (cli pl)) then ret None
  end.

Fixpoint run_ops (p : ptr) (ops : list session_op) : M (list error) :=
  match ops with
  | [] => ret []
  | op :: ops =>
      let* e := run_op p op in
      let* es := run_ops p ops in
      ret (e :: es)
  end.

End Sessions.

Fixpoint acquires (ops : list session_op) : nat :=
  match ops with
  | [] => 0
  | Acquire :: ops => S (acquires ops)
  | Release :: ops => acquires ops
  end.

Fixpoint releases (ops : list session_op) : nat :=
  match ops with
  | [] => 0
  | Acquire :: ops => releases ops
  | Release :: ops => S (releases ops)
  end.

(** The events a computation adds to the trace. *)
Definition added {A} (c : M A) (w : World) : list event :=
  drop (length (trace w)) (trace (c w).2).

(* ================================================================== *)
(** ** Fixtures                                                        *)
(* ================================================================== *)

Module Fixtures.

(** The relationship blob of a volume in an active HyperMetro pair. *)
Definition metroBlob : string :=
  "{" +:+ dq +:+ "HyperMetro" +:+ dq +:+ ":" +:+ dq +:+ "TRUE" +:+ dq +:+ "}".

Definition metroLun : gomap :=
  <["NAME" := VString "pvc-v1"]>
    (<["ID" := VString "7"]> (<["HASRSSOBJECT" := VString metroBlob]> ∅)).

Definition plainLun : gomap :=
  <["NAME" := VString "pvc-v2"]> (<["ID" := VString "8"]> ∅).

Definition normalPair : gomap := <["RUNNINGSTATUS" := VString "1"]> (<["ID" := VString "70"]> ∅).
Definition syncingPair : gomap := <["RUNNINGSTATUS" := VString "23"]> (<["ID" := VString "70"]> ∅).

Definition mapping : gomap := <["tgtLunWWN" := VString "6001"]> ∅.

(** An environment with four knobs: the answer to every login, to every
    LUN lookup, to every pair lookup, and what every attacher call returns.
    The base plugin reports every capability as supported. *)
Definition env (login : error) (lunInfo pairInfo : option gomap * error)
    (out : list value) : Env :=
  mkEnv
    (λ _ _, login) (λ _ _, login)
    (λ _ _ _, lunInfo) (λ _ _ _, pairInfo)
    (λ _ name, name)
    (λ _ _ _ _ _, out)
    (λ s, if bool_decide (s = metroBlob) then Some (<["HyperMetro" := "TRUE"]> ∅)
          else if bool_decide (s = "{}") then Some ∅ else None)
    (λ _, (∅, None))
    (λ _ _, (Some (<["SupportMetro" := VBool true]> (<["SupportThin" := VBool true]> ∅)),
             Some ∅, None))
    (λ param, (param, None))
    (λ _ _, None)
    (λ _, ([], None))
    (λ v, match v with VString s => (s, true) | _ => (EmptyString, false) end)
    (λ _ _ _, None)
    (λ name, name)
    (λ _ _, None)
    (λ _, (EmptyString, EmptyString))
    (λ _, (EmptyString, EmptyString, EmptyString)).

Definition san (remote : option ptr) (online : bool) (count : Z) (c : client)
  : OceanstorSanPlugin :=
  mkSanPlugin "DoradoV6" c "iscsi" ["192.168.0.2"] ∅ None remote online count.

(** Plugin 0 bonded to its metro remote, plugin 1. *)
Definition world (localOnline remoteOnline : bool) : World :=
  mkWorld (<[0 := san (Some 1) localOnline 0 10]> (<[1 := san None remoteOnline 0 11]> ∅))
    12 [].

(** Plugin 0 alone, as [Init] leaves it: online, no holder. *)
Definition alone : World := mkWorld (<[0 := san None true 0 10]> ∅) 12 [].

End Fixtures.

(* ================================================================== *)
(** ** Reading the store                                               *)
(* ================================================================== *)

(** Plugin [p] is in the store as [pl], and its metro remote, when one is
    bonded, is in the store as well. *)
Inductive topology (w : World) (p : ptr)
  : OceanstorSanPlugin → option OceanstorSanPlugin → Prop :=
  | topology_alone pl :
      heap w !! p = Some pl → metroRemotePlugin pl = None →
      topology w p pl None
  | topology_bonded pl q remote :
      heap w !! p = Some pl → metroRemotePlugin pl = Some q →
      heap w !! q = Some remote →
      topology w p pl (Some remote).

(** [p.metroRemotePlugin != nil && p.metroRemotePlugin.storageOnline] read
    off the store. *)
Definition remote_online (remote : option OceanstorSanPlugin) : bool :=
  match remote with
  | Some remote => storageOnline remote
  | None => false
  end.

(** The client [getLunInfo] asks: the local one when the plugin is online,
    else the remote one when that is online. *)
Definition consulted (pl : OceanstorSanPlugin) (remote : option OceanstorSanPlugin)
  : option client :=
  if storageOnline pl then Some (cli pl)
  else match remote with
       | Some remote => if storageOnline remote then Some (cli remote) else None
       | None => None
       end.

(** The world after some more events. *)
Definition extends (w : World) (evs : list event) : World :=
  mkWorld (heap w) (nextClient w) (trace w ++ evs).

(** The attacher [metroHandler] builds for a plugin and its metro remote. *)
Definition metroAttacherOf (pl remote : OceanstorSanPlugin) (localCli metroCli : option client)
  : attacher :=
  NewMetroAttacher
    (NewAttacher (product pl) localCli (protocol pl) "csi" (portals pl) (alua pl))
    (NewAttacher (product remote) metroCli (protocol remote) "csi" (portals remote)
       (alua remote))
    (protocol pl).

(** The request the two operations build for the handler. *)
Definition requestOf (pl : OceanstorSanPlugin) (remote : option OceanstorSanPlugin)
    (info params : gomap) (method : string) : handlerRequest :=
  mkHandlerRequest
    (if storageOnline pl then Some (cli pl) else None)
    (match remote with
     | Some remote => if storageOnline remote then Some (cli remote) else None
     | None => None
     end) info params method.

(** A metro remote is bonded to [p], and the online flags of [p] and of the
    remote are both set, in world [w]. *)
Definition metro_ready (w : World) (p : ptr) : bool :=
  match heap w !! p with
  | None => false
  | Some pl =>
      match metroRemotePlugin pl with
      | None => false
      | Some q =>
          match heap w !! q with
          | None => false
          | Some remote => storageOnline pl && storageOnline remote
          end
      end
  end.

(** The array client an event is about. *)
Definition event_client (e : event) : option client :=
  match e with
  | EvLogin c _ | EvLogout c | EvValidateLogin c _ | EvGetLunByName c _ _
  | EvGetHyperMetroPair c _ _ | EvNewClient _ c => Some c
  | _ => None
  end.

(** What a validation adds to the trace is about no client but the one it
    has just built. *)
Definition throwaway_only (w : World) (evs : list event) : Prop :=
  Forall (λ e, event_client e = None ∨ event_client e = Some (nextClient w)) evs.

(** What a validation adds to the trace once it has a client configuration:
    its opening line, the client it builds, the probe of the login with its
    answer, and the logout when the answer is nil. *)
Definition validation_events (start : event) (config : gomap) (c : client)
    (probe : error) : list event :=
  [start; EvNewClient config c; EvValidateLogin c probe]
  ++ (if is_nil probe then [EvLogout c] else []).

Definition is_ReflectCall (e : event) : bool :=
  match e with EvReflectCall _ _ _ _ _ => true | _ => false end.

Definition is_Logout (e : event) : bool :=
  match e with EvLogout _ => true | _ => false end.

(** The name of the LUN behind a volume name. *)
Definition lunNameOf (E : Env) (pl : OceanstorSanPlugin) (name : string) : string :=
  env_MakeLunName E (cli pl) name.

(** A relationship blob [isHyperMetro] cannot read: the entry is missing,
    is not a string, or does not parse. *)
Inductive malformed (E : Env) (lun : gomap) : Prop :=
  | blob_missing : lun !! "HASRSSOBJECT" = None → malformed E lun
  | blob_not_string v :
      lun !! "HASRSSOBJECT" = Some v → as_string (Some v) = None → malformed E lun
  | blob_unparsable rssStr :
      lun !! "HASRSSOBJECT" = Some (VString rssStr) →
      env_Unmarshal_strings E rssStr = None → malformed E lun.

(** The attacher [commonHandler] builds for a plugin. *)
Definition commonAttacherOf (pl : OceanstorSanPlugin) : attacher :=
  NewAttacher (product pl) (Some (cli pl)) (protocol pl) "csi" (portals pl) (alua pl).

(* ================================================================== *)
(** ** The rest of the environment                                     *)
(* ================================================================== *)

(** A value [VInt n] stands for a Go integer, [int] or [int64]; nothing
    below tells the two apart. *)

(** The methods of a backend's plugin that [Plugin] leaves out. *)
Record PluginRest := mkPluginRest {
  plugin_ExpandVolume : string → Z → M (bool * error);
  plugin_ExpandDTreeVolume : gomap → M (bool * error);
  plugin_AttachVolume : string → gomap → M (option gomap * error)
}.

(** What the code below calls and does not define, beside [Env]: the base
    plugin's [init] and capability report, the array client's pool and NFS
    queries, the QoS helpers of the smartx package, [strconv.Atoi],
    [strings.TrimSpace], [json.Marshal], two helpers of the [utils]
    package, and the methods of a registered backend's plugin that
    [Plugin] leaves out, by the backend's name. *)
Record Lib := mkLib {
  lib_init : gomap → bool → string → client → list event → string * client * error;
  lib_dtree_init : gomap → bool → client → string → list event → client * string * error;
  lib_baseCapabilities : client → list event → option gomap * option gomap * error;
  lib_GetNFSServiceSetting : client → list event → gmap string bool * error;
  lib_GetPoolByName : client → string → list event → option gomap * error;
  lib_ExtractQoSParameters : string → string → gomap * error;
  lib_ValidateQoSParameters : string → gomap → gomap * error;
  lib_Atoi : string → Z * error;
  lib_TrimSpace : string → string;
  lib_Marshal : option gomap → string * error;
  lib_ToStringSafe : value → string;
  lib_IsContain : string → list string → bool;
  lib_PluginRest : string → PluginRest
}.

(** A call that leaves the process and is answered with an error or nil. *)
Definition called (method : string) (args : list value) (r : error) : M unit :=
  emit (EvPluginCall method args r).

(** The computation leaves the plugins and the client counter alone. *)
Definition keeps_store {A} (c : M A) : Prop :=
  ∀ w, heap (c w).2 = heap w ∧ nextClient (c w).2 = nextClient w.

(* ================================================================== *)
(** ** oceanstor-san.go, the rest                                      *)
(* ================================================================== *)

Definition set_alua (a : gomap) (p : OceanstorSanPlugin) : OceanstorSanPlugin :=
  mkSanPlugin (product p) (cli p) (protocol p) (portals p) a
    (replicaRemotePlugin p) (metroRemotePlugin p) (storageOnline p) (clientCount p).

Definition set_portals (ips : list string) (p : OceanstorSanPlugin) : OceanstorSanPlugin :=
  mkSanPlugin (product p) (cli p) (protocol p) ips (alua p)
    (replicaRemotePlugin p) (metroRemotePlugin p) (storageOnline p) (clientCount p).

Definition set_protocol (s : string) (p : OceanstorSanPlugin) : OceanstorSanPlugin :=
  mkSanPlugin (product p) (cli p) s (portals p) (alua p)
    (replicaRemotePlugin p) (metroRemotePlugin p) (storageOnline p) (clientCount p).

(** The fields of the embedded [OceanstorPlugin]. *)
Definition set_base (prod : string) (c : client) (p : OceanstorSanPlugin)
  : OceanstorSanPlugin :=
  mkSanPlugin prod c (protocol p) (portals p) (alua p)
    (replicaRemotePlugin p) (metroRemotePlugin p) (storageOnline p) (clientCount p).

Section OceanstorRest.
Variable E : Env.
Variable L : Lib.

(** [p.init(config, keepLogin)] of the embedded base plugin, which is not
    among the sources: it may fail, and it can reach the base plugin's
    fields only, here the product and the client. *)
Definition base_init (p : ptr) (config : gomap) (keepLogin : bool) : M error :=
  let* pl := deref p in
  let* tr := history in
  let r := lib_init L config keepLogin (product pl) (cli pl) tr in
  do called "OceanstorPlugin.init" [VMap config; VBool keepLogin] r.2 then
  do store p (set_base r.1.1 r.1.2 pl) then
  ret r.2.

Definition Init (p : ptr) (config parameters : gomap) (keepLogin : bool) : M error :=
  match as_string (parameters !! "protocol") with
  | None =>
      ret (Some (errors_New ("protocol must be provided as 'iscsi', 'fc', "
                             +:+ "'roce' or 'fc-nvme' for oceanstor-san backend")))
  | Some protocol =>
      if negb (is_san_protocol protocol) then
        ret (Some (errors_New ("protocol must be provided as 'iscsi', 'fc', "
                               +:+ "'roce' or 'fc-nvme' for oceanstor-san backend")))
      else
        let* pl := deref p in
        do store p (set_alua (default ∅ (as_map (parameters !! "ALUA"))) pl) then
        let* err :=
          if bool_decide (protocol = "iscsi") || bool_decide (protocol = "roce") then
            match as_list (parameters !! "portals") with
            | None =>
                ret (Some (errors_New
                             "portals are required to configure for iSCSI or RoCE backend"))
            | Some portals =>
                match env_VerifyIscsiPortals E portals with
                | (_, Some err) => ret (Some err)
                | (IPs, None) =>
                    let* pl := deref p in
                    do store p (set_portals IPs pl) then ret None
                end
            end
          else ret None in
        match err with
        | Some e => ret (Some e)
        | None =>
            let* err := base_init p config keepLogin in
            match err with
            | Some e => ret (Some e)
            | None =>
                let* pl := deref p in
                if (bool_decide (protocol = "roce") || bool_decide (protocol = "fc-nvme"))
                   && negb (bool_decide (product pl = "DoradoV6")) then
                  let msg := fmt_Errorf "The storage backend %s does not support NVME protocol"
                               [VString (product pl)] in
                  do log Error msg.1 msg.2 then ret (Some msg)
                else
                  do store p (set_storageOnline true (set_protocol protocol pl)) then
                  ret None
            end
        end
  end.

End OceanstorRest.

(** *** Reading sessions off the store *)

(** The plugin after [mutexGetClient] has ended with [err]. *)
Definition acquired (err : error) (pl : OceanstorSanPlugin) : OceanstorSanPlugin :=
  if is_nil err
  then set_clientCount (int_incr (clientCount pl)) (set_storageOnline true pl)
  else set_storageOnline false pl.

(** The plugin after the release [releaseClient] does for it: none when the
    plugin is offline. *)
Definition released (pl : OceanstorSanPlugin) : OceanstorSanPlugin :=
  if storageOnline pl then
    if bool_decide (int_decr (clientCount pl) = 0%Z)
    then set_storageOnline false (set_clientCount (int_decr (clientCount pl)) pl)
    else set_clientCount (int_decr (clientCount pl)) pl
  else pl.

(** The holder count and the online flag of the plugin at [q], if any. *)
Definition holders (w : World) (q : ptr) : option Z := clientCount <$> heap w !! q.
Definition online (w : World) (q : ptr) : option bool := storageOnline <$> heap w !! q.

(** The call of the base plugin's [init]. *)
Definition is_init_call (e : event) : bool :=
  match e with
  | EvPluginCall method _ _ => bool_decide (method = "OceanstorPlugin.init")
  | _ => false
  end.

(* ================================================================== *)
(** ** oceanstor-dtree, the rest                                       *)
(* ================================================================== *)

Module DTreeRest.

(** The plugin with the one field of the embedded base plugin that
    [DTree.OceanstorDTreePlugin] leaves out. *)
Record OceanstorDTreePlugin := mkDTree {
  fields : DTree.OceanstorDTreePlugin;
  vStoreId : string
}.

Definition defaultMap : gomap := <["FreeCapacity" := VInt 0]> ∅.

(** Every pool name is given the same map; nothing below writes to it. *)
Definition UpdatePoolCapabilities (poolNames : list string) : gomap * error :=
  (foldl (λ capabilities poolName, <[poolName := VMap defaultMap]> capabilities)
     ∅ poolNames,
   None).

(** [nfsServiceSetting[k]] on a [map[string]bool]: a missing key reads as
    false. *)
Definition setting (nfsServiceSetting : gmap string bool) (k : string) : bool :=
  default false (nfsServiceSetting !! k).

Section WithEnv.
Variable E : Env.
Variable L : Lib.

(** [string(constants.SupportLabel)]: the constant is not among the
    sources. *)
Variable SupportLabel : string.

Definition GetNFSServiceSetting (c : client) : M (gmap string bool * error) :=
  let* tr := history in
  let r := lib_GetNFSServiceSetting L c tr in
  do called "GetNFSServiceSetting" [] r.2 then ret r.

(** The map comes back with the error: it is the caller's map when the
    caller passed one, and stays nil when the caller passed nil, for then
    the writes go to a map of the function's own. *)
Definition updateNFS4Capability (c : client) (capabilities : option gomap)
  : M (option gomap * error) :=
  let own := default ∅ capabilities in
  let* r := GetNFSServiceSetting c in
  match r with
  | (_, Some err) => ret (capabilities, Some err)
  | (nfsServiceSetting, None) =>
      (* NFS3 is enabled by default. *)
      let own := <["SupportNFS3" := VBool true]> own in
      let own := <["SupportNFS4" := VBool false]> own in
      let own := <["SupportNFS41" := VBool false]> own in
      let own := if negb (setting nfsServiceSetting "SupportNFS3")
                 then <["SupportNFS3" := VBool false]> own else own in
      let own := if setting nfsServiceSetting "SupportNFS4"
                 then <["SupportNFS4" := VBool true]> own else own in
      let own := if setting nfsServiceSetting "SupportNFS41"
                 then <["SupportNFS41" := VBool true]> own else own in
      ret (match capabilities with Some _ => Some own | None => None end, None)
  end.

(** [p.OceanstorPlugin.UpdateBackendCapabilities()] of the embedded base
    plugin. *)
Definition base_UpdateBackendCapabilities (c : client)
  : M (option gomap * option gomap * error) :=
  let* tr := history in
  let r := lib_baseCapabilities L c tr in
  do called "OceanstorPlugin.UpdateBackendCapabilities" [] r.2 then ret r.

Definition UpdateBackendCapabilities (p : OceanstorDTreePlugin)
  : M (option gomap * option gomap * error) :=
  let* r := base_UpdateBackendCapabilities (DTree.cli (fields p)) in
  match r with
  | (_, _, Some err) => ret (None, None, Some err)
  | (capabilities, specifications, None) =>
      (* close dTree pvc label switch *)
      match capabilities with
      | None => panic "assignment to entry in nil map"
      | Some capabilities =>
          let capabilities := <[SupportLabel := VBool false]> capabilities in
          let* r := updateNFS4Capability (DTree.cli (fields p)) (Some capabilities) in
          match r with
          | (_, Some err) => ret (None, None, Some err)
          | (capabilities, None) => ret (capabilities, specifications, None)
          end
      end
  end.

(** The receiver and the map are values here and cannot be nil. *)
Definition DeleteDTreeVolume (p : OceanstorDTreePlugin) (params : gomap) : M error :=
  let params := <["vstoreid" := VString (vStoreId p)]> params in
  let params := <["parentname" := VString (DTree.parentName (fields p))]> params in
  volume_call E "DTree.Delete" [VMap params].

Definition DeleteVolume (p : OceanstorDTreePlugin) (name : string) : M error :=
  ret (Some (errors_New "not implement")).

Definition DeleteSnapshot (p : OceanstorDTreePlugin) (s s2 : string) : M error :=
  ret (Some (errors_New "not implement")).

(** The plugin behind the [Plugin] interface; [DetachVolume] is the base
    plugin's and not among the sources. *)
Definition DTreePlugin (p : OceanstorDTreePlugin) (DetachVolume : string → gomap → M error)
  : Plugin :=
  mkPlugin (DeleteVolume p) (DeleteDTreeVolume p) DetachVolume (DeleteSnapshot p).

(** [p.init(config, keepLogin)] of the embedded base plugin: it can reach
    the base plugin's fields only, here the client and the vStore. *)
Definition base_init (p : OceanstorDTreePlugin) (config : gomap) (keepLogin : bool)
  : M (OceanstorDTreePlugin * error) :=
  let* tr := history in
  let r := lib_dtree_init L config keepLogin (DTree.cli (fields p)) (vStoreId p) tr in
  do called "OceanstorPlugin.init" [VMap config; VBool keepLogin] r.2 then
  ret (mkDTree (DTree.mkDTreePlugin r.1.1 (DTree.portal (fields p))
                   (DTree.parentName (fields p))) r.1.2, r.2).

Definition set_portal (s : string) (p : OceanstorDTreePlugin) : OceanstorDTreePlugin :=
  mkDTree (DTree.mkDTreePlugin (DTree.cli (fields p)) s (DTree.parentName (fields p)))
    (vStoreId p).

Definition set_parentName (s : string) (p : OceanstorDTreePlugin) : OceanstorDTreePlugin :=
  mkDTree (DTree.mkDTreePlugin (DTree.cli (fields p)) (DTree.portal (fields p)) s)
    (vStoreId p).

Definition portals_error : goerror :=
  errors_New "portals must be provided for oceanstor-dtree backend and just support one portal".

(** The plugin comes back with the error, as the fields are written
    before the base plugin's [init] runs. *)
Definition Init (p : OceanstorDTreePlugin) (config parameters : gomap) (keepLogin : bool)
  : M (OceanstorDTreePlugin * error) :=
  let protocol := env_ToStringWithFlag E (index parameters "protocol") in
  if negb protocol.2 || negb (bool_decide (protocol.1 = "nfs")) then
    ret (p, Some (errors_New ("protocol must be provided and be " +:+ dq +:+ "nfs" +:+ dq
                              +:+ " for oceanstor-dtree backend")))
  else
  match parameters !! "portals" with
  | None => ret (p, Some portals_error)
  | Some v =>
      match as_list (Some v) with
      | Some [portal0] =>
          let p := set_portal (env_ToStringWithFlag E portal0).1 p in
          let p := set_parentName (env_ToStringWithFlag E (index parameters "parentname")).1 p in
          let* r := base_init p config keepLogin in
          match r with
          | (p, Some err) =>
              do log Error "init dtree plugin failed, data:" [] then ret (p, Some err)
          | (p, None) => ret (p, None)
          end
      | _ => ret (p, Some portals_error)
      end
  end.

End WithEnv.

End DTreeRest.

(** [w'] is [w] with one more event. *)
Definition extends_by_one (w w' : World) : Prop := ∃ e, w' = extend w e.

(* ================================================================== *)
(** ** controller.go, the rest                                         *)
(* ================================================================== *)

Module Controller.

(** [csi.VolumeCapability_AccessMode_Mode] *)
Inductive AccessMode_Mode :=
  | UNKNOWN
  | SINGLE_NODE_WRITER
  | SINGLE_NODE_READER_ONLY
  | MULTI_NODE_READER_ONLY
  | MULTI_NODE_SINGLE_WRITER
  | MULTI_NODE_MULTI_WRITER
  | SINGLE_NODE_SINGLE_WRITER
  | SINGLE_NODE_MULTI_WRITER.

Global Instance AccessMode_Mode_eq_dec : EqDecision AccessMode_Mode.
Proof. solve_decision. Defined.

(** A volume capability as its getters show it: whether [GetBlock()] is
    not nil, [GetMount().GetMountFlags()], which is empty without a mount,
    and [GetAccessMode().GetMode()], which is UNKNOWN without an access
    mode. *)
Record VolumeCapability := mkVolumeCapability {
  HasBlock : bool;
  MountFlags : list string;
  Mode : AccessMode_Mode
}.

Record CapacityRange := mkCapacityRange {
  RequiredBytes : Z;
  LimitBytes : Z
}.

Record ControllerExpandVolumeRequest := mkControllerExpandVolumeRequest {
  ce_VolumeId : string;
  ce_CapacityRange : option CapacityRange;
  ce_VolumeCapability : option VolumeCapability
}.

Record ControllerExpandVolumeResponse := mkControllerExpandVolumeResponse {
  CapacityBytes : Z;
  NodeExpansionRequired : bool
}.

Record ControllerPublishVolumeRequest := mkControllerPublishVolumeRequest {
  cp_VolumeId : string;
  cp_NodeId : string
}.

Record ControllerPublishVolumeResponse := mkControllerPublishVolumeResponse {
  PublishContext : gmap string string
}.

(** Modelled from the spec: [utils.Errorln] is not among the sources; like
    [utils.Errorf] it logs the message as an error and returns it. *)
Definition utils_Errorln (msg : string) : M goerror :=
  do log Error msg [] then ret (errors_New msg).

(** A debug line of the log: [level] has no constructor for it. *)
Definition log_Debugf (format : string) (args : list value) : M unit :=
  called "log.Debugf" (VString format :: args) None.

Section WithEnv.
Variable E : Env.
Variable L : Lib.

(** controller_helper.go *)
Definition isSupportExpandVolume (req : ControllerExpandVolumeRequest) (b : Backend)
  : M (bool * error) :=
  if bool_decide (Storage b = "fusionstorage-nas") || bool_decide (Storage b = "oceanstor-nas")
     || bool_decide (Storage b = "oceanstor-dtree") then
    do log_Debugf "Storage is [%s], support expand volume." [VString (Storage b)] then
    ret (true, None)
  else
  match ce_VolumeCapability req with
  | None =>
      let* e := utils_Errorln "Expand volume failed, req.GetVolumeCapability() is empty." in
      ret (false, Some e)
  | Some volumeCapability =>
      if bool_decide (Mode volumeCapability = MULTI_NODE_MULTI_WRITER)
         && negb (HasBlock volumeCapability) then
        let* e := utils_Errorf
                    ("The PVC %s is a " +:+ dq +:+ "lun" +:+ dq +:+ " type, volumeMode is "
                     +:+ dq +:+ "Filesystem" +:+ dq +:+ ", accessModes is "
                     +:+ dq +:+ "ReadWriteMany" +:+ dq +:+ ", can not support expand volume.")
                    [VString (ce_VolumeId req)] in
        ret (false, Some e)
      else if bool_decide (Mode volumeCapability = MULTI_NODE_READER_ONLY) then
        let* e := utils_Errorf
                    ("The PVC %s accessModes is " +:+ dq +:+ "ReadOnlyMany" +:+ dq
                     +:+ ", no need to expand volume.")
                    [VString (ce_VolumeId req)] in
        ret (false, Some e)
      else ret (true, None)
  end.

Definition ControllerExpandVolume (req : ControllerExpandVolumeRequest)
  : M (option ControllerExpandVolumeResponse * option Driver.status) :=
  let volumeId := ce_VolumeId req in
  if bool_decide (volumeId = EmptyString) then
    ret (None, Some (Driver.InvalidArgument, errors_New "no volume ID provided"))
  else
  do log Info "Start to controller expand volume %s" [VString volumeId] then
  match ce_CapacityRange req with
  | None => ret (None, Some (Driver.InvalidArgument, errors_New "no capacity range provided"))
  | Some range =>
      let minSize := RequiredBytes range in
      let maxSize := LimitBytes range in
      if (0 <? maxSize)%Z && (maxSize <? minSize)%Z then
        ret (None, Some (Driver.InvalidArgument,
                         errors_New "limitBytes is smaller than requiredBytes"))
      else
      let names := env_SplitVolumeId E volumeId in
      let backendName := names.1 in
      let volName := names.2 in
      let* backend := Driver.GetBackendWithFresh E backendName in
      match backend with
      | None =>
          let msg := fmt_Errorf "Backend %s doesn't exist" [VString backendName] in
          do log Error msg.1 msg.2 then ret (None, Some (Driver.Internal, msg))
      | Some backend =>
          let* supported := isSupportExpandVolume req backend in
          if negb supported.1 then
            match supported.2 with
            | Some err => ret (None, Some (Driver.InvalidArgument, err))
            | None => panic "invalid memory address or nil pointer dereference"
            end
          else
          let* r :=
            if bool_decide (Storage backend = DTree.DTreeStorage) then
              plugin_ExpandDTreeVolume (lib_PluginRest L backendName)
                (<["name" := VString volName]>
                   (<["parentname" := index (Parameters backend) "parentname"]>
                      (<["spacehardquota" := VInt minSize]> ∅)))
            else plugin_ExpandVolume (lib_PluginRest L backendName) volName minSize in
          match r with
          | (_, Some err) =>
              do log Error "Expand volume %s error: %v" [VString volumeId; VError err] then
              ret (None, Some (Driver.Internal, err))
          | (nodeExpansionRequired, None) =>
              do log Info "Volume %s is expanded to %d, nodeExpansionRequired %t"
                   [VString volName; VInt minSize; VBool nodeExpansionRequired] then
              ret (Some (mkControllerExpandVolumeResponse minSize nodeExpansionRequired),
                   None)
          end
      end
  end.

Definition ControllerPublishVolume (req : ControllerPublishVolumeRequest)
  : M (option ControllerPublishVolumeResponse * option Driver.status) :=
  let nodeId := cp_NodeId req in
  let volumeId := cp_VolumeId req in
  do log Info "Run controller publish volume %s to node %s"
       [VString volumeId; VString nodeId] then
  let names := env_SplitVolumeId E volumeId in
  let backendName := names.1 in
  let volName := names.2 in
  let* backend := Driver.GetBackendWithFresh E backendName in
  match backend with
  | None =>
      let msg := fmt_Errorf "Backend %s doesn't exist" [VString backendName] in
      do log Error msg.1 msg.2 then ret (None, Some (Driver.Internal, msg))
  | Some backend =>
      match env_Unmarshal_map E nodeId with
      | (_, Some err) =>
          do log Error "Unmarshal node info of %s error: %v" [VString nodeId; VError err]
          then ret (None, Some (Driver.Internal, err))
      | (parameters, None) =>
          let* r := plugin_AttachVolume (lib_PluginRest L backendName) volName parameters in
          match r with
          | (_, Some err) =>
              do log Error "controller publish volume %s to node %s error: %v"
                   [VString volName; VString nodeId; VError err] then
              ret (None, Some (Driver.Internal, err))
          | (mappingInfo, None) =>
              match lib_Marshal L mappingInfo with
              | (_, Some err) =>
                  do log Error "controller publish json marshal error: %v" [VError err] then
                  ret (None, Some (Driver.Internal, err))
              | (publishInfo, None) =>
                  do log Info "Volume %s is controller published to node %s"
                       [VString volumeId; VString nodeId] then
                  ret (Some (mkControllerPublishVolumeResponse
                               (<["publishInfo" := publishInfo]> ∅)), None)
              end
          end
      end
  end.

End WithEnv.

(** The registry is asked for a backend. *)
Definition is_GetBackend (e : event) : bool :=
  match e with EvGetBackend _ _ => true | _ => false end.

End Controller.

(* ================================================================== *)
(** ** controller_helper.go                                            *)
(* ================================================================== *)

Module Helper.

Import Controller.

Definition RWX : string := "ReadWriteMany".
Definition Block : string := "Block".
Definition FileSystem : string := "FileSystem".

Definition maxDescriptionLength : nat := 255.

Definition volumeTypeDTree : string := "dtree".
Definition volumeTypeFileSystem : string := "fs".
Definition volumeTypeLun : string := "lun".

Definition nfsProtocolMap : gmap string string :=
  (* nfsvers=3.0 is not support *)
  <["nfsvers=3" := "nfs3"]>
    (<["nfsvers=4" := "nfs4"]>
       (<["nfsvers=4.0" := "nfs4"]>
          (<["nfsvers=4.1" := "nfs41"]> ∅))).

(** The fields of [csi.CreateVolumeRequest] that are read below. *)
Record CreateVolumeRequest := mkCreateVolumeRequest {
  cv_Name : string;
  cv_CapacityRange : option CapacityRange;
  cv_VolumeCapabilities : list VolumeCapability
}.

(** The comma. *)
Definition comma : Ascii.ascii := Ascii.ascii_of_nat 44.

(** [strings.Split(s, ",")] *)
Fixpoint Split (s : string) : list string :=
  match s with
  | EmptyString => [EmptyString]
  | String c s' =>
      if Ascii.eqb c comma then EmptyString :: Split s'
      else match Split s' with
           | piece :: pieces => String c piece :: pieces
           | [] => [String c EmptyString]
           end
  end.

(** [v != nil] for an [interface{}] read from a map. *)
Definition not_nil (v : value) : bool :=
  match v with VNil => false | _ => true end.

(** A string built by [fmt.Sprintf] is kept as its format and arguments,
    like the message of an error; the empty string has the empty format. *)
Definition fmt_Sprintf (format : string) (args : list value) : goerror := (format, args).
Definition no_message : goerror := (EmptyString, []).

(** The volume mode and the access mode after the loop over the
    capabilities. *)
Definition modes (volumeCapabilities : list VolumeCapability) : string * string :=
  foldl (λ acc mode,
           (if HasBlock mode then Block else FileSystem,
            if bool_decide (Mode mode = MULTI_NODE_MULTI_WRITER) then RWX else acc.2))
    (EmptyString, EmptyString) volumeCapabilities.

(** [^[0-7][0-7][0-7]$] *)
Definition octal (c : Ascii.ascii) : bool :=
  (48 <=? Ascii.nat_of_ascii c)%nat && (Ascii.nat_of_ascii c <=? 55)%nat.

Definition FindStringSubmatch (s : string) : bool :=
  match s with
  | String a (String b (String c EmptyString)) => octal a && octal b && octal c
  | _ => false
  end.

(** The message is logged and returned as an error. *)
Definition refuse (format : string) (args : list value) : M error :=
  let errMsg := fmt_Sprintf format args in
  do log Error errMsg.1 errMsg.2 then ret (Some errMsg).

Section WithEnv.
Variable L : Lib.

(** [constants.Ext2], [constants.Ext3], [constants.Ext4] and
    [constants.Xfs] are not among the sources. *)
Variables Ext2 Ext3 Ext4 Xfs : string.

Fixpoint addNFSProtocol_range (mountFlag : string) (flags : list string)
    (parameters : gomap) : M (gomap * error) :=
  match flags with
  | [] => ret (parameters, None)
  | singleFlag :: flags =>
      let singleFlag := lib_TrimSpace L singleFlag in
      if String.prefix "nfsvers=" singleFlag then
        match nfsProtocolMap !! singleFlag with
        | None =>
            let* e := utils_Errorf "unsupported nfs protocol version [%s]."
                        [VString singleFlag] in
            ret (parameters, Some e)
        | Some value =>
            if not_nil (index parameters "nfsProtocol") then
              let* e := utils_Errorf "Duplicate nfs protocol [%s]." [VString mountFlag] in
              ret (parameters, Some e)
            else
              let parameters := <["nfsProtocol" := VString value]> parameters in
              do log Info "Add nfs protocol: %v" [index parameters "nfsProtocol"] then
              addNFSProtocol_range mountFlag flags parameters
        end
      else addNFSProtocol_range mountFlag flags parameters
  end.

(** The map comes back with the error, as it is written in place. *)
Definition addNFSProtocol (mountFlag : string) (parameters : gomap) : M (gomap * error) :=
  addNFSProtocol_range mountFlag (Split mountFlag) parameters.

Fixpoint processNFSProtocol_flags (mountFlags : list string) (parameters : gomap)
  : M (gomap * error) :=
  match mountFlags with
  | [] => ret (parameters, None)
  | mountFlag :: mountFlags =>
      let* r := addNFSProtocol mountFlag parameters in
      match r with
      | (parameters, Some err) => ret (parameters, Some err)
      | (parameters, None) => processNFSProtocol_flags mountFlags parameters
      end
  end.

Fixpoint processNFSProtocol_range (volumeCapabilities : list VolumeCapability)
    (parameters : gomap) : M (gomap * error) :=
  match volumeCapabilities with
  | [] => ret (parameters, None)
  | v :: volumeCapabilities =>
      let* r := processNFSProtocol_flags (MountFlags v) parameters in
      match r with
      | (parameters, Some err) => ret (parameters, Some err)
      | (parameters, None) =>
          if not_nil (index parameters "nfsProtocol") then ret (parameters, None)
          else processNFSProtocol_range volumeCapabilities parameters
      end
  end.

Definition processNFSProtocol (req : CreateVolumeRequest) (parameters : gomap)
  : M (gomap * error) :=
  processNFSProtocol_range (cv_VolumeCapabilities req) parameters.

Definition validateModeAndType (req : CreateVolumeRequest) (parameters : gomap) : goerror :=
  (* validate volumeMode and volumeType *)
  let volumeCapabilities := cv_VolumeCapabilities req in
  if bool_decide (length volumeCapabilities = 0%nat) then
    fmt_Sprintf "Volume Capabilities missing in request" []
  else
  let volumeMode := (modes volumeCapabilities).1 in
  let accessMode := (modes volumeCapabilities).2 in
  if bool_decide (volumeMode = Block)
     && (iface_eq_string (parameters !! "volumeType") volumeTypeFileSystem
         || iface_eq_string (parameters !! "volumeType") volumeTypeDTree) then
    fmt_Sprintf "VolumeMode is block but volumeType is %s. Please check the storage class"
      [index parameters "volumeType"]
  else if bool_decide (accessMode = RWX) && bool_decide (volumeMode = FileSystem)
          && iface_eq_string (parameters !! "volumeType") volumeTypeLun then
    fmt_Sprintf ("If volumeType in the sc.yaml file is set to " +:+ dq +:+ "lun" +:+ dq
                 +:+ " and volumeMode in the pvc.yaml file is set to "
                 +:+ dq +:+ "Filesystem" +:+ dq
                 +:+ ", accessModes in the pvc.yaml file cannot be set to "
                 +:+ dq +:+ "ReadWriteMany" +:+ dq +:+ ".") []
  else
  let fsType := lib_ToStringSafe L (index parameters "fsType") in
  if negb (bool_decide (fsType = EmptyString))
     && negb (lib_IsContain L fsType [Ext2; Ext3; Ext4; Xfs]) then
    fmt_Sprintf ("fsType %v is not correct, [%v, %v, %v, %v] are support."
                 +:+ " Please check the storage class ")
      [VString fsType; VString Ext2; VString Ext3; VString Ext4; VString Xfs]
  else no_message.

Definition checkFsPermission (parameters : gomap) : M error :=
  match as_string (parameters !! "fsPermission") with
  | None => ret None
  | Some fsPermission =>
      if negb (FindStringSubmatch fsPermission) then
        refuse "fsPermission [%s] in storageClass.yaml format must be [0-7][0-7][0-7]."
          [VString fsPermission]
      else ret None
  end.

Definition processDescription (parameters : gomap) : M (gomap * error) :=
  match as_string (parameters !! "description") with
  | None =>
      (* Set description default value *)
      ret (<["description" := VString "Created from Kubernetes CSI"]> parameters, None)
  | Some description =>
      if (maxDescriptionLength <? String.length description)%nat then
        let* err := refuse ("StorageClass parameter " +:+ dq +:+ "description" +:+ dq
                            +:+ ": [%v] invalid, the length exceeds %d.")
                      [VString description; VInt (Z.of_nat maxDescriptionLength)] in
        ret (parameters, err)
      else ret (parameters, None)
  end.

Definition checkReservedSnapshotSpaceRatio (parameters : gomap) : M error :=
  match as_string (parameters !! "reservedSnapshotSpaceRatio") with
  | None => ret None
  | Some reservedSnapshotSpaceRatioString =>
      match lib_Atoi L reservedSnapshotSpaceRatioString with
      | (_, Some _) =>
          refuse ("Convert [%s] to int failed, please check parameter "
                  +:+ "reservedSnapshotSpaceRatio in storageclass.")
            [VString reservedSnapshotSpaceRatioString]
      | (reservedSnapshotSpaceRatio, None) =>
          if (reservedSnapshotSpaceRatio <? 0)%Z || (50 <? reservedSnapshotSpaceRatio)%Z then
            refuse ("reservedSnapshotSpaceRatio: [%v] must in range [0, 50], please check "
                    +:+ "this parameter in storageclass.")
              [VString reservedSnapshotSpaceRatioString]
          else ret None
      end
  end.

Definition checkStorageClassParameters (parameters : gomap) : M error :=
  (* check fsPermission parameter in sc *)
  let* err := checkFsPermission parameters in
  match err with
  | Some e => ret (Some e)
  | None =>
      (* check reservedSnapshotSpaceRatio parameter in sc *)
      let* err := checkReservedSnapshotSpaceRatio parameters in
      match err with
      | Some e => ret (Some e)
      | None => ret None
      end
  end.

End WithEnv.

(** A piece of a mount option string that names an NFS version. *)
Definition is_version_flag (L : Lib) (singleFlag : string) : bool :=
  String.prefix "nfsvers=" (lib_TrimSpace L singleFlag).

(** [params'] is [params], or [params] with one of the three NFS protocols
    where it had none. *)
Definition protocol_added (params params' : gomap) : Prop :=
  params' = params
  ∨ (not_nil (index params "nfsProtocol") = false
     ∧ ∃ v, v ∈ ["nfs3"; "nfs4"; "nfs41"] ∧ params' = <["nfsProtocol" := VString v]> params).

End Helper.

(* ================================================================== *)
(** ** The volume package: what every volume type does before a create *)
(* ================================================================== *)

Module Volume.

Record Base := mkBase {
  cli : client;
  metroRemoteCli : option client;
  replicaRemoteCli : option client;
  product : string
}.

Section WithEnv.
Variable L : Lib.

Definition GetPoolByName (c : client) (name : string) : M (option gomap * error) :=
  let* tr := history in
  let r := lib_GetPoolByName L c name tr in
  do called "GetPoolByName" [VString name] r.2 then ret r.

(** An analyzer writes into the map it is given; here the map comes back
    with the error. *)
Definition getAllocType (p : Base) (params : gomap) : M (gomap * error) :=
  if match as_string (params !! "alloctype") with
     | Some v => bool_decide (v = "thick")
     | None => false
     end
  then ret (<["alloctype" := VInt 0]> params, None)
  else ret (<["alloctype" := VInt 1]> params, None).

Definition getCloneSpeed (p : Base) (params : gomap) : M (gomap * error) :=
  let cloneExist := bool_decide (is_Some (as_string (params !! "clonefrom"))) in
  let srcVolumeExist := bool_decide (is_Some (as_string (params !! "sourcevolumename"))) in
  let srcSnapshotExist :=
    bool_decide (is_Some (as_string (params !! "sourcesnapshotname"))) in
  if negb (cloneExist || srcVolumeExist || srcSnapshotExist) then ret (params, None)
  else
  match as_string (params !! "clonespeed") with
  | Some v =>
      if negb (bool_decide (v = EmptyString)) then
        let r := lib_Atoi L v in
        if negb (is_nil r.2) || (r.1 <? 1)%Z || (4 <? r.1)%Z then
          ret (params, Some (fmt_Errorf "error config %s for clonespeed" [VString v]))
        else ret (<["clonespeed" := VInt r.1]> params, None)
      else ret (<["clonespeed" := VInt 3]> params, None)
  | None => ret (<["clonespeed" := VInt 3]> params, None)
  end.

Definition getPoolID (p : Base) (params : gomap) : M (gomap * error) :=
  match as_string (params !! "storagepool") with
  | None => ret (params, Some (errors_New "must specify storage pool to create volume"))
  | Some poolName =>
      if bool_decide (poolName = EmptyString) then
        ret (params, Some (errors_New "must specify storage pool to create volume"))
      else
      let* r := GetPoolByName (cli p) poolName in
      match r with
      | (_, Some err) =>
          do log Error "Get storage pool %s info error: %v" [VString poolName; VError err]
          then ret (params, Some err)
      | (None, None) =>
          ret (params, Some (fmt_Errorf "Storage pool %s doesn't exist" [VString poolName]))
      | (Some pool, None) =>
          let* id := must_string (pool !! "ID") in
          ret (<["poolID" := VString id]> params, None)
      end
  end.

Definition getQoS (p : Base) (params : gomap) : M (gomap * error) :=
  match as_string (params !! "qos") with
  | Some v =>
      if negb (bool_decide (v = EmptyString)) then
        match lib_ExtractQoSParameters L (product p) v with
        | (_, Some err) =>
            let* e := utils_Errorf "qos parameter %s error: %v" [VString v; VError err] in
            ret (params, Some e)
        | (qos, None) =>
            match lib_ValidateQoSParameters L (product p) qos with
            | (_, Some err) =>
                let* e := utils_Errorf "validate qos parameters failed, error %v"
                            [VError err] in
                ret (params, Some e)
            | (validatedQos, None) => ret (<["qos" := VMap validatedQos]> params, None)
            end
        end
      else ret (params, None)
  | None => ret (params, None)
  end.

Fixpoint commonPreCreate_range (analyzers : list (gomap → M (gomap * error)))
    (params : gomap) : M (gomap * error) :=
  match analyzers with
  | [] => ret (params, None)
  | analyzer :: analyzers =>
      let* r := analyzer params in
      match r with
      | (params, Some err) => ret (params, Some err)
      | (params, None) => commonPreCreate_range analyzers params
      end
  end.

Definition commonPreCreate (p : Base) (params : gomap) : M (gomap * error) :=
  let analyzers := [getAllocType p; getCloneSpeed p; getPoolID p; getQoS p] in
  commonPreCreate_range analyzers params.

End WithEnv.

(** The array is asked for a pool. *)
Definition is_GetPoolByName (e : event) : bool :=
  match e with
  | EvPluginCall method _ _ => bool_decide (method = "GetPoolByName")
  | _ => false
  end.

End Volume.

(* ================================================================== *)
(** ** connector.go: the connector flags                               *)
(* ================================================================== *)

Module Options.

Definition dmMultiPath : string := "DM-multipath".
Definition hwUltraPath : string := "HW-UltraPath".
Definition hwUltraPathNVMe : string := "HW-UltraPath-NVMe".

Definition defaultCleanupTimeout : Z := 240.
Definition defaultScanVolumeTimeout : Z := 3.
Definition defaultConnectorThreads : Z := 4.

Definition minThreads : Z := 1.
Definition maxThreads : Z := 10.

Record connectorOptions := mkConnectorOptions {
  volumeUseMultiPath : bool;
  scsiMultiPathType : string;
  nvmeMultiPathType : string;
  deviceCleanupTimeout : Z;
  scanVolumeTimeout : Z;
  connectorThreads : Z;
  allPathOnline : bool
}.

Definition NewConnectorOptions : connectorOptions :=
  mkConnectorOptions true dmMultiPath hwUltraPathNVMe defaultCleanupTimeout
    defaultScanVolumeTimeout defaultConnectorThreads false.

Definition validateScsiMultiPathType (opt : connectorOptions) : error :=
  if bool_decide (scsiMultiPathType opt = dmMultiPath)
     || bool_decide (scsiMultiPathType opt = hwUltraPath)
     || bool_decide (scsiMultiPathType opt = hwUltraPathNVMe)
  then None
  else Some (fmt_Errorf "the scsi-multipath-type=%v configuration is incorrect"
               [VString (scsiMultiPathType opt)]).

Definition validateNvmeMultiPathType (opt : connectorOptions) : error :=
  if bool_decide (nvmeMultiPathType opt = hwUltraPathNVMe) then None
  else Some (fmt_Errorf "the nvme-multipath-type=%v configuration is incorrect"
               [VString (nvmeMultiPathType opt)]).

Definition validateScanVolumeTimeout (opt : connectorOptions) : error :=
  if (scanVolumeTimeout opt <? 1)%Z || (600 <? scanVolumeTimeout opt)%Z then
    Some (fmt_Errorf "the value of scanVolumeTimeout ranges from 1 to 600, current is: %d"
            [VInt (scanVolumeTimeout opt)])
  else None.

Definition validateConnectorThreads (opt : connectorOptions) : error :=
  if (connectorThreads opt <? minThreads)%Z || (maxThreads <? connectorThreads opt)%Z then
    Some (fmt_Errorf "the connector-threads %d should be %d~%d"
            [VInt (connectorThreads opt); VInt minThreads; VInt maxThreads])
  else None.

(** [errs = append(errs, err)] when [err] is not nil. *)
Definition collect (errs : list goerror) (err : error) : list goerror :=
  match err with Some e => errs ++ [e] | None => errs end.

Definition ValidateFlags (opt : connectorOptions) : list goerror :=
  let errs := [] in
  let errs := collect errs (validateScsiMultiPathType opt) in
  let errs := collect errs (validateNvmeMultiPathType opt) in
  let errs := collect errs (validateScanVolumeTimeout opt) in
  errs.

End Options.

(* ================================================================== *)
(** ** Fixtures for the rest                                           *)
(* ================================================================== *)

Module FixturesRest.

(** A plugin whose expansions succeed without a node expansion and whose
    attach returns the mapping of [Fixtures]. *)
Definition rest : PluginRest :=
  mkPluginRest (λ _ _, ret (false, None)) (λ _, ret (false, None))
    (λ _ _, ret (Some Fixtures.mapping, None)).

(** [strconv.Atoi] on the two strings the fixtures use. *)
Definition atoi (s : string) : Z * error :=
  if bool_decide (s = "2") then (2%Z, None)
  else if bool_decide (s = "9") then (9%Z, None)
  else (0%Z, Some (errors_New "invalid syntax")).

(** A library with four knobs: the product and the error of the base
    plugin's [init], the answer to every pool query, and the rest of the
    plugin of every backend.  The base plugin
    of a dtree backend reports QoS support, the NFS service has NFS 4
    switched on and says nothing of the other versions, blanks are not
    trimmed, and every map is marshalled to the same text. *)
Definition lib (product : string) (initErr : error) (pool : option gomap * error)
    (plugin : PluginRest) : Lib :=
  mkLib
    (λ _ _ _ c _, (product, c, initErr))
    (λ _ _ c vStore _, (c, vStore, initErr))
    (λ _ _, (Some (<["SupportQoS" := VBool true]> ∅), Some ∅, None))
    (λ _ _, (<["SupportNFS4" := true]> ∅, None))
    (λ _ _ _, pool)
    (λ _ _, (∅, None))
    (λ _ qos, (qos, None))
    atoi
    (λ s, s)
    (λ _, ("{}", None))
    (λ v, match v with VString s => s | _ => EmptyString end)
    (λ s l, bool_decide (s ∈ l))
    (λ _, plugin).

(** An environment with three knobs: the capabilities the base plugin of an
    oceanstor-san backend reports, the backend the registry holds under
    every name, and what every attacher call returns.  Every login goes
    through, every LUN is [Fixtures.plainLun], portals are verified as they
    are, and a volume id is split into the backend b1 and the id itself. *)
Definition env (caps : gomap) (backend : option Backend) (out : list value) : Env :=
  mkEnv
    (λ _ _, None) (λ _ _, None)
    (λ _ _ _, (Some Fixtures.plainLun, None)) (λ _ _ _, (None, None))
    (λ _ name, name)
    (λ _ _ _ _ _, out)
    (λ _, None)
    (λ _, (∅, None))
    (λ _ _, (Some caps, Some ∅, None))
    (λ param, (param, None))
    (λ _ _, None)
    (λ portals, (omap (λ v, as_string (Some v)) portals, None))
    (λ v, match v with VString s => (s, true) | _ => (EmptyString, false) end)
    (λ _ _ _, None)
    (λ name, name)
    (λ _ _, backend)
    (λ volumeId, ("b1", volumeId))
    (λ _, (EmptyString, EmptyString, EmptyString)).

Definition dtree : DTreeRest.OceanstorDTreePlugin :=
  DTreeRest.mkDTree (DTree.mkDTreePlugin 20 "192.168.0.9" "parent1") "4".

Definition iscsiParams : gomap :=
  <["protocol" := VString "iscsi"]> (<["portals" := VList [VString "192.168.0.2"]]> ∅).

Definition dtreeParams : gomap :=
  <["protocol" := VString "nfs"]>
    (<["portals" := VList [VString "192.168.0.9"]]>
       (<["parentname" := VString "parent1"]> ∅)).

End FixturesRest.

(* ================================================================== *)
(** ** Tactics                                                         *)
(* ================================================================== *)

(** Unfolds the monad and the small helpers, and computes. *)
Ltac crunch :=
  repeat (unfold bind, ret, panic, deref, store, emit, log, history, must_client,
            must_string, must_remote, metroRemoteOnline, ReflectCall, extend, extends in *;
          simpl in * ).

(** Closes [∃ evs, tr ++ ... = tr ++ evs ++ ...] for a short [evs]. *)
Ltac some_events :=
  rewrite <- ?app_assoc; simpl;
  first [ by (exists []) | by (eexists [_]) | by (eexists [_; _])
        | by (eexists [_; _; _]) | by (eexists [_; _; _; _]) ].

(** Closes [throwaway_only w evs] for a list [evs] that is written out. *)
Ltac throwaway :=
  unfold throwaway_only;
  repeat (apply Forall_cons_2; [simpl; first [by left | by right]|]);
  apply Forall_nil_2.

(** Closes one case of a validation: the world, the events, the verdict. *)
Ltac validate_case :=
  split; [reflexivity|]; split; [reflexivity|];
  split; [simpl; rewrite ?app_nil_r, <- ?app_assoc; reflexivity|];
  split; [throwaway | first [done | intros _; by eexists]].

(* ================================================================== *)
(** ** Basic facts                                                     *)
(* ================================================================== *)

Lemma bind_done {A B} (c : M A) (k : A → M B) w a w' :
  c w = (Done a, w') → bind c k w = k a w'.
Proof. intros H. unfold bind. by rewrite H. Qed.

Lemma bind_panic {A B} (c : M A) (k : A → M B) w msg w' :
  c w = (Panic msg, w') → bind c k w = (Panic msg, w').
Proof. intros H. unfold bind. by rewrite H. Qed.

Lemma deref_some w p pl : heap w !! p = Some pl → deref p w = (Done pl, w).
Proof. intros H. unfold deref. by rewrite H. Qed.

Lemma trace_extend w e : trace (extend w e) = trace w ++ [e].
Proof. done. Qed.

Lemma heap_extend w e : heap (extend w e) = heap w.
Proof. done. Qed.

Lemma topology_local w p pl remote : topology w p pl remote → heap w !! p = Some pl.
Proof. by destruct 1. Qed.

Lemma topology_extend w p pl remote e :
  topology w p pl remote → topology (extend w e) p pl remote.
Proof. destruct 1; econstructor; eauto. Qed.

Lemma metroRemoteOnline_eq w p pl remote :
  topology w p pl remote → metroRemoteOnline pl w = (Done (remote_online remote), w).
Proof.
  destruct 1 as [pl Hp Hr | pl q ql Hp Hr Hq]; unfold metroRemoteOnline; rewrite Hr; [done|].
  by rewrite (bind_done _ _ _ _ _ (deref_some _ _ _ Hq)).
Qed.

Lemma pickClients_eq w p pl remote :
  topology w p pl remote →
  pickClients p w
  = (Done (if storageOnline pl then Some (cli pl) else None,
           match remote with
           | Some remote => if storageOnline remote then Some (cli remote) else None
           | None => None
           end), w).
Proof.
  intros T. unfold pickClients.
  rewrite (bind_done _ _ _ _ _ (deref_some _ _ _ (topology_local _ _ _ _ T))).
  destruct T as [pl Hp Hr | pl q ql Hp Hr Hq]; rewrite Hr; [done|].
  unfold bind at 1. by rewrite (bind_done _ _ _ _ _ (deref_some _ _ _ Hq)).
Qed.

(** [getLunInfo] asks the consulted client, and no one when there is none. *)
Lemma getLunInfo_eq E w p pl remote lunName :
  topology w p pl remote →
  getLunInfo E p (if storageOnline pl then Some (cli pl) else None)
    match remote with
    | Some remote => if storageOnline remote then Some (cli remote) else None
    | None => None
    end lunName w
  = match consulted pl remote with
    | Some c => GetLunByName E c lunName w
    | None =>
        (Done (None, Some (errors_New "both the local and remote storage are not online")), w)
    end.
Proof.
  intros T. unfold getLunInfo, consulted.
  rewrite (bind_done _ _ _ _ _ (deref_some _ _ _ (topology_local _ _ _ _ T))).
  destruct (storageOnline pl); [done|].
  rewrite (bind_done _ _ _ _ _ (metroRemoteOnline_eq _ _ _ _ T)).
  destruct remote as [ql|]; simpl; [|done]. by destruct (storageOnline ql).
Qed.

Lemma GetLunByName_eq E c lunName w :
  GetLunByName E c lunName w
  = (Done (env_GetLunByName E c lunName (trace w)),
     extend w (EvGetLunByName c lunName (env_GetLunByName E c lunName (trace w)))).
Proof. done. Qed.

(** C9: AttachVolume is not idempotent on absence.  When the array that is
    consulted (the local one if the plugin is online, else the online metro
    remote) has no LUN of that name, AttachVolume returns the empty-lun
    error and no mapping, and no attacher is called. *)
Theorem AttachVolume_absent_lun E p name params w pl remote c :
  topology w p pl remote →
  consulted pl remote = Some c →
  env_GetLunByName E c (lunNameOf E pl name) (trace w) = (None, None) →
  AttachVolume E p name params w
  = (Done (None, Some (fmt_Errorf "Get empty lun info, lunName: %v"
                         [VString (lunNameOf E pl name)])),
     extend (extend w (EvGetLunByName c (lunNameOf E pl name) (None, None)))
       (EvLog Error "Get empty lun info, lunName: %v" [VString (lunNameOf E pl name)])).
Proof.
  intros T Hc Hl. unfold AttachVolume.
  rewrite (bind_done _ _ _ _ _ (pickClients_eq _ _ _ _ T)).
  rewrite (bind_done _ _ _ _ _ (deref_some _ _ _ (topology_local _ _ _ _ T))).
  cbn [fst snd]. fold (lunNameOf E pl name).
  unfold bind at 1. rewrite (getLunInfo_eq E _ _ _ _ _ T), Hc, GetLunByName_eq, Hl.
  done.
Qed.

Lemma AttachVolume_absent_lun_witness :
  AttachVolume (Fixtures.env None (None, None) (None, None) []) 0 "v1" ∅
    (Fixtures.world false true)
  = (Done (None, Some (fmt_Errorf "Get empty lun info, lunName: %v" [VString "v1"])),
     extend (extend (Fixtures.world false true) (EvGetLunByName 11 "v1" (None, None)))
       (EvLog Error "Get empty lun info, lunName: %v" [VString "v1"])).
Proof.
  apply (AttachVolume_absent_lun (Fixtures.env None (None, None) (None, None) [])
           0 "v1" ∅ (Fixtures.world false true) (Fixtures.san (Some 1) false 0 10)
           (Some (Fixtures.san None true 0 11)) 11).
  - by apply (topology_bonded _ _ _ 1).
  - reflexivity.
  - reflexivity.
Defined.

(* ================================================================== *)
(** ** HyperMetro dispatch                                             *)
(* ================================================================== *)

Lemma isHyperMetro_active E lun w rssStr rss :
  lun !! "HASRSSOBJECT" = Some (VString rssStr) →
  env_Unmarshal_strings E rssStr = Some rss →
  rss !! "HyperMetro" = Some "TRUE" →
  isHyperMetro E lun w = (Done true, w).
Proof. intros H1 H2 H3. unfold isHyperMetro. by rewrite H1; simpl; rewrite H2, H3. Qed.

Lemma isHyperMetro_malformed E lun w :
  malformed E lun →
  ∃ format args, isHyperMetro E lun w = (Done false, extend w (EvLog Error format args)).
Proof.
  unfold isHyperMetro.
  intros [H | v H Hv | rssStr H Hs]; rewrite H; simpl in *.
  - by eexists _, _.
  - destruct v; simplify_eq; by eexists _, _.
  - rewrite Hs. by eexists _, _.
Qed.

Lemma commonHandler_eq E w p q ql lun params method lunName :
  heap w !! q = Some ql →
  lun !! "NAME" = Some (VString lunName) →
  commonHandler E p q lun params method w
  = (Done (env_ReflectCall E (commonAttacherOf ql) method lunName params (trace w), None),
     extend w (EvReflectCall (commonAttacherOf ql) method lunName params
                 (env_ReflectCall E (commonAttacherOf ql) method lunName params (trace w)))).
Proof.
  intros Hq Hn. unfold commonHandler.
  rewrite (bind_done _ _ _ _ _ (deref_some _ _ _ Hq)), Hn. done.
Qed.

Lemma AttachVolume_offline E p name params w pl remote :
  topology w p pl remote → consulted pl remote = None →
  AttachVolume E p name params w
  = (Done (None, Some (errors_New "both the local and remote storage are not online")),
     extend w (EvLog Error "Get lun %s error: %v"
                 [VString (lunNameOf E pl name);
                  VError (errors_New "both the local and remote storage are not online")])).
Proof.
  intros T Hc. unfold AttachVolume.
  rewrite (bind_done _ _ _ _ _ (pickClients_eq _ _ _ _ T)).
  rewrite (bind_done _ _ _ _ _ (deref_some _ _ _ (topology_local _ _ _ _ T))).
  cbn [fst snd]. unfold bind at 1. by rewrite (getLunInfo_eq E _ _ _ _ _ T), Hc.
Qed.

Lemma DetachVolume_offline E p name params w pl remote :
  topology w p pl remote → consulted pl remote = None →
  DetachVolume E p name params w
  = (Done (Some (errors_New "both the local and remote storage are not online")),
     extend w (EvLog Error "Get lun %s error: %v"
                 [VString (lunNameOf E pl name);
                  VError (errors_New "both the local and remote storage are not online")])).
Proof.
  intros T Hc. unfold DetachVolume.
  rewrite (bind_done _ _ _ _ _ (pickClients_eq _ _ _ _ T)).
  rewrite (bind_done _ _ _ _ _ (deref_some _ _ _ (topology_local _ _ _ _ T))).
  cbn [fst snd]. unfold bind at 1. by rewrite (getLunInfo_eq E _ _ _ _ _ T), Hc.
Qed.

(** C1: the dispatch table for a volume in an active HyperMetro pair.  With
    the local array online and the metro remote bonded and online the
    request goes to the dual-array handler; with only the local array
    online, to the common handler on the plugin itself after a warning;
    with only the remote array online, to the common handler on the remote
    plugin after a warning.  With neither online AttachVolume and
    DetachVolume fail with the error that says so (its text in the code is
    "both the local and remote storage are not online"), the handler is not
    reached, and the handler on its own calls no attacher either. *)
Theorem metro_dispatch E p req w pl remote rssStr rss :
  topology w p pl remote →
  lun req !! "HASRSSOBJECT" = Some (VString rssStr) →
  env_Unmarshal_strings E rssStr = Some rss →
  rss !! "HyperMetro" = Some "TRUE" →
  (storageOnline pl = true → remote_online remote = true →
     handler E p req w = metroHandler E p req w)
  ∧ (storageOnline pl = true → remote_online remote = false →
     ∀ lunName, lun req !! "NAME" = Some (VString lunName) →
     handler E p req w
     = commonHandler E p p (lun req) (parameters req) (method req)
         (extend w (EvLog Warning
                      "the lun %s is hyperMetro, but just the local storage is online"
                      [VString lunName])))
  ∧ (storageOnline pl = false → remote_online remote = true →
     ∀ lunName, lun req !! "NAME" = Some (VString lunName) →
     ∃ q, metroRemotePlugin pl = Some q ∧
          handler E p req w
          = commonHandler E p q (lun req) (parameters req) (method req)
              (extend w (EvLog Warning
                           "the lun %s is hyperMetro, but just the remote storage is online"
                           [VString lunName])))
  ∧ (storageOnline pl = false → remote_online remote = false →
     handler E p req w = (Done ([], None), w)
     ∧ ∀ name params,
         let err := errors_New "both the local and remote storage are not online" in
         let w' := extend w (EvLog Error "Get lun %s error: %v"
                               [VString (lunNameOf E pl name); VError err]) in
         AttachVolume E p name params w = (Done (None, Some err), w')
         ∧ DetachVolume E p name params w = (Done (Some err), w')
         ∧ Forall (λ e, is_ReflectCall e = false) (drop (length (trace w)) (trace w'))).
Proof.
  intros T Hb Hu Hm.
  pose proof (topology_local _ _ _ _ T) as Hp.
  unfold handler.
  rewrite (bind_done _ _ _ _ _ (isHyperMetro_active E _ w _ _ Hb Hu Hm)). cbn [negb].
  rewrite (bind_done _ _ _ _ _ (deref_some _ _ _ Hp)).
  split; [|split; [|split]]; intros Hl Hr; rewrite Hl.
  - by rewrite (bind_done _ _ _ _ _ (metroRemoteOnline_eq _ _ _ _ T)), Hr.
  - intros lunName Hn.
    rewrite (bind_done _ _ _ _ _ (metroRemoteOnline_eq _ _ _ _ T)), Hr.
    unfold must_string. by rewrite Hn.
  - intros lunName Hn.
    rewrite (bind_done _ _ _ _ _ (eq_refl : ret false w = _)).
    rewrite (bind_done _ _ _ _ _ (metroRemoteOnline_eq _ _ _ _ T)), Hr.
    destruct T as [pl Hp' Hq | pl q ql Hp' Hq Hql]; [done|].
    exists q. split; [done|]. unfold must_string. by rewrite Hn, Hq.
  - rewrite (bind_done _ _ _ _ _ (eq_refl : ret false w = _)).
    rewrite (bind_done _ _ _ _ _ (metroRemoteOnline_eq _ _ _ _ T)), Hr.
    split; [done|]. intros name params.
    assert (Hc : consulted pl remote = None).
    { unfold consulted. rewrite Hl. by destruct remote as [ql|]; simpl in *; [rewrite Hr|]. }
    split; [by apply AttachVolume_offline with remote|].
    split; [by apply DetachVolume_offline with remote|].
    simpl. rewrite drop_app_length. by repeat constructor.
Qed.

Lemma metro_dispatch_witness :
  let E := Fixtures.env None (Some Fixtures.metroLun, None) (Some Fixtures.normalPair, None)
             [VMap Fixtures.mapping; VNil] in
  let req := mkHandlerRequest (Some 10) (Some 11) Fixtures.metroLun ∅ "ControllerAttach" in
  handler E 0 req (Fixtures.world true true) = metroHandler E 0 req (Fixtures.world true true).
Proof.
  intros E req.
  refine (proj1 (metro_dispatch E 0 req (Fixtures.world true true)
                   (Fixtures.san (Some 1) true 0 10) (Some (Fixtures.san None true 0 11))
                   Fixtures.metroBlob (<["HyperMetro" := "TRUE"]> ∅) _ _ _ _) _ _);
    try reflexivity.
  by apply (topology_bonded _ _ _ 1).
Defined.

(** The four rows of the table on one volume, run to the end: which
    attacher is called, and on which array. *)
Example dispatch_table_runs :
  let E := Fixtures.env None (Some Fixtures.metroLun, None) (Some Fixtures.normalPair, None)
             [VMap Fixtures.mapping; VNil] in
  let calls w := List.filter is_ReflectCall (trace (AttachVolume E 0 "v1" ∅ w).2) in
  let local := NewAttacher "DoradoV6" (Some 10) "iscsi" "csi" ["192.168.0.2"] ∅ in
  let remote := NewAttacher "DoradoV6" (Some 11) "iscsi" "csi" ["192.168.0.2"] ∅ in
  calls (Fixtures.world true true)
  = [EvReflectCall (NewMetroAttacher local remote "iscsi") "ControllerAttach" "pvc-v1" ∅
       [VMap Fixtures.mapping; VNil]]
  ∧ calls (Fixtures.world true false)
    = [EvReflectCall local "ControllerAttach" "pvc-v1" ∅ [VMap Fixtures.mapping; VNil]]
  ∧ calls (Fixtures.world false true)
    = [EvReflectCall remote "ControllerAttach" "pvc-v1" ∅ [VMap Fixtures.mapping; VNil]]
  ∧ calls (Fixtures.world false false) = [].
Proof. repeat split; vm_compute; reflexivity. Qed.

(** C4: a relationship blob that is missing, is not a string or does not
    parse makes the metro check answer false (an error is logged), and the
    request is dispatched to the common handler on the plugin itself, for
    every method and whatever the state of the two arrays; an attach then
    succeeds with the mapping the local attacher returns. *)
Theorem malformed_blob_fails_open E info w :
  malformed E info →
  ∃ format args,
    let w1 := extend w (EvLog Error format args) in
    isHyperMetro E info w = (Done false, w1)
    ∧ (∀ p localCli metroCli params method,
         handler E p (mkHandlerRequest localCli metroCli info params method) w
         = commonHandler E p p info params method w1)
    ∧ (∀ p pl remote name params lunName m,
         topology w p pl remote →
         storageOnline pl = true →
         env_GetLunByName E (cli pl) (lunNameOf E pl name) (trace w) = (Some info, None) →
         info !! "NAME" = Some (VString lunName) →
         (∀ tr, env_ReflectCall E (commonAttacherOf pl) "ControllerAttach" lunName params tr
                = [VMap m; VNil]) →
         (AttachVolume E p name params w).1 = Done (Some m, None)).
Proof.
  intros Hm.
  assert (Hall : ∀ w, ∃ format args,
             isHyperMetro E info w = (Done false, extend w (EvLog Error format args))).
  { intros w0. by apply isHyperMetro_malformed. }
  destruct (Hall w) as (format & args & Hw). exists format, args. cbn zeta.
  split; [done|]. split.
  - intros. unfold handler. cbn [lun]. by rewrite (bind_done _ _ _ _ _ Hw).
  - intros p pl remote name params lunName m T Hl Hg Hn Ho.
    unfold AttachVolume.
    rewrite (bind_done _ _ _ _ _ (pickClients_eq _ _ _ _ T)).
    rewrite (bind_done _ _ _ _ _ (deref_some _ _ _ (topology_local _ _ _ _ T))).
    cbn [fst snd]. fold (lunNameOf E pl name).
    unfold bind at 1. rewrite (getLunInfo_eq E _ _ _ _ _ T). unfold consulted.
    rewrite Hl, GetLunByName_eq, Hg.
    destruct (Hall (extend w (EvGetLunByName (cli pl) (lunNameOf E pl name) (Some info, None))))
      as (f' & a' & Hw').
    unfold handler, bind at 1. cbn [lun].
    rewrite (bind_done _ _ _ _ _ Hw'). cbn [negb parameters method].
    erewrite commonHandler_eq; [|exact (topology_local _ _ _ _ T)|done].
    by rewrite Ho.
Qed.

Lemma malformed_blob_fails_open_witness :
  ∃ format args,
    isHyperMetro (Fixtures.env None (None, None) (None, None) []) Fixtures.plainLun
      Fixtures.alone
    = (Done false, extend Fixtures.alone (EvLog Error format args)).
Proof.
  assert (Hm : malformed (Fixtures.env None (None, None) (None, None) []) Fixtures.plainLun)
    by (apply blob_missing; reflexivity).
  destruct (malformed_blob_fails_open _ _ Fixtures.alone Hm) as (format & args & H & _).
  by exists format, args.
Defined.

(* ================================================================== *)
(** ** The dual-array handler                                          *)
(* ================================================================== *)

Lemma iface_eq_string_true v s : iface_eq_string v s = true ↔ v = Some (VString s).
Proof.
  unfold iface_eq_string. destruct v as [[]|]; try (split; [done|intros; simplify_eq]).
  rewrite bool_decide_eq_true. split; [by intros ->|by intros [= ->]].
Qed.

Lemma iface_eq_string_false v s : iface_eq_string v s = false ↔ v ≠ Some (VString s).
Proof. rewrite <- iface_eq_string_true. by destruct (iface_eq_string v s). Qed.

(** C3: in the dual-array handler the HyperMetro pair of the volume is
    fetched before anything else happens.  When the array has no pair the
    handler returns an error with the pair fetch as its only event, so no
    attacher is called; a failed fetch is returned likewise.  When a pair
    exists the metro attacher is called exactly once, whatever the running
    status, preceded by at most one warning: for ControllerDetach and
    NodeUnstage there is no warning exactly when the status is normal ("1")
    or paused ("41"), for ControllerAttach exactly when it is normal. *)
Theorem metroHandler_checks_pair E p req w pl remote localLunID c :
  topology w p pl (Some remote) →
  lun req !! "ID" = Some (VString localLunID) →
  localCli req = Some c →
  let r := env_GetHyperMetroPairByLocalObjID E c localLunID (trace w) in
  let w1 := extend w (EvGetHyperMetroPair c localLunID r) in
  (∃ evs, trace (metroHandler E p req w).2
          = trace w ++ EvGetHyperMetroPair c localLunID r :: evs)
  ∧ (r = (None, None) →
     metroHandler E p req w
     = (Done ([], Some (fmt_Errorf "hypermetro pair of LUN %s doesn't exist"
                          [VString localLunID])), w1))
  ∧ (∀ found err, r = (found, Some err) →
     metroHandler E p req w = (Done ([], Some err), w1))
  ∧ (∀ pair_ lunName, r = (Some pair_, None) →
     lun req !! "NAME" = Some (VString lunName) →
     ∃ warnings,
       let w2 := extends w1 warnings in
       let a := metroAttacherOf pl remote (localCli req) (metroCli req) in
       let out := env_ReflectCall E a (method req) lunName (parameters req) (trace w2) in
       metroHandler E p req w
       = (Done (out, None),
          extend w2 (EvReflectCall a (method req) lunName (parameters req) out))
       ∧ (warnings = [] ∨ ∃ format, warnings = [EvLog Warning format [VString localLunID]])
       ∧ (method req = "ControllerDetach" ∨ method req = "NodeUnstage" →
          (warnings = [] ↔ pair_ !! "RUNNINGSTATUS" = Some (VString "1")
                           ∨ pair_ !! "RUNNINGSTATUS" = Some (VString "41")))
       ∧ (method req = "ControllerAttach" →
          (warnings = [] ↔ pair_ !! "RUNNINGSTATUS" = Some (VString "1")))).
Proof.
  intros T Hid Hc r w1.
  inversion T as [|? q ? Hp Hq Hql]; subst.
  assert (Hstart : ∀ k : string → client → option gomap * error → M (list value * error),
             bind (must_string (lun req !! "ID"))
               (λ localLunID, bind (must_client (localCli req))
                  (λ c, bind (GetHyperMetroPairByLocalObjID E c localLunID)
                          (k localLunID c))) w
             = k localLunID c r w1).
  { intros k. unfold must_string, must_client. by rewrite Hid, Hc. }
  unfold metroHandler. rewrite Hstart. clear Hstart.
  split; [|split; [|split]].
  - destruct r as [[pair_|] [err|]]; try by eexists.
    repeat case_match; crunch; rewrite ?Hp; simpl; rewrite ?Hq; simpl; rewrite ?Hql; simpl;
      repeat case_match; simplify_eq/=; rewrite <- ?app_assoc; by eexists.
  - by intros ->.
  - intros found err ->. by destruct found.
  - intros pair_ lunName -> Hn.
    set (st := pair_ !! "RUNNINGSTATUS").
    set (detachLike := bool_decide (method req = "ControllerDetach")
                       || bool_decide (method req = "NodeUnstage")).
    exists (if detachLike
            then if negb (iface_eq_string st "1") && negb (iface_eq_string st "41")
                 then [EvLog Warning "hypermetro pair status of LUN %s is not normal or pause"
                         [VString localLunID]]
                 else []
            else if negb (iface_eq_string st "1")
                 then [EvLog Warning "hypermetro pair status of LUN %s is not normal"
                         [VString localLunID]]
                 else []).
    cbn zeta. split; [|split; [|split]].
    + unfold hyperMetroPairRunningStatusNormal, hyperMetroPairRunningStatusPause.
      fold st detachLike.
      destruct detachLike, (iface_eq_string st "1"), (iface_eq_string st "41");
        crunch; rewrite Hp; simpl; rewrite Hq; simpl; rewrite Hql; simpl; rewrite Hn; simpl;
        rewrite ?app_nil_r; reflexivity.
    + destruct detachLike, (iface_eq_string st "1"), (iface_eq_string st "41"); eauto.
    + intros Hm.
      assert (detachLike = true) as ->.
      { unfold detachLike. destruct Hm as [-> | ->]; reflexivity. }
      rewrite <- !iface_eq_string_true.
      destruct (iface_eq_string st "1"), (iface_eq_string st "41"); simpl; intuition congruence.
    + intros Hm.
      assert (detachLike = false) as ->.
      { unfold detachLike. rewrite Hm. reflexivity. }
      rewrite <- !iface_eq_string_true.
      destruct (iface_eq_string st "1"); simpl; intuition congruence.
Qed.

Lemma metroHandler_checks_pair_witness :
  let E := Fixtures.env None (Some Fixtures.metroLun, None) (None, None) [] in
  let req := mkHandlerRequest (Some 10) (Some 11) Fixtures.metroLun ∅ "ControllerAttach" in
  metroHandler E 0 req (Fixtures.world true true)
  = (Done ([], Some (fmt_Errorf "hypermetro pair of LUN %s doesn't exist" [VString "7"])),
     extend (Fixtures.world true true) (EvGetHyperMetroPair 10 "7" (None, None))).
Proof.
  intros E req.
  assert (T : topology (Fixtures.world true true) 0 (Fixtures.san (Some 1) true 0 10)
                (Some (Fixtures.san None true 0 11)))
    by (by apply (topology_bonded _ _ _ 1)).
  apply (proj1 (proj2 (metroHandler_checks_pair E 0 req (Fixtures.world true true)
                         _ _ "7" 10 T eq_refl eq_refl))).
  reflexivity.
Defined.

Example metro_attach_syncing_pair_warns :
  let E := Fixtures.env None (Some Fixtures.metroLun, None) (Some Fixtures.syncingPair, None)
             [VMap Fixtures.mapping; VNil] in
  (AttachVolume E 0 "v1" ∅ (Fixtures.world true true)).1 = Done (Some Fixtures.mapping, None)
  ∧ List.filter (λ e, match e with EvLog Warning _ _ => true | _ => false end)
      (trace (AttachVolume E 0 "v1" ∅ (Fixtures.world true true)).2)
    = [EvLog Warning "hypermetro pair status of LUN %s is not normal" [VString "7"]].
Proof. split; vm_compute; reflexivity. Qed.

(* ================================================================== *)
(** ** What a handler hands back                                       *)
(* ================================================================== *)

Lemma commonHandler_out E p q info params method out w w' :
  commonHandler E p q info params method w = (Done (out, None), w') →
  ∃ a lunName, trace w' = trace w ++ [EvReflectCall a method lunName params out].
Proof.
  unfold commonHandler. crunch. intros H.
  repeat case_match; simplify_eq/=. by eexists _, _.
Qed.

Lemma metroHandler_out E p req out w w' :
  metroHandler E p req w = (Done (out, None), w') →
  ∃ a lunName evs,
    trace w' = trace w ++ evs ++ [EvReflectCall a (method req) lunName (parameters req) out].
Proof.
  unfold metroHandler, GetHyperMetroPairByLocalObjID. crunch. intros H.
  repeat case_match; simplify_eq/=; eexists _, _; some_events.
Qed.

Lemma deref_inv p w pl w' :
  deref p w = (Done pl, w') → w' = w ∧ heap w !! p = Some pl.
Proof. unfold deref. destruct (heap w !! p); by intros [= -> ->]. Qed.

Lemma metroRemoteOnline_inv pl w b w' :
  metroRemoteOnline pl w = (Done b, w') → w' = w.
Proof.
  unfold metroRemoteOnline, bind, deref, ret.
  destruct (metroRemotePlugin pl) as [q|]; [|by intros [= _ ->]].
  destruct (heap w !! q); by intros [= _ ->].
Qed.

Lemma must_string_inv v w s w' :
  must_string v w = (Done s, w') → w' = w ∧ v = Some (VString s).
Proof.
  unfold must_string, as_string, ret, panic.
  destruct v as [[]|]; try done. by intros [= -> ->].
Qed.

Lemma isHyperMetro_trace E info w r w' :
  isHyperMetro E info w = (r, w') → ∃ evs, trace w' = trace w ++ evs.
Proof.
  unfold isHyperMetro, log, emit, bind, ret. intros H.
  repeat case_match; simplify_eq/=;
    first [ exists []; by rewrite app_nil_r | by eexists ].
Qed.

Lemma handler_out E p req out w w' :
  handler E p req w = (Done (out, None), w') →
  out = [] ∨
  ∃ a lunName evs,
    trace w' = trace w ++ evs ++ [EvReflectCall a (method req) lunName (parameters req) out].
Proof.
  unfold handler. intros H.
  unfold bind at 1 in H. destruct (isHyperMetro E (lun req) w) as [[isMetro|] w1] eqn:Hi; [|done].
  apply isHyperMetro_trace in Hi as [evs1 Hw1].
  assert (Hcommon : ∀ q w2 evs2, trace w2 = trace w1 ++ evs2 →
            commonHandler E p q (lun req) (parameters req) (method req) w2
            = (Done (out, None), w') →
            ∃ a lunName evs,
              trace w' = trace w ++ evs
                         ++ [EvReflectCall a (method req) lunName (parameters req) out]).
  { intros q w2 evs2 Hw2 Hc. apply commonHandler_out in Hc as (a & lunName & Hc).
    exists a, lunName, (evs1 ++ evs2). by rewrite Hc, Hw2, Hw1, <- !app_assoc. }
  destruct isMetro; simpl in H; [|right; by apply (Hcommon p w1 []); [rewrite app_nil_r|]].
  unfold bind at 1 in H. destruct (deref p w1) as [[pl|] w2] eqn:Hd; [|done].
  apply deref_inv in Hd as [-> Hp].
  destruct (storageOnline pl).
  - unfold bind at 1 in H.
    destruct (metroRemoteOnline pl w1) as [[b|] w2] eqn:Hr; [|done].
    apply metroRemoteOnline_inv in Hr as ->.
    destruct b.
    + apply metroHandler_out in H as (a & lunName & evs & H). right.
      exists a, lunName, (evs1 ++ evs). by rewrite H, Hw1, <- !app_assoc.
    + unfold bind at 1 in H.
      destruct (must_string (lun req !! "NAME") w1) as [[lunName|] w2] eqn:Hn; [|done].
      apply must_string_inv in Hn as [-> Hn]. right.
      eapply (Hcommon p); [|exact H]. done.
  - unfold bind at 1 in H. simpl in H. unfold bind at 1 in H.
    destruct (metroRemoteOnline pl w1) as [[b|] w2] eqn:Hr; [|done].
    apply metroRemoteOnline_inv in Hr as ->.
    destruct b; [|left; unfold ret in H; by simplify_eq].
    unfold bind at 1 in H.
    destruct (must_string (lun req !! "NAME") w1) as [[lunName|] w2] eqn:Hn; [|done].
    apply must_string_inv in Hn as [-> Hn]. right.
    unfold bind at 1 in H. simpl in H.
    destruct (metroRemotePlugin pl) as [q|]; [|done].
    eapply (Hcommon q); [|exact H]. done.
Qed.

Lemma pickClients_inv p w clis w' : pickClients p w = (Done clis, w') → w' = w.
Proof.
  unfold pickClients, bind, deref, ret. intros H.
  repeat case_match; by simplify_eq/=.
Qed.

Lemma getLunInfo_trace E p loc rem lunName w r w' :
  getLunInfo E p loc rem lunName w = (r, w') → ∃ evs, trace w' = trace w ++ evs.
Proof.
  unfold getLunInfo, GetLunByName. crunch. intros H.
  repeat case_match; simplify_eq/=;
    first [ exists []; by rewrite app_nil_r | by eexists ].
Qed.

(** A two-element result with a nil error slot and a map in the first slot. *)
Lemma well_formed_result (out : list value) m :
  length out = reflectResultLength → nth 1 out VNil = VNil → nth 0 out VNil = VMap m →
  out = [VMap m; VNil].
Proof. destruct out as [|o0 [|o1 [|]]]; simpl; try done. by intros _ -> ->. Qed.

Lemma AttachVolume_success E p name params w res w' :
  AttachVolume E p name params w = (Done (res, None), w') →
  ∃ m a lunName evs,
    res = Some m ∧
    trace w' = trace w ++ evs
               ++ [EvReflectCall a "ControllerAttach" lunName params [VMap m; VNil]].
Proof.
  unfold AttachVolume. intros H.
  unfold bind at 1 in H. destruct (pickClients p w) as [[clis|] w1] eqn:Hk; [|done].
  apply pickClients_inv in Hk as ->.
  unfold bind at 1 in H. destruct (deref p w) as [[pl|] w1] eqn:Hd; [|done].
  apply deref_inv in Hd as [-> Hp].
  unfold bind at 1 in H.
  destruct (getLunInfo E p clis.1 clis.2 (env_MakeLunName E (cli pl) name) w)
    as [[[info err]|] w1] eqn:Hg; [|done].
  apply getLunInfo_trace in Hg as [evs1 Hw1].
  destruct info as [info|], err as [err|];
    try (unfold utils_Errorf in H; by crunch).
  unfold bind at 1 in H.
  destruct (handler E p _ w1) as [[[out herr]|] w2] eqn:Hh; [|done].
  destruct herr as [herr|]; [unfold utils_Errorf in H; by crunch|].
  apply handler_out in Hh. simpl in Hh.
  destruct (length out =? reflectResultLength)%nat eqn:Hlen; simpl in H;
    [|unfold utils_Errorf in H; by crunch].
  apply Nat.eqb_eq in Hlen.
  destruct (nth 1 out VNil) eqn:H1; try (by crunch).
  destruct (nth 0 out VNil) eqn:H0; try (by crunch).
  unfold ret in H. simplify_eq/=.
  rewrite (well_formed_result out m Hlen H1 H0) in *.
  destruct Hh as [|(a & lunName & evs & Hh)]; [done|].
  exists m, a, lunName, (evs1 ++ evs). split; [done|].
  by rewrite Hh, Hw1, <- !app_assoc.
Qed.

Lemma DetachVolume_success E p name params w w' :
  DetachVolume E p name params w = (Done None, w') →
  (∃ evs format args, trace w' = trace w ++ evs ++ [EvLog Warning format args])
  ∨ ∃ v a lunName evs,
      trace w' = trace w ++ evs
                 ++ [EvReflectCall a "ControllerDetach" lunName params [v; VNil]].
Proof.
  unfold DetachVolume. intros H.
  unfold bind at 1 in H. destruct (pickClients p w) as [[clis|] w1] eqn:Hk; [|done].
  apply pickClients_inv in Hk as ->.
  unfold bind at 1 in H. destruct (deref p w) as [[pl|] w1] eqn:Hd; [|done].
  apply deref_inv in Hd as [-> Hp].
  unfold bind at 1 in H.
  destruct (getLunInfo E p clis.1 clis.2 (env_MakeLunName E (cli pl) name) w)
    as [[[info err]|] w1] eqn:Hg; [|done].
  apply getLunInfo_trace in Hg as [evs1 Hw1].
  destruct info as [info|], err as [err|]; try (by crunch).
  2:{ left. crunch. simplify_eq/=. rewrite Hw1, <- app_assoc. by eexists _, _, _. }
  unfold bind at 1 in H.
  destruct (handler E p _ w1) as [[[out herr]|] w2] eqn:Hh; [|done].
  destruct herr as [herr|]; [by crunch|].
  apply handler_out in Hh. simpl in Hh.
  destruct (length out =? reflectResultLength)%nat eqn:Hlen; simpl in H; [|by crunch].
  apply Nat.eqb_eq in Hlen.
  destruct (nth 1 out VNil) eqn:H1; try (by crunch).
  unfold ret in H. simplify_eq/=.
  destruct out as [|v [|o1 [|]]]; simplify_eq/=.
  destruct Hh as [|(a & lunName & evs & Hh)]; [done|].
  right. exists v, a, lunName, (evs1 ++ evs).
  by rewrite Hh, Hw1, <- !app_assoc.
Qed.

(* ================================================================== *)
(** ** Validation of the handler's result                              *)
(* ================================================================== *)

(** Up to the call of the handler, an operation on an existing LUN. *)
Lemma AttachVolume_reaches_handler E p name params w pl remote c info :
  topology w p pl remote →
  consulted pl remote = Some c →
  env_GetLunByName E c (lunNameOf E pl name) (trace w) = (Some info, None) →
  AttachVolume E p name params w
  = bind (handler E p (requestOf pl remote info params "ControllerAttach"))
      (λ r, match r with
            | (_, Some err) =>
                bind (utils_Errorf "Storage connect for volume %s error: %v"
                        [VString (lunNameOf E pl name); VError err])
                  (λ e, ret (None, Some e))
            | (out, None) =>
                if negb (length out =? reflectResultLength)%nat then
                  bind (utils_Errorf "attach volume %s error" [VString (lunNameOf E pl name)])
                    (λ e, ret (None, Some e))
                else
                  match nth 1 out VNil with
                  | VNil =>
                      match as_map (Some (nth 0 out VNil)) with
                      | Some connectInfo => ret (Some connectInfo, None)
                      | None =>
                          ret (None, Some (fmt_Errorf "controller attach volume %s error"
                                             [VString (lunNameOf E pl name)]))
                      end
                  | VErr format args => ret (None, Some (format, args))
                  | _ => panic "interface conversion: interface {} is not error"
                  end
            end)
      (extend w (EvGetLunByName c (lunNameOf E pl name) (Some info, None))).
Proof.
  intros T Hc Hl. unfold AttachVolume.
  rewrite (bind_done _ _ _ _ _ (pickClients_eq _ _ _ _ T)).
  rewrite (bind_done _ _ _ _ _ (deref_some _ _ _ (topology_local _ _ _ _ T))).
  cbn [fst snd]. fold (lunNameOf E pl name).
  unfold bind at 1. by rewrite (getLunInfo_eq E _ _ _ _ _ T), Hc, GetLunByName_eq, Hl.
Qed.

Lemma DetachVolume_reaches_handler E p name params w pl remote c info :
  topology w p pl remote →
  consulted pl remote = Some c →
  env_GetLunByName E c (lunNameOf E pl name) (trace w) = (Some info, None) →
  DetachVolume E p name params w
  = bind (handler E p (requestOf pl remote info params "ControllerDetach"))
      (λ r, match r with
            | (_, Some err) => ret (Some err)
            | (out, None) =>
                if negb (length out =? reflectResultLength)%nat then
                  ret (Some (fmt_Errorf "detach volume %s error"
                               [VString (lunNameOf E pl name)]))
                else
                  match nth 1 out VNil with
                  | VNil => ret None
                  | VErr format args => ret (Some (format, args))
                  | _ => panic "interface conversion: interface {} is not error"
                  end
            end)
      (extend w (EvGetLunByName c (lunNameOf E pl name) (Some info, None))).
Proof.
  intros T Hc Hl. unfold DetachVolume.
  rewrite (bind_done _ _ _ _ _ (pickClients_eq _ _ _ _ T)).
  rewrite (bind_done _ _ _ _ _ (deref_some _ _ _ (topology_local _ _ _ _ T))).
  cbn [fst snd]. fold (lunNameOf E pl name).
  unfold bind at 1. by rewrite (getLunInfo_eq E _ _ _ _ _ T), Hc, GetLunByName_eq, Hl.
Qed.

(** C8, as the code has it: AttachVolume succeeds only on a result of two
    elements with a nil error slot and a map in the mapping slot (the map
    may be empty); DetachVolume succeeds only when the LUN is absent or on a
    result of two elements with a nil error slot, and does not look at the
    first slot.  For a LUN that exists and a handler that hands back [out]
    without an error of its own: a result of another length is an error in
    both operations, an error in the error slot is returned by both, and a
    first slot that is not a map is an error for AttachVolume. *)
Theorem strategy_result_validated E p name params w pl remote c info :
  topology w p pl remote →
  consulted pl remote = Some c →
  env_GetLunByName E c (lunNameOf E pl name) (trace w) = (Some info, None) →
  let lunName := lunNameOf E pl name in
  let w1 := extend w (EvGetLunByName c lunName (Some info, None)) in
  (∀ res w', AttachVolume E p name params w = (Done (res, None), w') →
     ∃ m a n evs,
       res = Some m ∧
       trace w' = trace w ++ evs ++ [EvReflectCall a "ControllerAttach" n params [VMap m; VNil]])
  ∧ (∀ w', DetachVolume E p name params w = (Done None, w') →
     ∃ v a n evs,
       trace w' = trace w ++ evs ++ [EvReflectCall a "ControllerDetach" n params [v; VNil]])
  ∧ (∀ out, (handler E p (requestOf pl remote info params "ControllerAttach") w1).1
            = Done (out, None) →
       (length out ≠ 2 →
        (AttachVolume E p name params w).1
        = Done (None, Some (fmt_Errorf "attach volume %s error" [VString lunName])))
       ∧ (∀ v format args, out = [v; VErr format args] →
          (AttachVolume E p name params w).1 = Done (None, Some (format, args)))
       ∧ (∀ v, out = [v; VNil] → as_map (Some v) = None →
          (AttachVolume E p name params w).1
          = Done (None, Some (fmt_Errorf "controller attach volume %s error"
                                [VString lunName])))
       ∧ (∀ m, out = [VMap m; VNil] →
          (AttachVolume E p name params w).1 = Done (Some m, None)))
  ∧ (∀ out, (handler E p (requestOf pl remote info params "ControllerDetach") w1).1
            = Done (out, None) →
       (length out ≠ 2 →
        (DetachVolume E p name params w).1
        = Done (Some (fmt_Errorf "detach volume %s error" [VString lunName])))
       ∧ (∀ v format args, out = [v; VErr format args] →
          (DetachVolume E p name params w).1 = Done (Some (format, args)))
       ∧ (∀ v, out = [v; VNil] → (DetachVolume E p name params w).1 = Done None)).
Proof.
  intros T Hc Hl lunName w1.
  split; [intros res w'; apply AttachVolume_success|].
  split.
  { intros w' H. pose proof H as H'. apply DetachVolume_success in H' as [H'|H']; [|done].
    exfalso. rewrite (DetachVolume_reaches_handler _ _ _ _ _ _ _ _ _ T Hc Hl) in H.
    unfold bind in H. destruct (handler E p _ _) as [[[out [herr|]]|] w2] eqn:Hh;
      try (by crunch).
    destruct H' as (evs & format & args & H').
    apply handler_out in Hh. simpl in Hh.
    destruct (length out =? reflectResultLength)%nat eqn:Hlen; simpl in H; [|by crunch].
    apply Nat.eqb_eq in Hlen.
    destruct Hh as [->|(a & n & evs' & Hh)]; [done|].
    destruct (nth 1 out VNil); try (by crunch). unfold ret in H. simplify_eq.
    rewrite Hh, !app_assoc in H'. by apply app_inj_tail in H' as [_ ?]. }
  split.
  - intros out Hh.
    rewrite (AttachVolume_reaches_handler _ _ _ _ _ _ _ _ _ T Hc Hl).
    fold lunName w1.
    unfold bind. destruct (handler E p _ w1) as [r w2]. simpl in Hh. subst r.
    split; [|split; [|split]].
    + intros Hlen. apply Nat.eqb_neq in Hlen. unfold reflectResultLength. by rewrite Hlen.
    + by intros v format args ->.
    + intros v -> Hv. simpl in *. by rewrite Hv.
    + by intros m ->.
  - intros out Hh.
    rewrite (DetachVolume_reaches_handler _ _ _ _ _ _ _ _ _ T Hc Hl).
    fold lunName w1.
    unfold bind. destruct (handler E p _ w1) as [r w2]. simpl in Hh. subst r.
    split; [|split].
    + intros Hlen. apply Nat.eqb_neq in Hlen. unfold reflectResultLength. by rewrite Hlen.
    + by intros v format args ->.
    + by intros v ->.
Qed.

Lemma strategy_result_validated_witness :
  (AttachVolume (Fixtures.env None (Some Fixtures.plainLun, None) (None, None)
                   [VMap Fixtures.mapping; VNil]) 0 "v2" ∅ Fixtures.alone).1
  = Done (Some Fixtures.mapping, None).
Proof.
  destruct (strategy_result_validated
              (Fixtures.env None (Some Fixtures.plainLun, None) (None, None)
                 [VMap Fixtures.mapping; VNil])
              0 "v2" ∅ Fixtures.alone (Fixtures.san None true 0 10) None 10 Fixtures.plainLun)
    as (_ & _ & Ha & _); [by constructor | reflexivity | reflexivity |].
  destruct (Ha [VMap Fixtures.mapping; VNil]) as (_ & _ & _ & Hok);
    [vm_compute; reflexivity|].
  exact (Hok Fixtures.mapping eq_refl).
Defined.

(** C8, as the claim has it, fails for DetachVolume: the attacher's detach
    hands back a string in the first slot and nil in the error slot; the
    first slot is no map, and DetachVolume returns nil. *)
Lemma detach_ignores_mapping_slot :
  let E := Fixtures.env None (Some Fixtures.plainLun, None) (None, None)
             [VString "6001"; VNil] in
  (handler E 0 (requestOf (Fixtures.san None true 0 10) None Fixtures.plainLun ∅
                  "ControllerDetach")
     (extend Fixtures.alone (EvGetLunByName 10 "v2" (Some Fixtures.plainLun, None)))).1
  = Done ([VString "6001"; VNil], None)
  ∧ as_map (Some (VString "6001")) = None
  ∧ (DetachVolume E 0 "v2" ∅ Fixtures.alone).1 = Done None.
Proof. vm_compute. done. Qed.

(* ================================================================== *)
(** ** Teardown                                                        *)
(* ================================================================== *)

(** C5: teardown is idempotent.  DetachVolume on a name for which the
    consulted array has no LUN logs a warning and returns nil without
    calling an attacher.  DeleteVolume, ControllerUnpublishVolume and
    DeleteSnapshot (whose request carries a snapshot id, which is checked
    before anything else) answer a backend the registry does not know with
    a success response, after a warning, and call no plugin. *)
Theorem teardown_idempotent E :
  (∀ p name params w pl remote c,
     topology w p pl remote →
     consulted pl remote = Some c →
     env_GetLunByName E c (lunNameOf E pl name) (trace w) = (None, None) →
     DetachVolume E p name params w
     = (Done None,
        extend (extend w (EvGetLunByName c (lunNameOf E pl name) (None, None)))
          (EvLog Warning "LUN %s to detach doesn't exist" [VString (lunNameOf E pl name)])))
  ∧ (∀ req w,
       let backendName := (env_SplitVolumeId E (Driver.dv_VolumeId req)).1 in
       (∀ tr, env_GetBackendWithFresh E backendName tr = None) →
       ∃ format,
         Driver.DeleteVolume E req w
         = (Done (Some Driver.mkDeleteVolumeResponse, None),
            extends w [EvLog Info "Start to delete volume %s" [VString (Driver.dv_VolumeId req)];
                       EvGetBackend backendName false;
                       EvLog Warning format [VString backendName]]))
  ∧ (∀ req w,
       let names := env_SplitVolumeId E (Driver.cu_VolumeId req) in
       (∀ tr, env_GetBackendWithFresh E names.1 tr = None) →
       ∃ format,
         Driver.ControllerUnpublishVolume E req w
         = (Done (Some Driver.mkControllerUnpublishVolumeResponse, None),
            extends w [EvLog Info "Start to controller unpublish volume %s from node %s"
                         [VString (Driver.cu_VolumeId req); VString (Driver.cu_NodeId req)];
                       EvGetBackend names.1 false;
                       EvLog Warning format [VString names.1; VString names.2]]))
  ∧ (∀ req w,
       let backendName := (env_SplitSnapshotId E (Driver.ds_SnapshotId req)).1.1 in
       Driver.ds_SnapshotId req ≠ EmptyString →
       (∀ tr, env_GetBackendWithFresh E backendName tr = None) →
       ∃ format,
         Driver.DeleteSnapshot E req w
         = (Done (Some Driver.mkDeleteSnapshotResponse, None),
            extends w [EvLog Info "Start to Delete snapshot %s."
                         [VString (Driver.ds_SnapshotId req)];
                       EvGetBackend backendName false;
                       EvLog Warning format [VString backendName]])).
Proof.
  split; [|split; [|split]].
  - intros p name params w pl remote c T Hc Hl. unfold DetachVolume.
    rewrite (bind_done _ _ _ _ _ (pickClients_eq _ _ _ _ T)).
    rewrite (bind_done _ _ _ _ _ (deref_some _ _ _ (topology_local _ _ _ _ T))).
    cbn [fst snd]. fold (lunNameOf E pl name).
    unfold bind at 1. by rewrite (getLunInfo_eq E _ _ _ _ _ T), Hc, GetLunByName_eq, Hl.
  - intros req w backendName Hb. eexists.
    unfold Driver.DeleteVolume, Driver.GetBackendWithFresh. crunch.
    fold backendName. rewrite Hb. simpl. by rewrite <- !app_assoc.
  - intros req w names Hb. eexists.
    unfold Driver.ControllerUnpublishVolume, Driver.GetBackendWithFresh. crunch.
    fold names. rewrite Hb. simpl. by rewrite <- !app_assoc.
  - intros req w backendName Hid Hb. eexists.
    unfold Driver.DeleteSnapshot, Driver.GetBackendWithFresh.
    rewrite bool_decide_eq_false_2 by done. crunch.
    fold backendName. rewrite Hb. simpl. by rewrite <- !app_assoc.
Qed.

Lemma teardown_idempotent_witness :
  (Driver.DeleteSnapshot (Fixtures.env None (None, None) (None, None) [])
     (Driver.mkDeleteSnapshotRequest "backend1.7.snap") Fixtures.alone).1
  = Done (Some Driver.mkDeleteSnapshotResponse, None).
Proof.
  destruct (teardown_idempotent (Fixtures.env None (None, None) (None, None) []))
    as (_ & _ & _ & H).
  destruct (H (Driver.mkDeleteSnapshotRequest "backend1.7.snap") Fixtures.alone)
    as [format ->]; [done | reflexivity | reflexivity].
Defined.

(** The driver on top of the plugin: unpublishing a volume whose LUN is gone
    from the array of an online oceanstor-san backend is a success. *)
Example unpublish_absent_lun :
  let E0 := Fixtures.env None (None, None) (None, None) [] in
  let E := mkEnv (env_Login E0) (env_ValidateLogin E0) (env_GetLunByName E0)
             (env_GetHyperMetroPairByLocalObjID E0) (env_MakeLunName E0)
             (env_ReflectCall E0) (env_Unmarshal_strings E0) (env_Unmarshal_map E0)
             (env_baseUpdateBackendCapabilities E0) (env_getNewClientConfig E0)
             (env_NewClient_error E0) (env_VerifyIscsiPortals E0) (env_ToStringWithFlag E0)
             (env_volume E0) (env_GetSnapshotName E0)
             (λ _ _, Some (mkBackend "oceanstor-san" ∅ (SanPlugin E0 0)))
             (λ _, ("backend1", "v1")) (env_SplitSnapshotId E0) in
  (Driver.ControllerUnpublishVolume E
     (Driver.mkControllerUnpublishVolumeRequest "backend1.v1" "{}") Fixtures.alone).1
  = Done (Some Driver.mkControllerUnpublishVolumeResponse, None).
Proof. vm_compute. reflexivity. Qed.

(* ================================================================== *)
(** ** Capability refresh                                              *)
(* ================================================================== *)

Lemma updateHyperMetroCapability_eq p caps w pl :
  heap w !! p = Some pl →
  (∀ q, metroRemotePlugin pl = Some q → is_Some (heap w !! q)) →
  updateHyperMetroCapability p (Some caps) w
  = (Done (Some match caps !! "SupportMetro" with
                | None => caps
                | Some v =>
                    if iface_eq_false v then caps
                    else <["SupportMetro" := VBool (metro_ready w p)]> caps
                end), w).
Proof.
  intros Hp Hq. unfold updateHyperMetroCapability, metro_ready. simpl.
  destruct (caps !! "SupportMetro") as [v|]; [|done].
  destruct (iface_eq_false v); [done|].
  rewrite (bind_done _ _ _ _ _ (deref_some _ _ _ Hp)), Hp.
  destruct (metroRemotePlugin pl) as [q|]; [|done].
  destruct (Hq q eq_refl) as [ql Hql]. rewrite Hql.
  destruct (storageOnline pl); [|done].
  by rewrite (bind_done _ _ _ _ _ (bind_done _ _ _ _ _ (deref_some _ _ _ Hql))).
Qed.

Lemma updateReplicaCapability_eq p caps w pl :
  heap w !! p = Some pl →
  ∃ caps', updateReplicaCapability p (Some caps) w = (Done (Some caps'), w)
           ∧ caps' !! "SupportMetro" = caps !! "SupportMetro".
Proof.
  intros Hp. unfold updateReplicaCapability. simpl.
  destruct (caps !! "SupportReplication") as [v|]; [|by exists caps].
  destruct (iface_eq_false v); [by exists caps|].
  rewrite (bind_done _ _ _ _ _ (deref_some _ _ _ Hp)).
  eexists. split; [done|]. by rewrite lookup_insert_ne.
Qed.

(** C6, as the code has it: a successful UpdateBackendCapabilities first
    sets the plugin's own online flag, whatever it was.  When the array
    reports metro support, SupportMetro is then the conjunction of "a metro
    remote is bonded", the plugin's flag and the remote's flag as the call
    leaves them; so, for a remote other than the plugin itself, it is the
    remote's flag at the time of the call.  When the array reports no metro
    support the entry is left as the array gave it. *)
Theorem metro_capability_report E p w pl remote caps specs :
  topology w p pl remote →
  env_baseUpdateBackendCapabilities E p (trace w) = (Some caps, specs, None) →
  ∃ caps',
    let w' := mkWorld (<[p := set_storageOnline true pl]> (heap w)) (nextClient w)
                (trace w ++ [EvBaseCapabilities p (Some caps, specs, None)]) in
    UpdateBackendCapabilities E p w = (Done (Some caps', specs, None), w')
    ∧ (caps !! "SupportMetro" = Some (VBool true) →
       caps' !! "SupportMetro" = Some (VBool (metro_ready w' p))
       ∧ (∀ q, metroRemotePlugin pl = Some q → q ≠ p →
          caps' !! "SupportMetro" = Some (VBool (remote_online remote)))
       ∧ (metroRemotePlugin pl = None → caps' !! "SupportMetro" = Some (VBool false)))
    ∧ (caps !! "SupportMetro" = None ∨ caps !! "SupportMetro" = Some (VBool false) →
       caps' !! "SupportMetro" = caps !! "SupportMetro").
Proof.
  intros T Hb.
  pose proof (topology_local _ _ _ _ T) as Hp.
  set (w' := mkWorld (<[p := set_storageOnline true pl]> (heap w)) (nextClient w)
               (trace w ++ [EvBaseCapabilities p (Some caps, specs, None)])).
  assert (Hp' : heap w' !! p = Some (set_storageOnline true pl)) by apply lookup_insert_eq.
  assert (Hq' : ∀ q, metroRemotePlugin (set_storageOnline true pl) = Some q →
                     is_Some (heap w' !! q)).
  { intros q Hq. simpl in *. destruct (decide (q = p)) as [->|Hne]; [by rewrite Hp'|].
    rewrite lookup_insert_ne by done.
    destruct T as [? ? Hr|? q' ql ? Hr Hql]; simplify_eq; by rewrite Hql. }
  pose proof (updateHyperMetroCapability_eq p caps w' _ Hp' Hq') as H1.
  destruct (updateReplicaCapability_eq p
              match caps !! "SupportMetro" with
              | None => caps
              | Some v =>
                  if iface_eq_false v then caps
                  else <["SupportMetro" := VBool (metro_ready w' p)]> caps
              end w' _ Hp') as (caps' & H2 & Hk).
  exists caps'. cbn zeta. fold w'. split; [|split].
  - unfold UpdateBackendCapabilities, base_UpdateBackendCapabilities.
    unfold bind at 1. unfold bind at 1. unfold history at 1.
    rewrite Hb. unfold bind at 1. unfold emit at 1. unfold ret at 1.
    rewrite (bind_done _ _ (extend w _) pl (extend w _)) by (by apply deref_some).
    unfold bind at 1. unfold store at 1. fold w'.
    by rewrite (bind_done _ _ _ _ _ H1), (bind_done _ _ _ _ _ H2).
  - intros Hs. rewrite Hk, Hs. simpl. rewrite lookup_insert_eq.
    split; [done|]. split.
    + intros q Hq Hne. unfold metro_ready. rewrite Hp'. simpl. rewrite Hq.
      subst w'. simpl. rewrite lookup_insert_ne by done.
      destruct T as [? ? Hr|? q' ql ? Hr Hql]; simplify_eq. by rewrite Hql.
    + intros Hr. unfold metro_ready. rewrite Hp'. simpl. by rewrite Hr.
  - intros [Hs|Hs]; by rewrite Hk, Hs.
Qed.

Lemma metro_capability_report_witness :
  ∃ caps',
    (UpdateBackendCapabilities (Fixtures.env None (None, None) (None, None) []) 0
       (Fixtures.world false false)).1
    = Done (Some caps', Some ∅, None)
    ∧ caps' !! "SupportMetro" = Some (VBool false).
Proof.
  destruct (metro_capability_report (Fixtures.env None (None, None) (None, None) []) 0
              (Fixtures.world false false) (Fixtures.san (Some 1) false 0 10)
              (Some (Fixtures.san None false 0 11))
              (<["SupportMetro" := VBool true]> (<["SupportThin" := VBool true]> ∅))
              (Some ∅))
    as (caps' & Hrun & Hon & _); [by apply (topology_bonded _ _ _ 1) | reflexivity |].
  exists caps'. split; [by rewrite Hrun|].
  destruct (Hon eq_refl) as (_ & Hremote & _). by apply (Hremote 1).
Defined.

(** C6, as the claim has it, fails for the local flag: the remote array
    being online, the report says SupportMetro whether the plugin's own flag
    was clear or set when the call was made, and the two reports are the
    same. *)
Lemma local_flag_does_not_change_report :
  let E := Fixtures.env None (None, None) (None, None) [] in
  let report w := (UpdateBackendCapabilities E 0 w).1 in
  storageOnline <$> heap (Fixtures.world false true) !! 0 = Some false
  ∧ storageOnline <$> heap (Fixtures.world true true) !! 0 = Some true
  ∧ report (Fixtures.world false true) = report (Fixtures.world true true)
  ∧ ∃ caps, report (Fixtures.world false true) = Done (Some caps, Some ∅, None)
            ∧ caps !! "SupportMetro" = Some (VBool true).
Proof.
  repeat split; try (vm_compute; reflexivity).
  eexists. split; vm_compute; reflexivity.
Qed.

(* ================================================================== *)
(** ** Validation                                                      *)
(* ================================================================== *)

Lemma verifyOceanstorSanParam_logs E config w :
  ∃ err evs, verifyOceanstorSanParam E config w = (Done err, extends w evs)
             ∧ Forall (λ e, event_client e = None) evs ∧ (err = None → evs = []).
Proof.
  unfold verifyOceanstorSanParam. crunch.
  repeat case_match; simplify_eq/=;
    first [ exists None, []; split; [by rewrite app_nil_r; destruct w|by split]
          | eexists _, [_]; split; [done|split; [by repeat constructor|done]]
          | eexists _, []; split; [by rewrite app_nil_r; destruct w|by split] ].
Qed.

Lemma verifyOceanstorDTreeParam_logs E config w :
  ∃ err evs, DTree.verifyOceanstorDTreeParam E config w = (Done err, extends w evs)
             ∧ Forall (λ e, event_client e = None) evs ∧ (err = None → evs = []).
Proof.
  unfold DTree.verifyOceanstorDTreeParam, DTree.failed. crunch.
  repeat case_match; simplify_eq/=;
    first [ exists None, []; split; [by rewrite app_nil_r; destruct w|by split]
          | eexists _, [_]; split; [done|split; [by repeat constructor|done]] ].
Qed.

(** C7, as the code has it: Validate never touches the tracked session,
    and builds its client only for a map it accepts.  For every parameter
    map and every behaviour of the array it returns (it does not panic);
    the store of plugins, and with it the stored client, the holder count
    and the online flag of every plugin, is what it was, and each event it
    adds is a log line or is about the client it has just built.  When the
    parameter check or the client configuration refuses the map it returns
    that error and has added log lines only.  Otherwise it builds a client,
    probes the login with it and returns the answer of the probe; it logs
    out exactly when that answer is nil, which is exactly when it returns
    nil.  The same holds for the oceanstor-dtree plugin, whose fields come
    back unchanged, which asks for the client configuration first and whose
    client may fail to be built. *)
Theorem Validate_leaves_session E w param :
  let c := nextClient w in
  let cfg := env_getNewClientConfig E param in
  (∀ p,
     let start := EvLog Info "Start to validate OceanstorSanPlugin parameters." [] in
     ∃ err evs w',
       Validate E p param w = (Done err, w')
       ∧ heap w' = heap w ∧ trace w' = trace w ++ evs
       ∧ throwaway_only w evs
       ∧ (err = None → evs = validation_events start cfg.1 c None)
       ∧ (err = None ↔ EvLogout c ∈ evs)
       ∧ ∃ verdict logs,
           verifyOceanstorSanParam E param (extend w start) = (Done verdict, extends (extend w start) logs)
           ∧ Forall (λ e, event_client e = None) logs
           ∧ match verdict, cfg.2 with
             | Some e, _ => err = Some e ∧ evs = start :: logs
             | None, Some e => err = Some e ∧ evs = [start]
             | None, None =>
                 err = env_ValidateLogin E c (trace w ++ [start; EvNewClient cfg.1 c])
                 ∧ evs = validation_events start cfg.1 c err
             end)
  ∧ (∀ p,
       let start := EvLog Info "Start to validate OceanstorDTreePlugin parameters." [] in
       ∃ err evs w',
         DTree.Validate E p param w = (Done (p, err), w')
         ∧ heap w' = heap w ∧ trace w' = trace w ++ evs
         ∧ throwaway_only w evs
         ∧ (err = None → evs = validation_events start cfg.1 c None)
         ∧ (err = None ↔ EvLogout c ∈ evs)
         ∧ ∃ verdict logs,
             DTree.verifyOceanstorDTreeParam E param (extend w start)
             = (Done verdict, extends (extend w start) logs)
             ∧ Forall (λ e, event_client e = None) logs
             ∧ match cfg.2, verdict, env_NewClient_error E cfg.1 (trace w ++ [start]) with
               | Some e, _, _ => err = Some e ∧ evs = [start]
               | None, Some e, _ => err = Some e ∧ evs = start :: logs
               | None, None, Some e => err = Some e ∧ evs = [start]
               | None, None, None =>
                   err = env_ValidateLogin E c (trace w ++ [start; EvNewClient cfg.1 c])
                   ∧ evs = validation_events start cfg.1 c err
               end).
Proof.
  intros c cfg. split.
  - intros p start. unfold Validate.
    unfold bind at 1. unfold log at 1, emit at 1. fold start.
    destruct (verifyOceanstorSanParam_logs E param (extend w start))
      as (verdict & logs & Hv & Hlogs & Hnil).
    rewrite (bind_done _ _ _ _ _ Hv).
    destruct verdict as [e|].
    { eexists _, (start :: logs), _. split; [done|]. simpl. rewrite <- app_assoc.
      do 2 (split; [done|]). split.
      { constructor; [by left|]. eapply Forall_impl; [exact Hlogs|]. by left. }
      split; [done|]. split.
      { split; [done|]. intros [Hin|Hin]%elem_of_cons; [done|].
        rewrite Forall_forall in Hlogs. by specialize (Hlogs _ Hin). }
      by exists (Some e), logs. }
    rewrite (Hnil eq_refl) in *. clear Hnil.
    unfold cfg. destruct (env_getNewClientConfig E param) as [config [e|]] eqn:Hc.
    { eexists _, [start], _. split; [done|]. simpl.
      split; [done|]. split; [by rewrite ?app_nil_r, <- ?app_assoc|]. split; [throwaway|]. split; [done|]. split.
      { split; [done|]. intros [Hin|Hin%elem_of_nil]%elem_of_cons; done. }
      exists None, []. by simpl. }
    unfold NewClient, ValidateLogin. crunch. fold c.
    destruct (env_ValidateLogin E c _) as [e|] eqn:Hl.
    + eexists _, [_; _; _], _. split; [done|]. simpl.
      split; [done|]. split; [by rewrite ?app_nil_r, <- ?app_assoc|]. split; [throwaway|]. split; [done|]. split.
      { split; [done|].
        intros Hin. repeat (apply elem_of_cons in Hin as [Hin|Hin]; [done|]).
        by apply elem_of_nil in Hin. }
      exists None, []. split; [exact Hv|]. split; [done|]. simpl.
      rewrite ?app_nil_r in Hl. rewrite <- ?app_assoc in Hl. simpl in Hl. by rewrite Hl.
    + eexists _, [_; _; _; _], _. split; [done|]. simpl.
      split; [done|]. split; [by rewrite ?app_nil_r, <- ?app_assoc|]. split; [throwaway|]. split; [done|]. split.
      { split; [|done]. intros _. rewrite !elem_of_cons. do 3 right. by left. }
      exists None, []. split; [exact Hv|]. split; [done|]. simpl.
      rewrite ?app_nil_r in Hl. rewrite <- ?app_assoc in Hl. simpl in Hl. by rewrite Hl.
  - intros p start. unfold DTree.Validate.
    unfold bind at 1. unfold log at 1, emit at 1. fold start.
    destruct (verifyOceanstorDTreeParam_logs E param (extend w start))
      as (verdict & logs & Hv & Hlogs & Hnil).
    unfold cfg. destruct (env_getNewClientConfig E param) as [config [e|]] eqn:Hc.
    { eexists _, [start], _. split; [done|]. simpl.
      split; [done|]. split; [by rewrite ?app_nil_r, <- ?app_assoc|]. split; [throwaway|]. split; [done|]. split.
      { split; [done|]. intros [Hin|Hin%elem_of_nil]%elem_of_cons; done. }
      by exists verdict, logs. }
    rewrite (bind_done _ _ _ _ _ Hv).
    destruct verdict as [e|].
    { eexists _, (start :: logs), _. split; [done|]. simpl. rewrite <- app_assoc.
      do 2 (split; [done|]). split.
      { constructor; [by left|]. eapply Forall_impl; [exact Hlogs|]. by left. }
      split; [done|]. split.
      { split; [done|]. intros [Hin|Hin]%elem_of_cons; [done|].
        rewrite Forall_forall in Hlogs. by specialize (Hlogs _ Hin). }
      by exists (Some e), logs. }
    rewrite (Hnil eq_refl) in *. clear Hnil.
    unfold DTree.NewClient, ValidateLogin. crunch. fold c.
    destruct (env_NewClient_error E config _) as [e|] eqn:Hn.
    { eexists _, [start], _. split; [done|]. simpl.
      split; [done|]. split; [by rewrite ?app_nil_r, <- ?app_assoc|]. split; [throwaway|]. split; [done|]. split.
      { split; [done|]. intros [Hin|Hin%elem_of_nil]%elem_of_cons; done. }
      exists None, []. split; [exact Hv|]. split; [done|]. simpl.
      rewrite ?app_nil_r in Hn. by rewrite Hn. }
    simpl.
    destruct (env_ValidateLogin E c _) as [e|] eqn:Hl.
    + eexists _, [_; _; _], _. split; [done|]. simpl.
      split; [done|]. split; [by rewrite ?app_nil_r, <- ?app_assoc|]. split; [throwaway|]. split; [done|]. split.
      { split; [done|].
        intros Hin. repeat (apply elem_of_cons in Hin as [Hin|Hin]; [done|]).
        by apply elem_of_nil in Hin. }
      exists None, []. split; [exact Hv|]. split; [done|]. simpl.
      rewrite ?app_nil_r in Hn. rewrite Hn. rewrite ?app_nil_r in Hl.
      rewrite <- ?app_assoc in Hl. simpl in Hl. by rewrite Hl.
    + eexists _, [_; _; _; _], _. split; [done|]. simpl.
      split; [done|]. split; [by rewrite ?app_nil_r, <- ?app_assoc|]. split; [throwaway|]. split; [done|]. split.
      { split; [|done]. intros _. rewrite !elem_of_cons. do 3 right. by left. }
      exists None, []. split; [exact Hv|]. split; [done|]. simpl.
      rewrite ?app_nil_r in Hn. rewrite Hn. rewrite ?app_nil_r in Hl.
      rewrite <- ?app_assoc in Hl. simpl in Hl. by rewrite Hl.
Qed.

Lemma Validate_leaves_session_witness :
  let E := Fixtures.env None (None, None) (None, None) [] in
  let param : gomap := <["parameters" := VMap (<["protocol" := VString "fc"]> ∅)]> ∅ in
  let start := EvLog Info "Start to validate OceanstorSanPlugin parameters." [] in
  ∃ w', Validate E 0 param Fixtures.alone = (Done None, w')
        ∧ heap w' = heap Fixtures.alone
        ∧ trace w' = [start; EvNewClient param 12; EvValidateLogin 12 None; EvLogout 12].
Proof.
  intros E param start.
  destruct (proj1 (Validate_leaves_session E Fixtures.alone param) 0)
    as (err & evs & w' & Hr & Hh & Ht & _ & _ & _ & verdict & logs & Hv & _ & Hm).
  assert (verdict = None) as -> by (vm_compute in Hv; by simplify_eq).
  simpl in Hm. destruct Hm as [-> ->].
  exists w'. split; [exact Hr|]. split; [exact Hh|]. rewrite Ht. reflexivity.
Defined.

(** C7, as the claim has it, fails for two kinds of parameter map.  For a
    map without parameters Validate stops at the check: it builds no client
    and probes nothing.  For a map that passes the check while the array
    refuses the login, it builds the client and probes, returns the error
    of the probe and does not log out. *)
Lemma Validate_not_for_every_map :
  let good : gomap := <["parameters" := VMap (<["protocol" := VString "fc"]> ∅)]> ∅ in
  let refused := errors_New "refused" in
  let E := Fixtures.env (Some refused) (None, None) (None, None) [] in
  let start := EvLog Info "Start to validate OceanstorSanPlugin parameters." [] in
  (∃ e, (Validate E 0 ∅ Fixtures.alone).1 = Done (Some e))
  ∧ Forall (λ e, event_client e = None) (added (Validate E 0 ∅) Fixtures.alone)
  ∧ nextClient (Validate E 0 ∅ Fixtures.alone).2 = nextClient Fixtures.alone
  ∧ (Validate E 0 good Fixtures.alone).1 = Done (Some refused)
  ∧ added (Validate E 0 good) Fixtures.alone
    = [start; EvNewClient good 12; EvValidateLogin 12 (Some refused)].
Proof.
  repeat split; try (vm_compute; reflexivity).
  - eexists. vm_compute. reflexivity.
  - vm_compute. repeat constructor.
Qed.

(** When every client a plugin holds was handed out before, the client a
    validation builds is none of them. *)
Lemma throwaway_is_untracked w evs q ql :
  (∀ q ql, heap w !! q = Some ql → cli ql < nextClient w) →
  throwaway_only w evs →
  heap w !! q = Some ql →
  Forall (λ e, event_client e ≠ Some (cli ql)) evs.
Proof.
  intros Hold Hevs Hq. eapply Forall_impl; [exact Hevs|].
  intros e [He|He]; rewrite He; [done|].
  intros [= Heq]. specialize (Hold q ql Hq). lia.
Qed.

(* ================================================================== *)
(** ** The fusionstorage-san capability report                         *)
(* ================================================================== *)

(** C10: for the fusionstorage-san plugin UpdateBackendCapabilities is a
    constant: whatever the plugin's fields (the online flag among them) and
    whatever the world, it returns the same five capabilities, a nil
    specification map and no error, adds no event (no array is asked) and
    leaves the plugin and the world as they were. *)
Theorem fusion_capabilities_constant (p : FusionStorage.FusionStorageSanPlugin) (w : World) :
  ∃ capabilities : gomap,
    FusionStorage.UpdateBackendCapabilities p w
    = (Done (p, (Some capabilities, None, None)), w)
    ∧ capabilities !! "SupportThin" = Some (VBool true)
    ∧ capabilities !! "SupportThick" = Some (VBool false)
    ∧ capabilities !! "SupportQoS" = Some (VBool true)
    ∧ capabilities !! "SupportClone" = Some (VBool true)
    ∧ capabilities !! "SupportLabel" = Some (VBool false)
    ∧ dom capabilities
      = ({["SupportThin"; "SupportThick"; "SupportQoS"; "SupportClone"; "SupportLabel"]}
           : gset string).
Proof.
  eexists. split; [reflexivity|].
  repeat (split; [by vm_compute|]).
  rewrite !dom_insert_L, dom_empty_L. set_solver.
Qed.

(* ================================================================== *)
(** ** Session counting                                                *)
(* ================================================================== *)

Lemma wrap_int_small x : (- 2 ^ 63 ≤ x < 2 ^ 63)%Z → wrap_int x = x.
Proof. intros H. unfold wrap_int. rewrite Z.mod_small; lia. Qed.

Lemma mutexGetClient_eq E p w pl :
  heap w !! p = Some pl →
  mutexGetClient E p w
  = if negb (storageOnline pl) || bool_decide (clientCount pl = 0%Z) then
      let err := env_Login E (cli pl) (trace w) in
      (Done (cli pl, err),
       mkWorld (<[p := if is_nil err
                       then set_clientCount (int_incr (clientCount pl))
                              (set_storageOnline true pl)
                       else set_storageOnline false pl]> (heap w))
         (nextClient w) (trace w ++ [EvLogin (cli pl) err]))
    else
      (Done (cli pl, None),
       mkWorld (<[p := set_clientCount (int_incr (clientCount pl)) pl]> (heap w))
         (nextClient w) (trace w)).
Proof.
  intros Hp. unfold mutexGetClient.
  rewrite (bind_done _ _ _ _ _ (deref_some _ _ _ Hp)).
  destruct (negb (storageOnline pl) || bool_decide (clientCount pl = 0%Z)); [|done].
  unfold Login. crunch. rewrite Hp. simpl.
  by destruct (env_Login E (cli pl) (trace w)).
Qed.

Lemma mutexReleaseClient_eq p0 p w pl c :
  heap w !! p = Some pl →
  mutexReleaseClient p0 p (Some c) w
  = if bool_decide (int_decr (clientCount pl) = 0%Z) then
      (Done tt,
       mkWorld (<[p := set_storageOnline false
                         (set_clientCount (int_decr (clientCount pl)) pl)]> (heap w))
         (nextClient w) (trace w ++ [EvLogout c]))
    else
      (Done tt,
       mkWorld (<[p := set_clientCount (int_decr (clientCount pl)) pl]> (heap w))
         (nextClient w) (trace w)).
Proof.
  intros Hp. unfold mutexReleaseClient.
  rewrite (bind_done _ _ _ _ _ (deref_some _ _ _ Hp)).
  unfold Logout. crunch.
  destruct (bool_decide (int_decr (clientCount pl) = 0%Z)); [|done].
  simpl. rewrite lookup_insert_eq. simpl. by rewrite insert_insert_eq.
Qed.

(** A release logs out exactly when it brings the count to zero, and an
    acquire never logs out. *)
Lemma release_logout_iff_zero p w pl :
  heap w !! p = Some pl →
  added (mutexReleaseClient p p (Some (cli pl))) w
  = if bool_decide (int_decr (clientCount pl) = 0%Z) then [EvLogout (cli pl)] else [].
Proof.
  intros Hp. unfold added. rewrite (mutexReleaseClient_eq _ _ _ _ _ Hp).
  destruct (bool_decide _); simpl; [by rewrite drop_app_length|by rewrite drop_all].
Qed.

Lemma acquire_never_logs_out E p w :
  Forall (λ e, is_Logout e = false) (added (mutexGetClient E p) w).
Proof.
  unfold added. destruct (heap w !! p) as [pl|] eqn:Hp.
  - rewrite (mutexGetClient_eq _ _ _ _ Hp).
    destruct (_ || _); simpl; [|by rewrite drop_all].
    rewrite drop_app_length. by repeat constructor.
  - unfold mutexGetClient, bind, deref. rewrite Hp. simpl. by rewrite drop_all.
Qed.

Lemma run_op_total E p op w pl :
  heap w !! p = Some pl →
  ∃ err w' pl', run_op E p op w = (Done err, w') ∧ heap w' !! p = Some pl'.
Proof.
  intros Hp. destruct op; unfold run_op.
  - unfold bind. rewrite (mutexGetClient_eq _ _ _ _ Hp).
    destruct (_ || _); simpl; eexists _, _, _; (split; [done|]); simpl;
      by rewrite lookup_insert_eq.
  - rewrite (bind_done _ _ _ _ _ (deref_some _ _ _ Hp)).
    unfold bind. rewrite (mutexReleaseClient_eq _ _ _ _ _ Hp).
    destruct (bool_decide _); simpl; eexists _, _, _; (split; [done|]); simpl;
      by rewrite lookup_insert_eq.
Qed.

(** A run of acquires and releases on a plugin of the store always returns. *)
Lemma run_ops_total E p ops : ∀ w pl,
  heap w !! p = Some pl →
  ∃ errs w' pl', run_ops E p ops w = (Done errs, w') ∧ heap w' !! p = Some pl'.
Proof.
  induction ops as [|op ops IH]; intros w pl Hp; simpl.
  - by eexists _, _, _.
  - destruct (run_op_total E p op w pl Hp) as (err & w1 & pl1 & Hop & Hp1).
    destruct (IH w1 pl1 Hp1) as (errs & w2 & pl2 & Hops & Hp2).
    exists (err :: errs), w2, pl2. split; [|done].
    rewrite (bind_done _ _ _ _ _ Hop), (bind_done _ _ _ _ _ Hops). done.
Qed.

Lemma run_ops_balanced E p ops : ∀ w pl (d : nat) errs w',
  heap w !! p = Some pl →
  clientCount pl = Z.of_nat d →
  (0 < d → storageOnline pl = true) →
  (Z.of_nat (d + length ops) < 2 ^ 63)%Z →
  (∀ k, releases (take k ops) ≤ d + acquires (take k ops)) →
  d + acquires ops = releases ops →
  run_ops E p ops w = (Done errs, w') →
  Forall (λ e, e = None) errs →
  ∃ pl', heap w' !! p = Some pl'
         ∧ clientCount pl' = 0%Z
         ∧ cli pl' = cli pl
         ∧ (ops ≠ [] → storageOnline pl' = false
                       ∧ last (trace w') = Some (EvLogout (cli pl))).
Proof.
  induction ops as [|op ops IH]; intros w pl d errs w' Hp Hd Hon Hlen Hpre Hbal Hrun Herrs.
  - simpl in *. unfold ret in Hrun. simplify_eq. exists pl.
    split; [done|]. split; [lia|]. split; [done|]. intros Hne. by destruct Hne.
  - simpl in Hrun. unfold bind at 1 in Hrun.
    destruct (run_op E p op w) as [[err|] w1] eqn:Hop; [|done].
    unfold bind at 1 in Hrun.
    destruct (run_ops E p ops w1) as [[errs1|] w2] eqn:Hops; [|done].
    unfold ret in Hrun. simplify_eq. apply Forall_cons in Herrs as [-> Herrs].
    destruct op; unfold run_op in Hop.
    + (* an acquire *)
      unfold bind in Hop. rewrite (mutexGetClient_eq _ _ _ _ Hp) in Hop.
      simpl in Hlen, Hbal.
      assert (Hinc : int_incr (clientCount pl) = Z.of_nat (S d)).
      { unfold int_incr. rewrite Hd, wrap_int_small; lia. }
      assert (Hpre' : ∀ k, releases (take k ops) ≤ S d + acquires (take k ops)).
      { intros k. specialize (Hpre (S k)). simpl in Hpre. lia. }
      destruct (negb (storageOnline pl) || bool_decide (clientCount pl = 0%Z)) eqn:Hcond.
      * simpl in Hop. injection Hop as Herr <-. rewrite Herr in *. simpl in *.
        opose proof (IH _ _ (S d) _ _ _ _ _ _ _ _ Hops Herrs)
          as (pl' & Hp' & Hc' & Hcli & Hne);
          [apply lookup_insert_eq|simpl; try done; try lia; try (intros; lia)..|].
        exists pl'. repeat split; try done.
        all: destruct ops as [|op' ops']; [simpl in *; lia|];
          by destruct Hne as [? ?].
      * simpl in Hop. injection Hop as <-. 
        apply orb_false_iff in Hcond as [Ho _]. apply negb_false_iff in Ho.
        opose proof (IH _ _ (S d) _ _ _ _ _ _ _ _ Hops Herrs)
          as (pl' & Hp' & Hc' & Hcli & Hne);
          [apply lookup_insert_eq|simpl; try done; try lia; try (intros; lia)..|].
        exists pl'. repeat split; try done.
        all: destruct ops as [|op' ops']; [simpl in *; lia|];
          by destruct Hne as [? ?].
    + (* a release *)
      rewrite (bind_done _ _ _ _ _ (deref_some _ _ _ Hp)) in Hop.
      unfold bind in Hop. rewrite (mutexReleaseClient_eq _ _ _ _ _ Hp) in Hop.
      simpl in Hlen, Hbal.
      pose proof (Hpre 1) as H1. simpl in H1.
      destruct d as [|d]; [lia|].
      assert (Hdec : int_decr (clientCount pl) = Z.of_nat d).
      { unfold int_decr. rewrite Hd, wrap_int_small; lia. }
      assert (Hpre' : ∀ k, releases (take k ops) ≤ d + acquires (take k ops)).
      { intros k. specialize (Hpre (S k)). simpl in Hpre. lia. }
      rewrite Hdec in Hop.
      destruct (bool_decide (Z.of_nat d = 0%Z)) eqn:Hz.
      * apply bool_decide_eq_true in Hz. assert (d = 0) as -> by lia.
        simpl in Hop. injection Hop as <-.
        opose proof (IH _ _ 0 _ _ _ _ _ _ _ _ Hops Herrs)
          as (pl' & Hp' & Hc' & Hcli & Hne);
          [apply lookup_insert_eq|simpl; try done; try lia; try (intros; lia)..|].
        exists pl'. do 3 (split; [done|]). intros _.
        destruct ops as [|op' ops']; [|by apply Hne].
        simpl in Hops. unfold ret in Hops. simplify_eq. simpl in Hp'.
        rewrite lookup_insert_eq in Hp'. simplify_eq. simpl.
        split; [done|by rewrite last_snoc].
      * apply bool_decide_eq_false in Hz.
        simpl in Hop. injection Hop as <-.
        opose proof (IH _ _ d _ _ _ _ _ _ _ _ Hops Herrs)
          as (pl' & Hp' & Hc' & Hcli & Hne);
          [apply lookup_insert_eq|simpl; try done; try lia; try (intros; lia)..|].
        { intros _. apply Hon. lia. }
        exists pl'. repeat split; try done.
        all: destruct ops as [|op' ops']; [simpl in *; lia|];
          by destruct Hne as [? ?].
Qed.

(** C2, as the code has it.  Take a plugin whose holder count is zero and a
    non-empty sequence of acquires and releases, shorter than 2^63, with as
    many acquires as releases, in which no release comes before the acquire
    it gives back (no prefix holds more releases than acquires).  The run
    returns; and if every acquire in it succeeded, the holder count is zero
    again, the online flag is clear, and the last thing that happened is
    the logout.  In every state whatsoever a release logs out exactly when
    it brings the count to zero, and an acquire never logs out. *)
Theorem balanced_sessions_end_offline E p ops w pl :
  heap w !! p = Some pl →
  clientCount pl = 0%Z →
  (Z.of_nat (length ops) < 2 ^ 63)%Z →
  ops ≠ [] →
  (∀ k, releases (take k ops) ≤ acquires (take k ops)) →
  acquires ops = releases ops →
  ∃ errs w',
    run_ops E p ops w = (Done errs, w')
    ∧ (Forall (λ e, e = None) errs →
       ∃ pl', heap w' !! p = Some pl'
              ∧ clientCount pl' = 0%Z
              ∧ storageOnline pl' = false
              ∧ last (trace w') = Some (EvLogout (cli pl)))
    ∧ (∀ w0 pl0, heap w0 !! p = Some pl0 →
         added (mutexReleaseClient p p (Some (cli pl0))) w0
         = if bool_decide (int_decr (clientCount pl0) = 0%Z)
           then [EvLogout (cli pl0)] else [])
    ∧ (∀ w0, Forall (λ e, is_Logout e = false) (added (mutexGetClient E p) w0)).
Proof.
  intros Hp Hc Hlen Hne Hpre Hbal.
  destruct (run_ops_total E p ops w pl Hp) as (errs & w' & pl1 & Hrun & _).
  exists errs, w'. split; [done|]. split; [|split].
  - intros Herrs.
    opose proof (run_ops_balanced E p ops w pl 0 errs w' Hp Hc _ _ Hpre Hbal Hrun Herrs)
      as (pl' & Hp' & Hc' & _ & Hlast); [lia|simpl; lia|].
    destruct (Hlast Hne) as [Hoff Hout]. by exists pl'.
  - intros w0 pl0. apply release_logout_iff_zero.
  - apply acquire_never_logs_out.
Qed.

Lemma balanced_sessions_end_offline_witness :
  ∃ w', run_ops (Fixtures.env None (None, None) (None, None) []) 0
          [Acquire; Acquire; Release; Release] Fixtures.alone
        = (Done [None; None; None; None], w')
        ∧ storageOnline <$> heap w' !! 0 = Some false
        ∧ clientCount <$> heap w' !! 0 = Some 0%Z
        ∧ last (trace w') = Some (EvLogout 10).
Proof.
  destruct (balanced_sessions_end_offline (Fixtures.env None (None, None) (None, None) []) 0
              [Acquire; Acquire; Release; Release] Fixtures.alone
              (Fixtures.san None true 0 10))
    as (errs & w' & Hrun & Hend & _).
  - reflexivity.
  - reflexivity.
  - simpl. lia.
  - discriminate.
  - intros k. do 5 (destruct k as [|k]; simpl; try lia).
  - reflexivity.
  - assert (Herrs : errs = [None; None; None; None]).
    { vm_compute in Hrun. by injection Hrun as <- _. }
    subst errs. exists w'. split; [done|].
    assert (Hok : Forall (λ e : error, e = None) [None; None; None; None])
      by (by repeat constructor).
    destruct (Hend Hok) as (pl' & Hp' & Hc' & Ho' & Hl').
    rewrite Hp'. simpl. by rewrite Ho', Hc'.
Defined.

(** C2, as the claim has it, fails.  On a plugin with no holder, whether
    [Init] has just left it online or it is offline, a release followed by
    an acquire (one of each) ends with the count at zero and the plugin
    online, and no logout has happened.  When the login fails, an acquire
    followed by a release ends with the count at minus one.  And the empty
    sequence leaves a freshly initialised plugin online. *)
Lemma release_before_acquire_stays_online :
  let ok := Fixtures.env None (None, None) (None, None) [] in
  let down := Fixtures.env (Some (errors_New "login failed")) (None, None) (None, None) [] in
  let offline := mkWorld (<[0 := Fixtures.san None false 0 10]> ∅) 12 [] in
  acquires [Release; Acquire] = releases [Release; Acquire]
  ∧ (let w' := (run_ops ok 0 [Release; Acquire] Fixtures.alone).2 in
     clientCount <$> heap w' !! 0 = Some 0%Z
     ∧ storageOnline <$> heap w' !! 0 = Some true
     ∧ trace w' = [])
  ∧ (let w' := (run_ops ok 0 [Release; Acquire] offline).2 in
     clientCount <$> heap w' !! 0 = Some 0%Z
     ∧ storageOnline <$> heap w' !! 0 = Some true
     ∧ trace w' = [EvLogin 10 None])
  ∧ acquires [Acquire; Release] = releases [Acquire; Release]
  ∧ (let w' := (run_ops down 0 [Acquire; Release] Fixtures.alone).2 in
     clientCount <$> heap w' !! 0 = Some (-1)%Z
     ∧ storageOnline <$> heap w' !! 0 = Some false)
  ∧ (let w' := (run_ops ok 0 [] Fixtures.alone).2 in
     clientCount <$> heap w' !! 0 = Some 0%Z
     ∧ storageOnline <$> heap w' !! 0 = Some true).
Proof. vm_compute. done. Qed.

(* ================================================================== *)
(** ** What attach and detach leave alone                              *)
(* ================================================================== *)

Lemma keeps_ret {A} (a : A) : keeps_store (ret a).
Proof. by intros w. Qed.

Lemma keeps_panic {A} msg : keeps_store (@panic A msg).
Proof. by intros w. Qed.

Lemma keeps_emit e : keeps_store (emit e).
Proof. by intros w. Qed.

Lemma keeps_history : keeps_store history.
Proof. by intros w. Qed.

Lemma keeps_deref p : keeps_store (deref p).
Proof. intros w. unfold deref. by destruct (heap w !! p). Qed.

Lemma keeps_bind {A B} (c : M A) (k : A → M B) :
  keeps_store c → (∀ a, keeps_store (k a)) → keeps_store (bind c k).
Proof.
  intros Hc Hk w. unfold bind. destruct (Hc w) as [H1 H2].
  destruct (c w) as [[a|msg] w1]; simpl in *; [|done].
  destruct (Hk a w1) as [H3 H4]. by rewrite H3, H4.
Qed.

(** Takes a computation apart along its binds and its case distinctions. *)
Ltac keeps :=
  repeat first
    [ apply keeps_ret | apply keeps_panic | apply keeps_emit | apply keeps_history
    | apply keeps_deref | solve [eauto]
    | apply keeps_bind; [|intros ?]
    | match goal with
      | |- keeps_store (match ?x with _ => _ end) => destruct x
      | |- keeps_store (if ?b then _ else _) => destruct b
      end
    | progress unfold log, called, must_string, must_client, must_remote, metroRemoteOnline,
        utils_Errorf, Login, Logout, GetLunByName, GetHyperMetroPairByLocalObjID,
        ReflectCall ].

Lemma keeps_handler E p req : keeps_store (handler E p req).
Proof. unfold handler, isHyperMetro, metroHandler, commonHandler. keeps. Qed.

(** X1: attaching and detaching never change a plugin.  Whatever the
    arrays answer and however the call ends, a panic included, AttachVolume
    and DetachVolume leave every plugin of the store as it was (the holder
    count, the online flag, the bonds, the client) and build no client. *)
Theorem attach_detach_keep_store E p name params :
  keeps_store (AttachVolume E p name params)
  ∧ keeps_store (DetachVolume E p name params).
Proof.
  split.
  - unfold AttachVolume, pickClients, getLunInfo.
    pose proof (keeps_handler E p) as Hh. keeps.
  - unfold DetachVolume, pickClients, getLunInfo.
    pose proof (keeps_handler E p) as Hh. keeps.
Qed.

(* ================================================================== *)
(** ** Taking and giving back the clients of an operation              *)
(* ================================================================== *)

Lemma mutexGetClient_acquired E p w pl :
  heap w !! p = Some pl →
  ∃ err tr,
    mutexGetClient E p w
    = (Done (cli pl, err), mkWorld (<[p := acquired err pl]> (heap w)) (nextClient w) tr)
    ∧ (tr = trace w ∨ tr = trace w ++ [EvLogin (cli pl) err]).
Proof.
  intros Hp. rewrite (mutexGetClient_eq _ _ _ _ Hp). unfold acquired.
  destruct (negb (storageOnline pl) || bool_decide (clientCount pl = 0%Z)) eqn:Hc.
  - eexists _, _. split; [|by right]. done.
  - exists None, (trace w). split; [|by left]. simpl.
    apply orb_false_iff in Hc as [Ho _]. apply negb_false_iff in Ho.
    destruct pl; simpl in *; by subst.
Qed.

Lemma guarded_release p0 q w ql c :
  heap w !! q = Some ql →
  ∃ tr,
    (if storageOnline ql then mutexReleaseClient p0 q (Some c) else ret tt) w
    = (Done tt, mkWorld (<[q := released ql]> (heap w)) (nextClient w) tr).
Proof.
  intros Hq. unfold released. destruct (storageOnline ql) eqn:Ho.
  - rewrite (mutexReleaseClient_eq _ _ _ _ _ Hq).
    destruct (bool_decide _); by eexists.
  - exists (trace w). unfold ret. rewrite insert_id by done. by destruct w.
Qed.

Lemma released_acquired err pl :
  (0 ≤ clientCount pl < 2 ^ 63 - 1)%Z →
  clientCount (released (acquired err pl)) = clientCount pl.
Proof.
  intros Hn. unfold released, acquired, int_incr, int_decr.
  destruct (is_nil err); simpl; [|done].
  rewrite (wrap_int_small (clientCount pl + 1)) by lia.
  replace (clientCount pl + 1 - 1)%Z with (clientCount pl) by lia.
  rewrite wrap_int_small by lia. by destruct (bool_decide _).
Qed.

Lemma released_bond pl : metroRemotePlugin (released pl) = metroRemotePlugin pl.
Proof. unfold released. by repeat case_match. Qed.

Lemma acquired_bond err pl : metroRemotePlugin (acquired err pl) = metroRemotePlugin pl.
Proof. unfold acquired. by case_match. Qed.

Lemma acquired_online err pl : storageOnline (acquired err pl) = is_nil err.
Proof. unfold acquired. by case_match. Qed.

Lemma releaseClient_alone p w pl c mc :
  heap w !! p = Some pl →
  metroRemotePlugin pl = None →
  ∃ tr, releaseClient p (Some c) mc w
        = (Done tt, mkWorld (<[p := released pl]> (heap w)) (nextClient w) tr).
Proof.
  intros Hp Hb. unfold releaseClient.
  rewrite (bind_done _ _ _ _ _ (deref_some _ _ _ Hp)).
  destruct (guarded_release p p w pl c Hp) as [tr1 H1].
  rewrite (bind_done _ _ _ _ _ H1).
  rewrite (bind_done _ _ _ (released pl) _) by (apply deref_some, lookup_insert_eq).
  rewrite released_bond, Hb. by eexists.
Qed.

Lemma releaseClient_bonded p w pl q ql c mc :
  heap w !! p = Some pl →
  metroRemotePlugin pl = Some q → q ≠ p →
  heap w !! q = Some ql →
  ∃ tr, releaseClient p (Some c) (Some mc) w
        = (Done tt,
           mkWorld (<[q := released ql]> (<[p := released pl]> (heap w))) (nextClient w) tr).
Proof.
  intros Hp Hb Hne Hql. unfold releaseClient.
  rewrite (bind_done _ _ _ _ _ (deref_some _ _ _ Hp)).
  destruct (guarded_release p p w pl c Hp) as [tr1 H1].
  rewrite (bind_done _ _ _ _ _ H1).
  rewrite (bind_done _ _ _ (released pl) _) by (apply deref_some, lookup_insert_eq).
  rewrite released_bond, Hb.
  rewrite (bind_done _ _ _ ql _) by (apply deref_some; simpl; by rewrite lookup_insert_ne).
  destruct (guarded_release p q (mkWorld (<[p:=released pl]> (heap w)) (nextClient w) tr1)
              ql mc) as [tr2 H2]; [simpl; by rewrite lookup_insert_ne|].
  rewrite H2. by exists tr2.
Qed.

Lemma getClient_alone E p w pl :
  heap w !! p = Some pl →
  metroRemotePlugin pl = None →
  ∃ e1 tr,
    getClient E p w
    = (Done (if is_nil e1 then (Some (cli pl), None, None)
             else (None, None, Some (errors_New "local storage can not login"))),
       mkWorld (<[p := acquired e1 pl]> (heap w)) (nextClient w) tr).
Proof.
  intros Hp Hb. unfold getClient.
  destruct (mutexGetClient_acquired E p w pl Hp) as (e1 & tr & H1 & _).
  rewrite (bind_done _ _ _ _ _ H1).
  rewrite (bind_done _ _ _ (acquired e1 pl) _) by (apply deref_some, lookup_insert_eq).
  rewrite acquired_bond, Hb. exists e1, tr. simpl. by destruct (is_nil e1).
Qed.

Lemma getClient_bonded E p w pl q ql :
  heap w !! p = Some pl →
  metroRemotePlugin pl = Some q → q ≠ p →
  heap w !! q = Some ql →
  ∃ e1 e2 tr,
    getClient E p w
    = (Done (if negb (is_nil e1) && negb (is_nil e2)
             then (None, None, Some (errors_New "local and remote storage can not login"))
             else (Some (cli pl), Some (cli ql), None)),
       mkWorld (<[q := acquired e2 ql]> (<[p := acquired e1 pl]> (heap w))) (nextClient w) tr).
Proof.
  intros Hp Hb Hne Hql. unfold getClient.
  destruct (mutexGetClient_acquired E p w pl Hp) as (e1 & tr1 & H1 & _).
  rewrite (bind_done _ _ _ _ _ H1).
  rewrite (bind_done _ _ _ (acquired e1 pl) _) by (apply deref_some, lookup_insert_eq).
  rewrite acquired_bond, Hb.
  destruct (mutexGetClient_acquired E q
              (mkWorld (<[p:=acquired e1 pl]> (heap w)) (nextClient w) tr1) ql)
    as (e2 & tr2 & H2 & _); [simpl; by rewrite lookup_insert_ne|].
  rewrite (bind_done _ _ _ _ _ H2). exists e1, e2, tr2. simpl.
  by destruct (is_nil e1), (is_nil e2).
Qed.

(** X2: taking the clients of an operation and giving them back leaks no
    holder.  For a plugin, alone or bonded to a metro remote other than
    itself, whose holder counts are between 0 and 2^63 - 2: [getClient]
    returns; when it fails every holder count is what it was; when it
    succeeds, also with one of the two logins refused, [releaseClient] on
    the clients it handed out returns and every holder count is what it was
    before [getClient]. *)
Theorem getClient_releaseClient_restore E p w pl :
  heap w !! p = Some pl →
  (0 ≤ clientCount pl < 2 ^ 63 - 1)%Z →
  (∀ q, metroRemotePlugin pl = Some q →
        q ≠ p ∧ ∃ ql, heap w !! q = Some ql ∧ (0 ≤ clientCount ql < 2 ^ 63 - 1)%Z) →
  ∃ c mc err w1,
    getClient E p w = (Done (c, mc, err), w1)
    ∧ (err ≠ None → ∀ r, holders w1 r = holders w r)
    ∧ (err = None →
       ∃ w2, releaseClient p c mc w1 = (Done tt, w2) ∧ ∀ r, holders w2 r = holders w r).
Proof.
  intros Hp Hn Hq. destruct (metroRemotePlugin pl) as [q|] eqn:Hb.
  - destruct (Hq q eq_refl) as (Hne & ql & Hql & Hnq).
    destruct (getClient_bonded E p w pl q ql Hp Hb Hne Hql) as (e1 & e2 & tr & Hg).
    destruct (negb (is_nil e1) && negb (is_nil e2)) eqn:Hboth.
    + eexists _, _, _, _. split; [exact Hg|]. split; [|done].
      intros _ r. apply andb_true_iff in Hboth as [H1 H2].
      apply negb_true_iff in H1, H2. unfold holders, acquired. simpl. rewrite H1, H2.
      destruct (decide (r = q)) as [->|Hr]; [by rewrite lookup_insert_eq, Hql|].
      rewrite lookup_insert_ne by done.
      destruct (decide (r = p)) as [->|Hr']; [by rewrite lookup_insert_eq, Hp|].
      by rewrite lookup_insert_ne.
    + eexists _, _, _, _. split; [exact Hg|]. split; [done|]. intros _.
      edestruct (releaseClient_bonded p
                   (mkWorld (<[q:=acquired e2 ql]> (<[p:=acquired e1 pl]> (heap w)))
                      (nextClient w) tr) (acquired e1 pl) q (acquired e2 ql) (cli pl) (cli ql))
        as [tr2 Hr]; simpl.
      { by rewrite lookup_insert_ne, lookup_insert_eq. }
      { by rewrite acquired_bond. }
      { done. }
      { by rewrite lookup_insert_eq. }
      eexists. split; [exact Hr|]. intros r. unfold holders. simpl.
      destruct (decide (r = q)) as [->|Hrq].
      { rewrite lookup_insert_eq, Hql. simpl. by rewrite released_acquired. }
      rewrite lookup_insert_ne by done.
      destruct (decide (r = p)) as [->|Hrp].
      { rewrite lookup_insert_eq, Hp. simpl. by rewrite released_acquired. }
      by rewrite !lookup_insert_ne by done.
  - destruct (getClient_alone E p w pl Hp Hb) as (e1 & tr & Hg).
    destruct (is_nil e1) eqn:H1.
    + eexists _, _, _, _. split; [exact Hg|]. split; [done|]. intros _.
      edestruct (releaseClient_alone p
                   (mkWorld (<[p:=acquired e1 pl]> (heap w)) (nextClient w) tr)
                   (acquired e1 pl) (cli pl) None) as [tr2 Hr]; simpl.
      { by rewrite lookup_insert_eq. }
      { by rewrite acquired_bond. }
      eexists. split; [exact Hr|]. intros r. unfold holders. simpl.
      destruct (decide (r = p)) as [->|Hrp].
      { rewrite lookup_insert_eq, Hp. simpl. by rewrite released_acquired. }
      by rewrite !lookup_insert_ne by done.
    + eexists _, _, _, _. split; [exact Hg|]. split; [|done].
      intros _ r. unfold holders, acquired. simpl. rewrite H1.
      destruct (decide (r = p)) as [->|Hr']; [by rewrite lookup_insert_eq, Hp|].
      by rewrite lookup_insert_ne.
Qed.

Lemma getClient_releaseClient_restore_witness :
  ∃ w1 w2,
    getClient (Fixtures.env None (None, None) (None, None) []) 0 (Fixtures.world true false)
    = (Done (Some 10, Some 11, None), w1)
    ∧ releaseClient 0 (Some 10) (Some 11) w1 = (Done tt, w2)
    ∧ holders w2 0 = Some 0%Z ∧ holders w2 1 = Some 0%Z.
Proof.
  destruct (getClient_releaseClient_restore (Fixtures.env None (None, None) (None, None) [])
              0 (Fixtures.world true false) (Fixtures.san (Some 1) true 0 10))
    as (c & mc & err & w1 & Hg & _ & Hok).
  - reflexivity.
  - simpl. lia.
  - intros q [= <-]. split; [done|]. exists (Fixtures.san None false 0 11).
    split; [reflexivity|simpl; lia].
  - assert (Hres : (c, mc, err) = (Some 10, Some 11, None)).
    { vm_compute in Hg. by simplify_eq. }
    injection Hres as -> -> ->.
    destruct (Hok eq_refl) as (w2 & Hr & Hh).
    exists w1, w2. split; [done|]. split; [done|]. by rewrite !Hh.
Defined.

(** X3: [getClient] fails exactly when it leaves no side online.  For a
    plugin alone, or bonded to a metro remote other than itself, the error
    is nil if and only if afterwards the plugin's own online flag is set, or
    a metro remote is bonded and its flag is set; and on success the first
    client handed out is the plugin's own, even when its login was refused
    and only the remote one went through. *)
Theorem getClient_fails_iff_offline E p w pl :
  heap w !! p = Some pl →
  (∀ q, metroRemotePlugin pl = Some q → q ≠ p ∧ is_Some (heap w !! q)) →
  ∃ c mc err w1,
    getClient E p w = (Done (c, mc, err), w1)
    ∧ (err = None ↔
       online w1 p = Some true
       ∨ ∃ q, metroRemotePlugin pl = Some q ∧ online w1 q = Some true)
    ∧ (err = None → c = Some (cli pl)).
Proof.
  intros Hp Hq. destruct (metroRemotePlugin pl) as [q|] eqn:Hb.
  - destruct (Hq q eq_refl) as (Hne & ql & Hql).
    destruct (getClient_bonded E p w pl q ql Hp Hb Hne Hql) as (e1 & e2 & tr & Hg).
    assert (Hp1 : online (mkWorld (<[q:=acquired e2 ql]> (<[p:=acquired e1 pl]> (heap w)))
                            (nextClient w) tr) p = Some (is_nil e1)).
    { unfold online. simpl. rewrite lookup_insert_ne, lookup_insert_eq by done.
      simpl. by rewrite acquired_online. }
    assert (Hq1 : online (mkWorld (<[q:=acquired e2 ql]> (<[p:=acquired e1 pl]> (heap w)))
                            (nextClient w) tr) q = Some (is_nil e2)).
    { unfold online. simpl. rewrite lookup_insert_eq. simpl. by rewrite acquired_online. }
    destruct (is_nil e1), (is_nil e2); simpl in Hg;
      (eexists _, _, _, _; split; [exact Hg|]); rewrite Hp1; (split; [split|]); try done.
    all: try (intros _; first [by left | right; exists q; by rewrite Hq1]).
    intros [[=]|(q' & [= <-] & Hc)]. rewrite Hq1 in Hc. by simplify_eq.
  - destruct (getClient_alone E p w pl Hp Hb) as (e1 & tr & Hg).
    assert (Hp1 : online (mkWorld (<[p:=acquired e1 pl]> (heap w)) (nextClient w) tr) p
                  = Some (is_nil e1)).
    { unfold online. simpl. rewrite lookup_insert_eq. simpl. by rewrite acquired_online. }
    destruct (is_nil e1); simpl in Hg;
      (eexists _, _, _, _; split; [exact Hg|]); rewrite Hp1; (split; [split|]); try done.
    + intros _. by left.
    + intros [[=]|(q' & [=] & _)].
Qed.

Lemma getClient_fails_iff_offline_witness :
  ∃ w1, getClient (Fixtures.env (Some (errors_New "refused")) (None, None) (None, None) []) 0
          Fixtures.alone
        = (Done (None, None, Some (errors_New "local storage can not login")), w1)
        ∧ online w1 0 = Some false.
Proof.
  destruct (getClient_fails_iff_offline
              (Fixtures.env (Some (errors_New "refused")) (None, None) (None, None) [])
              0 Fixtures.alone (Fixtures.san None true 0 10))
    as (c & mc & err & w1 & Hg & Hiff & _).
  - reflexivity.
  - intros q [=].
  - exists w1. vm_compute in Hg. by simplify_eq.
Defined.

(* ================================================================== *)
(** ** Capability refresh, the other paths                             *)
(* ================================================================== *)

(** X4: a failed capability refresh takes the plugin offline, and the next
    acquire logs in again.  When the base plugin cannot report the
    capabilities, UpdateBackendCapabilities returns the error and no map
    and clears the online flag, leaving everything else of the plugin
    (the holder count too) as it was; the next [mutexGetClient] then calls
    Login, however many holders there are. *)
Theorem failed_refresh_forces_login E p w pl caps specs err :
  heap w !! p = Some pl →
  env_baseUpdateBackendCapabilities E p (trace w) = (caps, specs, Some err) →
  let w' := mkWorld (<[p := set_storageOnline false pl]> (heap w)) (nextClient w)
              (trace w ++ [EvBaseCapabilities p (caps, specs, Some err)]) in
  UpdateBackendCapabilities E p w = (Done (None, None, Some err), w')
  ∧ added (mutexGetClient E p) w' = [EvLogin (cli pl) (env_Login E (cli pl) (trace w'))].
Proof.
  intros Hp Hb w'. split.
  - unfold UpdateBackendCapabilities, base_UpdateBackendCapabilities. crunch.
    rewrite Hb. simpl. by rewrite Hp.
  - unfold added. rewrite (mutexGetClient_eq E p w' (set_storageOnline false pl))
      by apply lookup_insert_eq.
    simpl. by rewrite drop_app_length.
Qed.

Lemma failed_refresh_forces_login_witness :
  let E := mkEnv (λ _ _, None) (λ _ _, None) (λ _ _ _, (None, None)) (λ _ _ _, (None, None))
             (λ _ name, name) (λ _ _ _ _ _, []) (λ _, None) (λ _, (∅, None))
             (λ _ _, (None, None, Some (errors_New "timeout")))
             (λ param, (param, None)) (λ _ _, None) (λ _, ([], None))
             (λ _, (EmptyString, false)) (λ _ _ _, None) (λ name, name) (λ _ _, None)
             (λ _, (EmptyString, EmptyString))
             (λ _, (EmptyString, EmptyString, EmptyString)) in
  let w := mkWorld (<[0 := Fixtures.san None true 3 10]> ∅) 12 [] in
  (UpdateBackendCapabilities E 0 w).1 = Done (None, None, Some (errors_New "timeout"))
  ∧ online (UpdateBackendCapabilities E 0 w).2 0 = Some false
  ∧ holders (UpdateBackendCapabilities E 0 w).2 0 = Some 3%Z.
Proof.
  intros E w.
  destruct (failed_refresh_forces_login E 0 w (Fixtures.san None true 3 10) None None
              (errors_New "timeout")) as [Hrun _]; [reflexivity|reflexivity|].
  rewrite Hrun. by vm_compute.
Defined.

Lemma updateReplicaCapability_closed p caps w pl :
  heap w !! p = Some pl →
  updateReplicaCapability p (Some caps) w
  = (Done (Some match caps !! "SupportReplication" with
                | None => caps
                | Some v =>
                    if iface_eq_false v then caps
                    else <["SupportReplication" :=
                             VBool (bool_decide (replicaRemotePlugin pl ≠ None))]> caps
                end), w).
Proof.
  intros Hp. unfold updateReplicaCapability. simpl.
  destruct (caps !! "SupportReplication") as [v|]; [|done].
  destruct (iface_eq_false v); [done|].
  by rewrite (bind_done _ _ _ _ _ (deref_some _ _ _ Hp)).
Qed.

(** X5: replication support is advertised exactly when a replica remote is
    bonded.  After a successful UpdateBackendCapabilities, an entry
    SupportReplication that the array reported as anything but [false] is
    the boolean "a replica remote is bonded"; an entry reported as [false],
    or no entry, is left as it was.  The online flags play no part. *)
Theorem replication_capability_report E p w pl remote caps specs :
  topology w p pl remote →
  env_baseUpdateBackendCapabilities E p (trace w) = (Some caps, specs, None) →
  ∃ caps' w',
    UpdateBackendCapabilities E p w = (Done (Some caps', specs, None), w')
    ∧ caps' !! "SupportReplication"
      = match caps !! "SupportReplication" with
        | None => None
        | Some v =>
            if iface_eq_false v then Some v
            else Some (VBool (bool_decide (replicaRemotePlugin pl ≠ None)))
        end.
Proof.
  intros T Hb.
  pose proof (topology_local _ _ _ _ T) as Hp.
  set (w' := mkWorld (<[p := set_storageOnline true pl]> (heap w)) (nextClient w)
               (trace w ++ [EvBaseCapabilities p (Some caps, specs, None)])).
  assert (Hp' : heap w' !! p = Some (set_storageOnline true pl)) by apply lookup_insert_eq.
  assert (Hq' : ∀ q, metroRemotePlugin (set_storageOnline true pl) = Some q →
                     is_Some (heap w' !! q)).
  { intros q Hq. simpl in *. destruct (decide (q = p)) as [->|Hne]; [by rewrite Hp'|].
    rewrite lookup_insert_ne by done.
    destruct T as [? ? Hr|? q' ql ? Hr Hql]; simplify_eq; by rewrite Hql. }
  pose proof (updateHyperMetroCapability_eq p caps w' _ Hp' Hq') as H1.
  eexists _, w'. split.
  - unfold UpdateBackendCapabilities, base_UpdateBackendCapabilities.
    unfold bind at 1. unfold bind at 1. unfold history at 1.
    rewrite Hb. unfold bind at 1. unfold emit at 1. unfold ret at 1.
    rewrite (bind_done _ _ (extend w _) pl (extend w _)) by (by apply deref_some).
    unfold bind at 1. unfold store at 1. fold w'.
    rewrite (bind_done _ _ _ _ _ H1).
    by rewrite (bind_done _ _ _ _ _ (updateReplicaCapability_closed p _ w' _ Hp')).
  - simpl.
    assert (Hk : match caps !! "SupportMetro" with
                 | None => caps
                 | Some v =>
                     if iface_eq_false v then caps
                     else <["SupportMetro" := VBool (metro_ready w' p)]> caps
                 end !! "SupportReplication" = caps !! "SupportReplication").
    { repeat case_match; try done. by rewrite lookup_insert_ne. }
    rewrite Hk. destruct (caps !! "SupportReplication") as [v|] eqn:Hv.
    + destruct (iface_eq_false v); [by rewrite Hk|]. by rewrite lookup_insert_eq.
    + by rewrite Hk.
Qed.

Lemma replication_capability_report_witness :
  let E := FixturesRest.env (<["SupportReplication" := VBool true]> ∅) None [] in
  ∃ caps' w',
    UpdateBackendCapabilities E 0 Fixtures.alone = (Done (Some caps', Some ∅, None), w')
    ∧ caps' !! "SupportReplication" = Some (VBool false).
Proof.
  intros E.
  destruct (replication_capability_report E 0 Fixtures.alone (Fixtures.san None true 0 10)
              None (<["SupportReplication" := VBool true]> ∅) (Some ∅))
    as (caps' & w' & Hr & Hc).
  - by constructor.
  - reflexivity.
  - exists caps', w'. split; [exact Hr|]. rewrite Hc. reflexivity.
Defined.

(* ================================================================== *)
(** ** Init                                                            *)
(* ================================================================== *)

Ltac run_init Hp :=
  unfold Init, base_init, called; crunch;
  repeat (first [ rewrite Hp | rewrite lookup_insert_eq | rewrite insert_insert_eq
                | progress simpl ]).

(** X6: what a successful Init leaves.  Init on a plugin of the store
    returns; when it returns nil the protocol in the parameters is one of
    iscsi, fc, roce and fc-nvme and is now the plugin's, the plugin is
    online, for roce and fc-nvme the product is DoradoV6, for iscsi and
    roce the portals are the verified addresses of the configured list and
    otherwise the ones it had, and the holder count and the bonds are what
    they were. *)
Theorem Init_success E L p config params keepLogin w pl :
  heap w !! p = Some pl →
  ∃ err w',
    Init E L p config params keepLogin w = (Done err, w')
    ∧ (err = None →
       ∃ proto pl',
         as_string (params !! "protocol") = Some proto
         ∧ is_san_protocol proto = true
         ∧ heap w' !! p = Some pl'
         ∧ protocol pl' = proto
         ∧ storageOnline pl' = true
         ∧ alua pl' = default ∅ (as_map (params !! "ALUA"))
         ∧ (proto = "roce" ∨ proto = "fc-nvme" → product pl' = "DoradoV6")
         ∧ (if bool_decide (proto = "iscsi") || bool_decide (proto = "roce")
            then ∃ configured, as_list (params !! "portals") = Some configured
                               ∧ env_VerifyIscsiPortals E configured = (portals pl', None)
            else portals pl' = portals pl)
         ∧ clientCount pl' = clientCount pl
         ∧ metroRemotePlugin pl' = metroRemotePlugin pl
         ∧ replicaRemotePlugin pl' = replicaRemotePlugin pl).
Proof.
  intros Hp. run_init Hp.
  destruct (as_string (params !! "protocol")) as [proto|] eqn:Hproto; [|by eexists _, _].
  destruct (is_san_protocol proto) eqn:Hsan; simpl; [|by eexists _, _].
  run_init Hp.
  destruct (bool_decide (proto = "iscsi") || bool_decide (proto = "roce")) eqn:Hip; simpl.
  - destruct (as_list (params !! "portals")) as [configured|] eqn:Hl; simpl; [|by eexists _, _].
    destruct (env_VerifyIscsiPortals E configured) as [IPs [e|]] eqn:Hv; simpl;
      [by eexists _, _|].
    run_init Hp.
    match goal with
    | |- context [lib_init L ?a ?b ?c ?d ?e] =>
        destruct (lib_init L a b c d e) as [[prod c'] [e'|]] eqn:Hi
    end; simpl; [by eexists _, _|].
    run_init Hp.
    destruct ((bool_decide (proto = "roce") || bool_decide (proto = "fc-nvme"))
              && negb (bool_decide (prod = "DoradoV6"))) eqn:Hnv; simpl; [by eexists _, _|].
    eexists _, _. split; [done|]. intros _. exists proto. eexists.
    run_init Hp. rewrite Hip. repeat split; try done.
    + intros Hr. apply andb_false_iff in Hnv as [Hnv|Hnv].
      * apply orb_false_iff in Hnv as [H1 H2].
        apply bool_decide_eq_false in H1, H2. by destruct Hr.
      * apply negb_false_iff, bool_decide_eq_true in Hnv. done.
    + by exists configured.
  - run_init Hp.
    match goal with
    | |- context [lib_init L ?a ?b ?c ?d ?e] =>
        destruct (lib_init L a b c d e) as [[prod c'] [e'|]] eqn:Hi
    end; simpl; [by eexists _, _|].
    run_init Hp.
    destruct ((bool_decide (proto = "roce") || bool_decide (proto = "fc-nvme"))
              && negb (bool_decide (prod = "DoradoV6"))) eqn:Hnv; simpl; [by eexists _, _|].
    eexists _, _. split; [done|]. intros _. exists proto. eexists.
    run_init Hp. rewrite Hip. repeat split; try done.
    intros Hr. apply andb_false_iff in Hnv as [Hnv|Hnv].
    + apply orb_false_iff in Hnv as [H1 H2].
      apply bool_decide_eq_false in H1, H2. by destruct Hr.
    + apply negb_false_iff, bool_decide_eq_true in Hnv. done.
Qed.

Lemma Init_success_witness :
  let E := FixturesRest.env ∅ None [] in
  let L := FixturesRest.lib "DoradoV6" None (None, None) FixturesRest.rest in
  ∃ err w', Init E L 0 ∅ FixturesRest.iscsiParams false Fixtures.alone = (Done err, w').
Proof.
  intros E L.
  destruct (Init_success E L 0 ∅ FixturesRest.iscsiParams false Fixtures.alone
              (Fixtures.san None true 0 10)) as (err & w' & Hr & _).
  - reflexivity.
  - by exists err, w'.
Defined.

Ltac init_fail Hp :=
  split;
  [ eexists; split;
    [ simpl; first [ exact Hp | apply lookup_insert_eq ] | done ]
  | first [ done | intros; congruence ] ].

(** X7: a failed Init never marks the plugin online.  When Init returns an
    error, the plugin's online flag, its protocol, its holder count and its
    bonds are what they were (the ALUA settings, the portals and the base
    plugin's fields may already have been replaced); and when the error is
    about the protocol, nothing at all has changed. *)
Theorem Init_failure E L p config params keepLogin w pl e w' :
  heap w !! p = Some pl →
  Init E L p config params keepLogin w = (Done (Some e), w') →
  (∃ pl', heap w' !! p = Some pl'
          ∧ storageOnline pl' = storageOnline pl
          ∧ protocol pl' = protocol pl
          ∧ clientCount pl' = clientCount pl
          ∧ metroRemotePlugin pl' = metroRemotePlugin pl
          ∧ replicaRemotePlugin pl' = replicaRemotePlugin pl)
  ∧ (match as_string (params !! "protocol") with
     | Some proto => is_san_protocol proto = false
     | None => True
     end → w' = w).
Proof.
  intros Hp. run_init Hp.
  destruct (as_string (params !! "protocol")) as [proto|] eqn:Hproto;
    [|intros [= <- <-]; split; [by exists pl|done]].
  destruct (is_san_protocol proto) eqn:Hsan; simpl;
    [|intros [= <- <-]; split; [by exists pl|done]].
  run_init Hp.
  destruct (bool_decide (proto = "iscsi") || bool_decide (proto = "roce")) eqn:Hip; simpl.
  - destruct (as_list (params !! "portals")) as [configured|] eqn:Hl; simpl;
      [|intros [= <- <-]; init_fail Hp].
    destruct (env_VerifyIscsiPortals E configured) as [IPs [e1|]] eqn:Hv; simpl;
      [intros [= <- <-]; init_fail Hp|].
    run_init Hp.
    match goal with
    | |- context [lib_init L ?a ?b ?c ?d ?e] =>
        destruct (lib_init L a b c d e) as [[prod c'] [e'|]] eqn:Hi
    end; simpl;
      [intros [= <- <-]; init_fail Hp|].
    run_init Hp.
    destruct ((bool_decide (proto = "roce") || bool_decide (proto = "fc-nvme"))
              && negb (bool_decide (prod = "DoradoV6"))) eqn:Hnv; simpl; [|done].
    intros [= <- <-]. init_fail Hp.
  - run_init Hp.
    match goal with
    | |- context [lib_init L ?a ?b ?c ?d ?e] =>
        destruct (lib_init L a b c d e) as [[prod c'] [e'|]] eqn:Hi
    end; simpl;
      [intros [= <- <-]; init_fail Hp|].
    run_init Hp.
    destruct ((bool_decide (proto = "roce") || bool_decide (proto = "fc-nvme"))
              && negb (bool_decide (prod = "DoradoV6"))) eqn:Hnv; simpl; [|done].
    intros [= <- <-]. init_fail Hp.
Qed.

Lemma Init_failure_witness :
  let E := FixturesRest.env ∅ None [] in
  let L := FixturesRest.lib "DoradoV6" (Some (errors_New "login failed")) (None, None)
             FixturesRest.rest in
  let w := mkWorld (<[0 := Fixtures.san None false 0 10]> ∅) 12 [] in
  ∃ pl', heap (Init E L 0 ∅ FixturesRest.iscsiParams false w).2 !! 0 = Some pl'
         ∧ storageOnline pl' = false.
Proof.
  intros E L w.
  destruct (Init_failure E L 0 ∅ FixturesRest.iscsiParams false w
              (Fixtures.san None false 0 10) (errors_New "login failed")
              (Init E L 0 ∅ FixturesRest.iscsiParams false w).2)
    as [(pl' & Hp & Ho & _) _].
  - reflexivity.
  - vm_compute. reflexivity.
  - exists pl'. split; [exact Hp|exact Ho].
Defined.

(** X8: Validate and Init check the parameters alike.  For a configuration
    whose parameters are a map, [verifyOceanstorSanParam] accepts it exactly
    when Init with these parameters gets as far as the base plugin's
    [init]: the same protocols, the same need for portals, the same
    verification of the portals. *)
Theorem Validate_agrees_with_Init E L config params w p keepLogin cfg w0 pl :
  config !! "parameters" = Some (VMap params) →
  heap w0 !! p = Some pl →
  (verifyOceanstorSanParam E config w).1 = Done None
  ↔ Exists (λ e, is_init_call e = true) (added (Init E L p cfg params keepLogin) w0).
Proof.
  intros Hc Hp. unfold verifyOceanstorSanParam, added. rewrite Hc. simpl.
  run_init Hp.
  destruct (as_string (params !! "protocol")) as [proto|] eqn:Hproto; simpl;
    [|rewrite drop_all; split; [done|by intros ?%Exists_nil]].
  destruct (is_san_protocol proto) eqn:Hsan; simpl;
    [|rewrite drop_all; split; [done|by intros ?%Exists_nil]].
  run_init Hp.
  destruct (bool_decide (proto = "iscsi") || bool_decide (proto = "roce")) eqn:Hip; simpl.
  - destruct (as_list (params !! "portals")) as [configured|] eqn:Hl; simpl;
      [|rewrite drop_all; split; [done|by intros ?%Exists_nil]].
    destruct (env_VerifyIscsiPortals E configured) as [IPs [e1|]] eqn:Hv; simpl;
      [rewrite drop_all; split; [done|by intros ?%Exists_nil]|].
    run_init Hp. split; [intros _|done].
    match goal with
    | |- context [lib_init L ?a ?b ?c ?d ?e] =>
        destruct (lib_init L a b c d e) as [[prod c'] [e'|]] eqn:Hi
    end; simpl.
    + rewrite drop_app_length. by constructor.
    + run_init Hp. case_match; simpl; rewrite <- ?app_assoc, drop_app_length; by constructor.
  - run_init Hp. split; [intros _|done].
    match goal with
    | |- context [lib_init L ?a ?b ?c ?d ?e] =>
        destruct (lib_init L a b c d e) as [[prod c'] [e'|]] eqn:Hi
    end; simpl.
    + rewrite drop_app_length. by constructor.
    + run_init Hp. case_match; simpl; rewrite <- ?app_assoc, drop_app_length; by constructor.
Qed.

Lemma Validate_agrees_with_Init_witness :
  let E := FixturesRest.env ∅ None [] in
  let L := FixturesRest.lib "DoradoV6" None (None, None) FixturesRest.rest in
  Exists (λ e, is_init_call e = true)
    (added (Init E L 0 ∅ FixturesRest.iscsiParams false) Fixtures.alone).
Proof.
  intros E L.
  apply (proj1 (Validate_agrees_with_Init E L
                  (<["parameters" := VMap FixturesRest.iscsiParams]> ∅)
                  FixturesRest.iscsiParams Fixtures.alone 0 false ∅ Fixtures.alone
                  (Fixtures.san None true 0 10) (lookup_insert_eq _ _ _) eq_refl)).
  vm_compute. reflexivity.
Defined.

(* ================================================================== *)
(** ** oceanstor-dtree, the rest                                       *)
(* ================================================================== *)

Lemma pool_fold (names : list string) (acc : gomap) (k : string) :
  foldl (λ capabilities poolName, <[poolName := VMap DTreeRest.defaultMap]> capabilities)
    acc names !! k
  = if bool_decide (k ∈ names) then Some (VMap DTreeRest.defaultMap) else acc !! k.
Proof.
  revert acc. induction names as [|n names IH]; intros acc; simpl.
  - first [done | case_bool_decide; [set_solver|done]].
  - rewrite IH.
    destruct (decide (k ∈ names)) as [Hin|Hin].
    + rewrite (bool_decide_eq_true_2 (k ∈ names)) by done.
      rewrite (bool_decide_eq_true_2 (k ∈ n :: names)); [done|by right].
    + rewrite (bool_decide_eq_false_2 (k ∈ names)) by done.
      destruct (decide (k = n)) as [->|Hne].
      * rewrite lookup_insert_eq.
        rewrite (bool_decide_eq_true_2 (n ∈ n :: names)); [done|by left].
      * rewrite lookup_insert_ne by done.
        rewrite (bool_decide_eq_false_2 (k ∈ n :: names)); [done|].
        by intros [?|?]%elem_of_cons.
Qed.

(** X9: the pool capabilities of a dtree backend are a placeholder.  The
    answer has an entry for exactly the pool names asked for, every entry
    is the map with the single key FreeCapacity at 0, and there is never an
    error; repeated names make no difference. *)
Theorem DTree_pool_capabilities (poolNames : list string) (k : string) :
  (DTreeRest.UpdatePoolCapabilities poolNames).2 = None
  ∧ (DTreeRest.UpdatePoolCapabilities poolNames).1 !! k
    = if bool_decide (k ∈ poolNames)
      then Some (VMap (<["FreeCapacity" := VInt 0]> ∅)) else None.
Proof.
  split; [done|]. unfold DTreeRest.UpdatePoolCapabilities. simpl.
  rewrite pool_fold. by rewrite lookup_empty.
Qed.

(** Reads a key off a pile of inserts. *)
Ltac lookup_inserts :=
  repeat first [ rewrite lookup_insert_eq | rewrite lookup_insert_ne by done ].

Lemma updateNFS4Capability_eq L c caps w :
  ∃ w', extends_by_one w w'
  ∧ DTreeRest.updateNFS4Capability L c (Some caps) w
    = match lib_GetNFSServiceSetting L c (trace w) with
      | (_, Some err) => (Done (Some caps, Some err), w')
      | (nfs, None) =>
          (Done (Some (<["SupportNFS41" := VBool (DTreeRest.setting nfs "SupportNFS41")]>
                         (<["SupportNFS4" := VBool (DTreeRest.setting nfs "SupportNFS4")]>
                            (<["SupportNFS3" := VBool (DTreeRest.setting nfs "SupportNFS3")]>
                               caps))), None), w')
      end.
Proof.
  unfold DTreeRest.updateNFS4Capability, DTreeRest.GetNFSServiceSetting, called. crunch.
  exists (extend w (EvPluginCall "GetNFSServiceSetting" []
                      (lib_GetNFSServiceSetting L c (trace w)).2)).
  split; [by eexists|].
  destruct (lib_GetNFSServiceSetting L c (trace w)) as [nfs [e|]]; simpl; [done|].
  match goal with
  | |- (Done (Some ?a, _), _) = (Done (Some ?b, _), _) =>
      assert (a = b) as Heq; [|by rewrite Heq]
  end.
  apply map_eq. intros k.
  destruct (decide ("SupportNFS41" = k)) as [<-|?];
    [|destruct (decide ("SupportNFS4" = k)) as [<-|?];
      [|destruct (decide ("SupportNFS3" = k)) as [<-|?]]];
    destruct (DTreeRest.setting nfs "SupportNFS3"), (DTreeRest.setting nfs "SupportNFS4"),
      (DTreeRest.setting nfs "SupportNFS41"); simpl; by lookup_inserts.
Qed.

(** X10: what a dtree backend reports.  When the base plugin reports a
    capability map without an error and the array answers the query for
    its NFS service setting, UpdateBackendCapabilities returns the base
    plugin's map and specifications with four entries overwritten: the
    label switch is off, and each of SupportNFS3, SupportNFS4 and
    SupportNFS41 is the array's setting, a setting the array does not
    mention counting as off (also for NFS3). *)
Theorem DTree_capability_report L label p w reported specs nfs :
  let c := DTree.cli (DTreeRest.fields p) in
  label ∉ ["SupportNFS3"; "SupportNFS4"; "SupportNFS41"] →
  lib_baseCapabilities L c (trace w) = (Some reported, specs, None) →
  lib_GetNFSServiceSetting L c
    (trace w ++ [EvPluginCall "OceanstorPlugin.UpdateBackendCapabilities" [] None])
  = (nfs, None) →
  ∃ caps w',
    DTreeRest.UpdateBackendCapabilities L label p w = (Done (Some caps, specs, None), w')
    ∧ caps !! label = Some (VBool false)
    ∧ caps !! "SupportNFS3" = Some (VBool (default false (nfs !! "SupportNFS3")))
    ∧ caps !! "SupportNFS4" = Some (VBool (default false (nfs !! "SupportNFS4")))
    ∧ caps !! "SupportNFS41" = Some (VBool (default false (nfs !! "SupportNFS41")))
    ∧ ∀ k, k ∉ [label; "SupportNFS3"; "SupportNFS4"; "SupportNFS41"] →
           caps !! k = reported !! k.
Proof.
  intros c Hlabel Hb Hn.
  unfold DTreeRest.UpdateBackendCapabilities, DTreeRest.base_UpdateBackendCapabilities, called.
  crunch. fold c. rewrite Hb. simpl.
  destruct (updateNFS4Capability_eq L c (<[label := VBool false]> reported)
              (extend w (EvPluginCall "OceanstorPlugin.UpdateBackendCapabilities" [] None)))
    as (w' & _ & Hu).
  unfold extend in Hu. simpl in Hu. rewrite Hn in Hu.
  unfold extend. simpl. rewrite Hu. simpl.
  eexists _, _. split; [done|].
  assert (label ≠ "SupportNFS3" ∧ label ≠ "SupportNFS4" ∧ label ≠ "SupportNFS41")
    as (H3 & H4 & H41).
  { repeat split; intros ->; apply Hlabel; set_solver. }
  repeat split.
  - by rewrite !lookup_insert_ne, lookup_insert_eq by done.
  - by rewrite !lookup_insert_ne, lookup_insert_eq by done.
  - by rewrite lookup_insert_ne, lookup_insert_eq by done.
  - by rewrite lookup_insert_eq.
  - intros k Hk. rewrite !lookup_insert_ne; [done|intros <-; apply Hk; set_solver..].
Qed.

Lemma DTree_capability_report_witness :
  let L := FixturesRest.lib EmptyString None (None, None) FixturesRest.rest in
  ∃ caps w',
    DTreeRest.UpdateBackendCapabilities L "SupportLabel" FixturesRest.dtree Fixtures.alone
    = (Done (Some caps, Some ∅, None), w')
    ∧ caps !! "SupportLabel" = Some (VBool false)
    ∧ caps !! "SupportNFS3" = Some (VBool false)
    ∧ caps !! "SupportNFS4" = Some (VBool true).
Proof.
  intros L.
  destruct (DTree_capability_report L "SupportLabel" FixturesRest.dtree Fixtures.alone
              (<["SupportQoS" := VBool true]> ∅) (Some ∅) (<["SupportNFS4" := true]> ∅))
    as (caps & w' & Hr & Hl & H3 & H4 & _).
  - rewrite !not_elem_of_cons. repeat split; try discriminate. apply not_elem_of_nil.
  - reflexivity.
  - reflexivity.
  - exists caps, w'. repeat split; assumption.
Defined.

(** X11: a dtree capability report is all or nothing.  An error from the
    base plugin or from the NFS query comes with no map at all; a report
    without an error always carries a capability map; and the call
    panics exactly when the base plugin answers with neither a capability
    map nor an error, as the label switch is written into the map it
    returned.  Case by case: an error of the base plugin is returned
    without asking for the NFS setting; a map without an error leads to the
    NFS query, whose error is returned, or else to a report with the base
    plugin's specifications. *)
Theorem DTree_capabilities_all_or_nothing L label p w :
  let c := DTree.cli (DTreeRest.fields p) in
  let run := (DTreeRest.UpdateBackendCapabilities L label p w).1 in
  match run with
  | Done (caps, specs, Some _) => caps = None ∧ specs = None
  | Done (caps, _, None) => is_Some caps
  | Panic _ => ∃ specs, lib_baseCapabilities L c (trace w) = (None, specs, None)
  end
  ∧ ((∃ msg, run = Panic msg)
     ↔ ∃ specs, lib_baseCapabilities L c (trace w) = (None, specs, None))
  ∧ match lib_baseCapabilities L c (trace w) with
    | (_, _, Some e) => run = Done (None, None, Some e)
    | (None, _, None) => ∃ msg, run = Panic msg
    | (Some _, specs, None) =>
        match lib_GetNFSServiceSetting L c
                (trace w ++ [EvPluginCall "OceanstorPlugin.UpdateBackendCapabilities" []
                               None]) with
        | (_, Some e) => run = Done (None, None, Some e)
        | (_, None) => ∃ caps, run = Done (Some caps, specs, None)
        end
    end.
Proof.
  intros c run. unfold run.
  unfold DTreeRest.UpdateBackendCapabilities, DTreeRest.base_UpdateBackendCapabilities, called.
  crunch. fold c.
  destruct (lib_baseCapabilities L c (trace w)) as [[[reported|] specs] [e|]] eqn:Hb; simpl.
  - split; [done|]. split; [|done]. split; [by intros [? ?]|by intros [? ?]].
  - match goal with
    | |- context [DTreeRest.updateNFS4Capability L c (Some ?m) ?v] =>
        destruct (updateNFS4Capability_eq L c m v) as (w' & _ & Hu); rewrite Hu
    end.
    simpl. destruct (lib_GetNFSServiceSetting L c _) as [nfs [e|]]; simpl.
    + split; [done|]. split; [|done]. split; [by intros [? ?]|by intros [? ?]].
    + split; [by eexists|]. split; [|by eexists].
      split; [by intros [? ?]|by intros [? ?]].
  - split; [done|]. split; [|done]. split; [by intros [? ?]|by intros [? ?]].
  - split; [by eexists|]. split; [|by eexists]. split; [by eexists|by eexists].
Qed.

Lemma DTree_capabilities_all_or_nothing_witness :
  let L := mkLib (λ _ _ product c _, (product, c, None)) (λ _ _ c vStore _, (c, vStore, None))
             (λ _ _, (None, None, None)) (λ _ _, (∅, None)) (λ _ _ _, (None, None))
             (λ _ _, (∅, None)) (λ _ qos, (qos, None)) FixturesRest.atoi (λ s, s)
             (λ _, ("{}", None)) (λ _, EmptyString) (λ _ _, false) (λ _, FixturesRest.rest) in
  ∃ msg, (DTreeRest.UpdateBackendCapabilities L "SupportLabel" FixturesRest.dtree
            Fixtures.alone).1 = Panic msg.
Proof.
  intros L.
  apply (proj2 (proj1 (proj2 (DTree_capabilities_all_or_nothing L "SupportLabel"
                                FixturesRest.dtree Fixtures.alone)))).
  by exists None.
Defined.

(** X12: which dtree is deleted.  When the registry holds a dtree backend
    under the name in the volume id, DeleteVolume of the driver reaches the
    volume package with the name from the volume id and with the parent
    name and the vStore of the plugin: the parent name in the backend's own
    parameters, which the driver passes along, never gets there.  The
    answer is a success exactly when that call returns nil, and its error
    otherwise, with the code Internal. *)
Theorem DTree_delete_names_from_plugin E req p detach backend w :
  let names := env_SplitVolumeId E (Driver.dv_VolumeId req) in
  let params := <["parentname" := VString (DTree.parentName (DTreeRest.fields p))]>
                  (<["vstoreid" := VString (DTreeRest.vStoreId p)]>
                     (<["name" := VString names.2]> ∅)) in
  (∀ tr, env_GetBackendWithFresh E names.1 tr = Some backend) →
  Storage backend = DTree.DTreeStorage →
  BackendPlugin backend = DTreeRest.DTreePlugin E p detach →
  ∃ err r w',
    Driver.DeleteVolume E req w = (Done r, w')
    ∧ EvPluginCall "DTree.Delete" [VMap params] err ∈ added (Driver.DeleteVolume E req) w
    ∧ r = match err with
          | None => (Some Driver.mkDeleteVolumeResponse, None)
          | Some e => (None, Some (Driver.Internal, e))
          end.
Proof.
  intros names params Hreg Hst Hpl.
  assert (Hparams : <["parentname" := VString (DTree.parentName (DTreeRest.fields p))]>
                      (<["vstoreid" := VString (DTreeRest.vStoreId p)]>
                         (<["parentname" := index (Parameters backend) "parentname"]>
                            (<["name" := VString names.2]> ∅))) = params).
  { apply map_eq. intros k. unfold params.
    destruct (decide ("parentname" = k)) as [<-|?]; [by rewrite !lookup_insert_eq|].
    rewrite !(lookup_insert_ne _ "parentname") by done.
    destruct (decide ("vstoreid" = k)) as [<-|?]; [by rewrite !lookup_insert_eq|].
    by rewrite !(lookup_insert_ne _ "vstoreid"), (lookup_insert_ne _ "parentname") by done. }
  unfold added, Driver.DeleteVolume, Driver.GetBackendWithFresh. crunch.
  fold names. rewrite Hreg. simpl. rewrite Hst. simpl. rewrite Hpl. simpl.
  unfold DTreeRest.DeleteDTreeVolume, volume_call. crunch. rewrite Hparams.
  match goal with
  | |- context [env_volume E ?m ?a ?t] => destruct (env_volume E m a t) as [e|] eqn:Hv
  end; simpl.
  - exists (Some e). eexists _, _. split; [done|split; [|done]].
    rewrite <- !app_assoc, drop_app_length. simpl. set_solver.
  - exists None. eexists _, _. split; [done|split; [|done]].
    rewrite <- !app_assoc, drop_app_length. simpl. set_solver.
Qed.

Lemma DTree_delete_names_from_plugin_witness :
  let detach : string → gomap → M error := λ _ _, ret None in
  let backend := mkBackend DTree.DTreeStorage (<["parentname" := VString "other"]> ∅)
                   (DTreeRest.DTreePlugin (FixturesRest.env ∅ None []) FixturesRest.dtree
                      detach) in
  let E := FixturesRest.env ∅ (Some backend) [] in
  ∃ err,
    EvPluginCall "DTree.Delete"
      [VMap (<["parentname" := VString "parent1"]>
               (<["vstoreid" := VString "4"]> (<["name" := VString "b1.v1"]> ∅)))] err
    ∈ added (Driver.DeleteVolume E (Driver.mkDeleteVolumeRequest "b1.v1")) Fixtures.alone.
Proof.
  intros detach backend E.
  destruct (DTree_delete_names_from_plugin E (Driver.mkDeleteVolumeRequest "b1.v1")
              FixturesRest.dtree detach backend Fixtures.alone)
    as (err & r & w' & _ & Hin & _).
  - intros tr. reflexivity.
  - reflexivity.
  - reflexivity.
  - exists err. exact Hin.
Defined.

(** X13: what Init of a dtree plugin leaves.  Init returns.  Either the
    parameters are refused before anything happens: the plugin and the
    world are what they were and the error is not nil; or the parameters
    name exactly one portal, and then, whatever the base plugin's [init]
    answers, the plugin's portal is that portal and its parent name is the
    one in the parameters (empty when there is none), and the base
    plugin's [init] has been called. *)
Theorem DTree_Init_result E L p config params keepLogin w :
  ∃ p' err w',
    DTreeRest.Init E L p config params keepLogin w = (Done (p', err), w')
    ∧ ((p' = p ∧ w' = w ∧ err ≠ None)
       ∨ (∃ portal0,
            as_list (params !! "portals") = Some [portal0]
            ∧ DTree.portal (DTreeRest.fields p') = (env_ToStringWithFlag E portal0).1
            ∧ DTree.parentName (DTreeRest.fields p')
              = (env_ToStringWithFlag E (index params "parentname")).1
            ∧ Exists (λ e, is_init_call e = true)
                (added (DTreeRest.Init E L p config params keepLogin) w))).
Proof.
  unfold added, DTreeRest.Init, DTreeRest.base_init, called. crunch.
  destruct (negb _ || negb _); simpl; [eexists _, _, _; split; [done|by left]|].
  destruct (params !! "portals") as [v|] eqn:Hv; simpl;
    [|eexists _, _, _; split; [done|by left]].
  destruct v as [| | | |[|portal0 [|]]| |]; simpl;
    try (eexists _, _, _; split; [done|by left]).
  match goal with
  | |- context [lib_dtree_init L ?a ?b ?c ?d ?e] =>
      destruct (lib_dtree_init L a b c d e) as [[c' v'] [e'|]] eqn:Hi
  end; simpl; eexists _, _, _; (split; [done|right]); exists portal0;
    (split; [done|split; [done|split; [done|]]]);
    rewrite <- ?app_assoc, drop_app_length; by constructor.
Qed.

(** X14: Validate of a dtree backend is stricter than Init by two checks.
    For a configuration whose parameters are a map,
    [verifyOceanstorDTreeParam] accepts it exactly when the storage is
    oceanstor-dtree, a non-empty parent name is configured, and Init with
    these parameters gets as far as the base plugin's [init].  Init itself
    asks for neither of the first two: it gets that far exactly when the
    protocol is nfs and the portals are a list of one, whatever the storage
    and the parent name are. *)
Theorem DTree_Validate_stricter_than_Init E L p cfg config params keepLogin w w0 :
  config !! "parameters" = Some (VMap params) →
  let reaches :=
    Exists (λ e, is_init_call e = true)
      (added (DTreeRest.Init E L p cfg params keepLogin) w0) in
  ((DTree.verifyOceanstorDTreeParam E config w).1 = Done None
   ↔ env_ToStringWithFlag E (index config "storage") = (DTree.DTreeStorage, true)
     ∧ (∃ parentName, env_ToStringWithFlag E (index params "parentname") = (parentName, true)
                      ∧ parentName ≠ EmptyString)
     ∧ reaches)
  ∧ (reaches
     ↔ env_ToStringWithFlag E (index params "protocol") = ("nfs", true)
       ∧ ∃ portal0, params !! "portals" = Some (VList [portal0])).
Proof.
  intros Hc reaches. unfold reaches.
  unfold added, DTree.verifyOceanstorDTreeParam, DTree.failed, DTreeRest.Init,
    DTreeRest.base_init, called.
  rewrite Hc. crunch.
  assert (Hreach :
    Exists (λ e, is_init_call e = true)
      (drop (length (trace w0))
         (trace (DTreeRest.Init E L p cfg params keepLogin w0).2))
    ↔ env_ToStringWithFlag E (index params "protocol") = ("nfs", true)
      ∧ ∃ portal0, params !! "portals" = Some (VList [portal0])).
  { unfold DTreeRest.Init, DTreeRest.base_init, called. crunch.
    destruct (env_ToStringWithFlag E (index params "protocol")) as [pr [|]]; simpl;
      [|rewrite drop_all; split; [by intros ?%Exists_nil|by intros [[=] _]]].
    case_bool_decide as Hpr; simpl;
      [subst pr|rewrite drop_all; split; [by intros ?%Exists_nil|by intros [[=] _]]].
    destruct (params !! "portals") as [v|] eqn:Hv; simpl;
      [|rewrite drop_all; split; [by intros ?%Exists_nil|by intros (_ & ? & [=])]].
    destruct v as [| | | |[|portal0 [|]]| |]; simpl;
      try (rewrite drop_all; split; [by intros ?%Exists_nil|by intros (_ & ? & [=])]).
    split; [intros _; split; [done|by eexists]|intros _].
    match goal with
    | |- context [lib_dtree_init L ?a ?b ?c ?d ?e] =>
        destruct (lib_dtree_init L a b c d e) as [[c' v'] [e'|]] eqn:Hi
    end; simpl; rewrite <- ?app_assoc, drop_app_length; by constructor. }
  unfold DTreeRest.Init, DTreeRest.base_init, called in Hreach. crunch.
  split; [|exact Hreach].
  rewrite Hreach. clear Hreach.
  destruct (env_ToStringWithFlag E (index config "storage")) as [st [|]]; simpl;
    [|split; [done|by intros [[=] _]]].
  case_bool_decide as Hst; simpl; [subst st|split; [done|by intros [[=] _]]].
  destruct (env_ToStringWithFlag E (index params "parentname")) as [pn [|]]; simpl;
    [|split; [done|by intros (_ & (? & [=] & _) & _)]].
  case_bool_decide as Hpn; simpl;
    [split; [done|by intros (_ & (? & [= <-] & ?) & _)]|].
  destruct (env_ToStringWithFlag E (index params "protocol")) as [pr [|]]; simpl;
    [|split; [done|by intros (_ & _ & [=] & _)]].
  case_bool_decide as Hpr; simpl;
    [subst pr|split; [done|by intros (_ & _ & [=] & _)]].
  destruct (params !! "portals") as [v|] eqn:Hv; simpl;
    [|split; [done|by intros (_ & _ & _ & ? & [=])]].
  destruct v as [| | | |[|portal0 [|]]| |]; simpl;
    try (split; [done|by intros (_ & _ & _ & ? & [=])]).
  split; [intros _|done].
  split; [done|]. split; [by eexists|]. split; [done|by eexists].
Qed.

Lemma DTree_Validate_stricter_than_Init_witness :
  let E := FixturesRest.env ∅ None [] in
  let L := FixturesRest.lib EmptyString None (None, None) FixturesRest.rest in
  let params : gomap :=
    <["protocol" := VString "nfs"]> (<["portals" := VList [VString "192.168.0.9"]]> ∅) in
  let config : gomap :=
    <["storage" := VString "oceanstor-dtree"]> (<["parameters" := VMap params]> ∅) in
  Exists (λ e, is_init_call e = true)
    (added (DTreeRest.Init E L FixturesRest.dtree ∅ params false) Fixtures.alone)
  ∧ (DTree.verifyOceanstorDTreeParam E config Fixtures.alone).1 ≠ Done None.
Proof.
  intros E L params config.
  assert (Hc : config !! "parameters" = Some (VMap params)) by (vm_compute; reflexivity).
  destruct (DTree_Validate_stricter_than_Init E L FixturesRest.dtree ∅ config params false
              Fixtures.alone Fixtures.alone Hc) as [Hverify Hinit].
  split.
  - apply Hinit. split; [vm_compute; reflexivity|].
    exists (VString "192.168.0.9"). vm_compute. reflexivity.
  - intros Hacc. apply Hverify in Hacc as (_ & (parentName & Hp & _) & _).
    vm_compute in Hp. discriminate Hp.
Defined.

(* ================================================================== *)
(** ** controller.go, the rest                                         *)
(* ================================================================== *)

(** X15: expansion support is refused only with a reason.
    [isSupportExpandVolume] returns; its answer is false exactly when it
    comes with an error, so the caller's [err.Error()] never meets nil; the
    storages fusionstorage-nas, oceanstor-nas and oceanstor-dtree are
    supported whatever the request says; any other storage is supported
    exactly when the request has a volume capability that is neither
    ReadOnlyMany nor ReadWriteMany without a block volume; and the store of
    plugins is left alone. *)
Theorem isSupportExpandVolume_answer req b w :
  let nas := bool_decide (Storage b ∈ ["fusionstorage-nas"; "oceanstor-nas"; "oceanstor-dtree"]) in
  ∃ ok err w',
    Controller.isSupportExpandVolume req b w = (Done (ok, err), w')
    ∧ (ok = true ↔ err = None)
    ∧ heap w' = heap w ∧ nextClient w' = nextClient w
    ∧ ok = nas
           || match Controller.ce_VolumeCapability req with
              | None => false
              | Some cap =>
                  negb (bool_decide (Controller.Mode cap = Controller.MULTI_NODE_READER_ONLY))
                  && (negb (bool_decide (Controller.Mode cap = Controller.MULTI_NODE_MULTI_WRITER))
                      || Controller.HasBlock cap)
              end.
Proof.
  intros nas. unfold Controller.isSupportExpandVolume, Controller.utils_Errorln,
    Controller.log_Debugf, utils_Errorf, called. crunch.
  assert (Hnas : nas = bool_decide (Storage b = "fusionstorage-nas")
                       || bool_decide (Storage b = "oceanstor-nas")
                       || bool_decide (Storage b = "oceanstor-dtree")).
  { unfold nas. repeat case_bool_decide; simpl; try done.
    all: try (exfalso;
              match goal with H : ¬ _ ∈ _, Heq : Storage _ = _ |- _ =>
                apply H; rewrite Heq; by repeat constructor end).
    exfalso.
    repeat match goal with H : _ ∈ _ :: _ |- _ => apply elem_of_cons in H as [?|H] end;
      try done.
    by match goal with H : _ ∈ [] |- _ => apply elem_of_nil in H end. }
  rewrite Hnas. clear Hnas nas.
  destruct (bool_decide (Storage b = "fusionstorage-nas") || bool_decide (Storage b = "oceanstor-nas")
            || bool_decide (Storage b = "oceanstor-dtree")); simpl;
    [by eexists _, _, _|].
  destruct (Controller.ce_VolumeCapability req) as [[blk flags mode]|]; simpl;
    [|by eexists _, _, _].
  destruct mode, blk; simpl; by eexists _, _, _.
Qed.
(** The answer in closed form, with the events it logs. *)
Lemma isSupportExpandVolume_out req b w :
  ∃ ok err evs,
    Controller.isSupportExpandVolume req b w = (Done (ok, err), extends w evs)
    ∧ (ok = true ↔ err = None)
    ∧ ok = bool_decide (Storage b = "fusionstorage-nas")
           || bool_decide (Storage b = "oceanstor-nas")
           || bool_decide (Storage b = "oceanstor-dtree")
           || match Controller.ce_VolumeCapability req with
              | None => false
              | Some cap =>
                  negb (bool_decide (Controller.Mode cap = Controller.MULTI_NODE_READER_ONLY))
                  && (negb (bool_decide (Controller.Mode cap = Controller.MULTI_NODE_MULTI_WRITER))
                      || Controller.HasBlock cap)
              end.
Proof.
  unfold Controller.isSupportExpandVolume, Controller.utils_Errorln,
    Controller.log_Debugf, utils_Errorf, called. crunch.
  destruct (bool_decide (Storage b = "fusionstorage-nas") || bool_decide (Storage b = "oceanstor-nas")
            || bool_decide (Storage b = "oceanstor-dtree")); simpl;
    [by eexists _, _, [_]|].
  destruct (Controller.ce_VolumeCapability req) as [[blk flags mode]|]; simpl;
    [|by eexists _, _, [_]].
  destruct mode, blk; simpl;
    first [ by eexists _, _, [_] | eexists _, _, []; by rewrite app_nil_r; destruct w ].
Qed.

(** X16: ControllerExpandVolume does not panic on its own.  When the two
    expand methods of the backend's plugin return, so does
    ControllerExpandVolume, for every request, registry and world: the
    [err.Error()] it calls when expansion is not supported always has an
    error to read. *)
Theorem ControllerExpandVolume_returns E L req w :
  (∀ name params w1,
     ∃ r w2, plugin_ExpandDTreeVolume (lib_PluginRest L name) params w1 = (Done r, w2)) →
  (∀ name vol size w1,
     ∃ r w2, plugin_ExpandVolume (lib_PluginRest L name) vol size w1 = (Done r, w2)) →
  ∃ r w', Controller.ControllerExpandVolume E L req w = (Done r, w').
Proof.
  intros Hd Hv. unfold Controller.ControllerExpandVolume, Driver.GetBackendWithFresh.
  destruct (bool_decide (Controller.ce_VolumeId req = EmptyString)); [by eexists _, _|].
  crunch.
  destruct (Controller.ce_CapacityRange req) as [range|]; simpl; [|by eexists _, _].
  destruct ((0 <? _)%Z && _); simpl; [by eexists _, _|].
  destruct (env_GetBackendWithFresh E _ _) as [backend|] eqn:Hb; simpl; [|by eexists _, _].
  match goal with
  | |- context [Controller.isSupportExpandVolume req backend ?v] =>
      destruct (isSupportExpandVolume_out req backend v) as (ok & err & evs & Hs & Hok & _);
        rewrite Hs
  end.
  destruct ok; simpl.
  - destruct (bool_decide (Storage backend = DTree.DTreeStorage)).
    + match goal with
      | |- context [plugin_ExpandDTreeVolume (lib_PluginRest L ?n) ?a ?v] =>
          destruct (Hd n a v) as ([nr [e|]] & w2 & Hr); rewrite Hr
      end; by eexists _, _.
    + match goal with
      | |- context [plugin_ExpandVolume (lib_PluginRest L ?n) ?a ?b ?v] =>
          destruct (Hv n a b v) as ([nr [e|]] & w2 & Hr); rewrite Hr
      end; by eexists _, _.
  - destruct err as [e|]; [by eexists _, _|].
    destruct Hok as [_ Hk]. by specialize (Hk eq_refl).
Qed.

Lemma ControllerExpandVolume_returns_witness :
  let E := FixturesRest.env ∅ None [] in
  let L := FixturesRest.lib EmptyString None (None, None) FixturesRest.rest in
  ∃ r w',
    Controller.ControllerExpandVolume E L
      (Controller.mkControllerExpandVolumeRequest "b1.v1"
         (Some (Controller.mkCapacityRange 1024 0)) None) Fixtures.alone
    = (Done r, w').
Proof.
  intros E L.
  apply (ControllerExpandVolume_returns E L).
  - intros name params w1. eexists _, _. reflexivity.
  - intros name vol size w1. eexists _, _. reflexivity.
Defined.

(** X17: a malformed expand request stops before the registry.  With an
    empty volume id, without a capacity range, or with a limit that is
    positive and below the required size, ControllerExpandVolume answers
    InvalidArgument, leaves the store of plugins alone and asks neither the
    registry nor a plugin: all it adds to the trace is its opening log line,
    and not even that for an empty volume id. *)
Theorem ControllerExpandVolume_rejects_early E L req w :
  Controller.ce_VolumeId req = EmptyString
  ∨ Controller.ce_CapacityRange req = None
  ∨ (∃ range, Controller.ce_CapacityRange req = Some range
              ∧ (0 < Controller.LimitBytes range < Controller.RequiredBytes range)%Z) →
  ∃ msg w',
    Controller.ControllerExpandVolume E L req w
    = (Done (None, Some (Driver.InvalidArgument, errors_New msg)), w')
    ∧ heap w' = heap w ∧ nextClient w' = nextClient w
    ∧ added (Controller.ControllerExpandVolume E L req) w
      = if bool_decide (Controller.ce_VolumeId req = EmptyString) then []
        else [EvLog Info "Start to controller expand volume %s"
                [VString (Controller.ce_VolumeId req)]].
Proof.
  intros H. unfold added, Controller.ControllerExpandVolume.
  case_bool_decide as Hid; [eexists _, _; repeat split; by rewrite drop_all|].
  crunch. destruct H as [?|[Hr|(range & Hr & Hlt)]]; [done|..]; rewrite Hr; simpl.
  - eexists _, _. repeat split. by rewrite drop_app_length.
  - replace (0 <? Controller.LimitBytes range)%Z with true by (symmetry; apply Z.ltb_lt; lia).
    replace (Controller.LimitBytes range <? Controller.RequiredBytes range)%Z with true
      by (symmetry; apply Z.ltb_lt; lia).
    simpl. eexists _, _. repeat split. by rewrite drop_app_length.
Qed.

Lemma ControllerExpandVolume_rejects_early_witness :
  let E := FixturesRest.env ∅ None [] in
  let L := FixturesRest.lib EmptyString None (None, None) FixturesRest.rest in
  let req := Controller.mkControllerExpandVolumeRequest "b1.v1"
               (Some (Controller.mkCapacityRange 10 5)) None in
  added (Controller.ControllerExpandVolume E L req) Fixtures.alone
  = [EvLog Info "Start to controller expand volume %s" [VString "b1.v1"]].
Proof.
  intros E L req.
  destruct (ControllerExpandVolume_rejects_early E L req Fixtures.alone)
    as (msg & w' & _ & _ & _ & Ha).
  - right. right. exists (Controller.mkCapacityRange 10 5). split; [reflexivity|simpl; lia].
  - exact Ha.
Defined.

(** X18: when ControllerExpandVolume answers with a response.  Then there
    is no error beside it, the volume id is not empty, the capacity range
    is there and its limit is not a positive number below the required
    size, the registry had the backend, the storage is one of the three
    file storages or the volume capability allows expansion, and the
    capacity in the response is the required size of the request, whatever
    the plugin did. *)
Theorem ControllerExpandVolume_success E L req w resp st w' :
  Controller.ControllerExpandVolume E L req w = (Done (Some resp, st), w') →
  st = None
  ∧ Controller.ce_VolumeId req ≠ EmptyString
  ∧ ∃ range backend,
      Controller.ce_CapacityRange req = Some range
      ∧ ¬ (0 < Controller.LimitBytes range < Controller.RequiredBytes range)%Z
      ∧ Controller.CapacityBytes resp = Controller.RequiredBytes range
      ∧ env_GetBackendWithFresh E (env_SplitVolumeId E (Controller.ce_VolumeId req)).1
          (trace w ++ [EvLog Info "Start to controller expand volume %s"
                         [VString (Controller.ce_VolumeId req)]])
        = Some backend
      ∧ (Storage backend ∈ ["fusionstorage-nas"; "oceanstor-nas"; "oceanstor-dtree"]
         ∨ ∃ cap, Controller.ce_VolumeCapability req = Some cap
                  ∧ Controller.Mode cap ≠ Controller.MULTI_NODE_READER_ONLY
                  ∧ (Controller.Mode cap = Controller.MULTI_NODE_MULTI_WRITER
                     → Controller.HasBlock cap = true)).
Proof.
  unfold Controller.ControllerExpandVolume, Driver.GetBackendWithFresh.
  case_bool_decide as Hid; [done|]. crunch.
  destruct (Controller.ce_CapacityRange req) as [range|]; simpl; [|done].
  destruct ((0 <? _)%Z && _) eqn:Hlim; simpl; [done|].
  destruct (env_GetBackendWithFresh E _ _) as [backend|] eqn:Hb; simpl; [|done].
  match goal with
  | |- context [Controller.isSupportExpandVolume req backend ?v] =>
      destruct (isSupportExpandVolume_out req backend v) as (ok & err & evs & Hs & Hok & Hf);
        rewrite Hs
  end.
  destruct ok; simpl; [|by destruct err].
  intros H.
  assert (st = None ∧ Controller.CapacityBytes resp = Controller.RequiredBytes range)
    as [-> Hcap].
  { destruct (bool_decide (Storage backend = DTree.DTreeStorage));
      match type of H with
      | context [let (_, _) := ?c in _] => destruct c as [[[nr [e|]]|] w2]
      end; by simplify_eq/=. }
  split; [done|]. split; [done|]. exists range, backend.
  split; [done|]. split.
  { intros [H0 Hl]. apply andb_false_iff in Hlim as [Hlim|Hlim];
      apply Z.ltb_ge in Hlim; lia. }
  split; [done|]. split; [done|].
  symmetry in Hf. apply orb_true_iff in Hf as [Hf|Hf].
  - left. repeat (apply orb_true_iff in Hf as [Hf|Hf]);
      apply bool_decide_eq_true in Hf; rewrite Hf; by repeat constructor.
  - right. destruct (Controller.ce_VolumeCapability req) as [cap|]; [|done].
    exists cap. split; [done|]. apply andb_true_iff in Hf as [Hro Hrw].
    apply negb_true_iff, bool_decide_eq_false in Hro. split; [done|].
    intros Hm. rewrite Hm in Hrw. by rewrite bool_decide_eq_true_2 in Hrw.
Qed.

Lemma ControllerExpandVolume_success_witness :
  let backend := mkBackend "oceanstor-nas" ∅ (SanPlugin (FixturesRest.env ∅ None []) 0) in
  let E := FixturesRest.env ∅ (Some backend) [] in
  let L := FixturesRest.lib EmptyString None (None, None) FixturesRest.rest in
  let req := Controller.mkControllerExpandVolumeRequest "b1.v1"
               (Some (Controller.mkCapacityRange 1024 0)) None in
  ∃ range, Controller.ce_CapacityRange req = Some range
           ∧ Controller.RequiredBytes range = 1024%Z.
Proof.
  intros backend E L req.
  destruct (ControllerExpandVolume_success E L req Fixtures.alone
              (Controller.mkControllerExpandVolumeResponse 1024 false) None
              (Controller.ControllerExpandVolume E L req Fixtures.alone).2)
    as (_ & _ & range & b & Hr & _ & Hc & _).
  - vm_compute. reflexivity.
  - exists range. split; [exact Hr|]. symmetry. exact Hc.
Defined.

(** X19: a backend that is gone fails publish and expand, not unpublish
    and delete.  When the registry has no backend under the name in the
    volume id, ControllerPublishVolume and (for a well-formed request)
    ControllerExpandVolume answer Internal with "Backend ... doesn't
    exist", while ControllerUnpublishVolume and DeleteVolume of the same
    volume answer success. *)
Theorem absent_backend_fails_publish_and_expand E L volumeId nodeId range cap w :
  let name := (env_SplitVolumeId E volumeId).1 in
  let absent := (Driver.Internal, fmt_Errorf "Backend %s doesn't exist" [VString name]) in
  (∀ tr, env_GetBackendWithFresh E name tr = None) →
  volumeId ≠ EmptyString →
  ¬ (0 < Controller.LimitBytes range < Controller.RequiredBytes range)%Z →
  (Controller.ControllerPublishVolume E L
     (Controller.mkControllerPublishVolumeRequest volumeId nodeId) w).1
  = Done (None, Some absent)
  ∧ (Controller.ControllerExpandVolume E L
       (Controller.mkControllerExpandVolumeRequest volumeId (Some range) cap) w).1
    = Done (None, Some absent)
  ∧ (Driver.ControllerUnpublishVolume E
       (Driver.mkControllerUnpublishVolumeRequest volumeId nodeId) w).1
    = Done (Some Driver.mkControllerUnpublishVolumeResponse, None)
  ∧ (Driver.DeleteVolume E (Driver.mkDeleteVolumeRequest volumeId) w).1
    = Done (Some Driver.mkDeleteVolumeResponse, None).
Proof.
  intros name absent Hreg Hid Hlim.
  unfold Controller.ControllerPublishVolume, Controller.ControllerExpandVolume,
    Driver.ControllerUnpublishVolume, Driver.DeleteVolume, Driver.GetBackendWithFresh.
  crunch. fold name. rewrite !Hreg. simpl.
  rewrite bool_decide_eq_false_2 by done. simpl.
  assert ((0 <? Controller.LimitBytes range)%Z
          && (Controller.LimitBytes range <? Controller.RequiredBytes range)%Z = false) as ->.
  { apply andb_false_iff.
    destruct (decide (0 < Controller.LimitBytes range)%Z);
      [right|left]; apply Z.ltb_ge; lia. }
  simpl. by rewrite !Hreg.
Qed.

Lemma absent_backend_fails_publish_and_expand_witness :
  let E := FixturesRest.env ∅ None [] in
  let L := FixturesRest.lib EmptyString None (None, None) FixturesRest.rest in
  (Controller.ControllerPublishVolume E L
     (Controller.mkControllerPublishVolumeRequest "b1.v1" "{}") Fixtures.alone).1
  = Done (None, Some (Driver.Internal, fmt_Errorf "Backend %s doesn't exist" [VString "b1"]))
  ∧ (Driver.ControllerUnpublishVolume E
       (Driver.mkControllerUnpublishVolumeRequest "b1.v1" "{}") Fixtures.alone).1
    = Done (Some Driver.mkControllerUnpublishVolumeResponse, None).
Proof.
  intros E L.
  destruct (absent_backend_fails_publish_and_expand E L "b1.v1" "{}"
              (Controller.mkCapacityRange 1024 0) None Fixtures.alone)
    as (Hp & _ & Hu & _).
  - intros tr. reflexivity.
  - discriminate.
  - simpl. lia.
  - split; [exact Hp|exact Hu].
Defined.

(** X20: what the node gets from a publish on an oceanstor-san backend.
    When the plugin behind the backend is the oceanstor-san plugin [p] and
    ControllerPublishVolume answers with a response, there is no error
    beside it, the node id was unmarshalled to the parameters, an attacher
    was called with ControllerAttach and these parameters and returned a
    map and a nil error, and the publish context has the one entry
    publishInfo, the marshalled form of that very map. *)
Theorem publish_hands_out_attacher_mapping E L req p w resp st w' :
  let names := env_SplitVolumeId E (Controller.cp_VolumeId req) in
  plugin_AttachVolume (lib_PluginRest L names.1) = AttachVolume E p →
  Controller.ControllerPublishVolume E L req w = (Done (Some resp, st), w') →
  st = None
  ∧ ∃ parameters m a lunName info,
      env_Unmarshal_map E (Controller.cp_NodeId req) = (parameters, None)
      ∧ EvReflectCall a "ControllerAttach" lunName parameters [VMap m; VNil]
        ∈ added (Controller.ControllerPublishVolume E L req) w
      ∧ lib_Marshal L (Some m) = (info, None)
      ∧ Controller.PublishContext resp = <["publishInfo" := info]> ∅.
Proof.
  intros names Hatt. unfold added.
  unfold Controller.ControllerPublishVolume, Driver.GetBackendWithFresh.
  crunch. fold names.
  destruct (env_GetBackendWithFresh E _ _) as [backend|] eqn:Hb; simpl; [|done].
  destruct (env_Unmarshal_map E _) as [parameters [e|]] eqn:Hu; simpl; [done|].
  rewrite Hatt.
  match goal with
  | |- context [AttachVolume E p ?a ?b ?v] =>
      destruct (AttachVolume E p a b v) as [[[res [e|]]|] w2] eqn:Ha
  end; simpl; [done| |done].
  apply AttachVolume_success in Ha as (m & a & lunName & evs & -> & Htr).
  destruct (lib_Marshal L (Some m)) as [info [e|]] eqn:Hm; simpl; [done|].
  intros [= <- <- <-]. split; [done|].
  exists parameters, m, a, lunName, info. simpl. rewrite Htr. simpl.
  repeat split; try done.
  rewrite <- !app_assoc, drop_app_length.
  repeat first [ rewrite elem_of_app | rewrite elem_of_cons ]. naive_solver.
Qed.

Lemma publish_hands_out_attacher_mapping_witness :
  let backend := mkBackend "oceanstor-san" ∅ (SanPlugin (FixturesRest.env ∅ None []) 0) in
  let E := FixturesRest.env ∅ (Some backend) [VMap Fixtures.mapping; VNil] in
  let L := FixturesRest.lib EmptyString None (None, None)
             (mkPluginRest (λ _ _, ret (false, None)) (λ _, ret (false, None))
                (AttachVolume E 0)) in
  let req := Controller.mkControllerPublishVolumeRequest "b1.v1" "{}" in
  ∃ a lunName,
    EvReflectCall a "ControllerAttach" lunName ∅ [VMap Fixtures.mapping; VNil]
    ∈ added (Controller.ControllerPublishVolume E L req) Fixtures.alone.
Proof.
  intros backend E L req.
  destruct (publish_hands_out_attacher_mapping E L req 0 Fixtures.alone
              (Controller.mkControllerPublishVolumeResponse (<["publishInfo" := "{}"]> ∅))
              None (Controller.ControllerPublishVolume E L req Fixtures.alone).2)
    as (_ & parameters & m & a & lunName & info & Hu & Hin & Hm & _).
  - reflexivity.
  - vm_compute. reflexivity.
  - injection Hu as <-.
    assert (m = Fixtures.mapping) as ->.
    { vm_compute in Hin.
      repeat (apply elem_of_cons in Hin as [Hin|Hin]; [try discriminate|]).
      - by injection Hin.
      - by apply elem_of_nil in Hin. }
    exists a, lunName. exact Hin.
Defined.

(* ================================================================== *)
(** ** controller_helper.go                                            *)
(* ================================================================== *)

Lemma modes_access (caps : list Controller.VolumeCapability) (acc : string * string) :
  (foldl (λ acc mode,
            (if Controller.HasBlock mode then Helper.Block else Helper.FileSystem,
             if bool_decide (Controller.Mode mode = Controller.MULTI_NODE_MULTI_WRITER)
             then Helper.RWX else acc.2)) acc caps).2
  = if existsb (λ mode, bool_decide (Controller.Mode mode = Controller.MULTI_NODE_MULTI_WRITER))
         caps
    then Helper.RWX else acc.2.
Proof.
  revert acc. induction caps as [|c caps IH]; intros acc; simpl; [done|].
  rewrite IH. simpl. by destruct (bool_decide _), (existsb _ caps).
Qed.

Lemma modes_snoc caps c :
  Helper.modes (caps ++ [c])
  = (if Controller.HasBlock c then Helper.Block else Helper.FileSystem,
     if existsb (λ mode, bool_decide (Controller.Mode mode = Controller.MULTI_NODE_MULTI_WRITER))
          (caps ++ [c])
     then Helper.RWX else EmptyString).
Proof.
  unfold Helper.modes. rewrite foldl_app. simpl. f_equal.
  rewrite modes_access, existsb_app. simpl.
  by destruct (existsb _ caps), (bool_decide _).
Qed.

(** X21: only the last capability decides the volume mode.
    [validateModeAndType] judges a request with several volume capabilities
    like the request with the single capability that has the block volume
    of the last one, or none if the last has none, and the access mode
    ReadWriteMany if any of them has it: a block volume in an earlier
    capability is never looked at, a ReadWriteMany in an earlier one
    sticks. *)
Theorem validateModeAndType_last_capability L Ext2 Ext3 Ext4 Xfs name range caps c params :
  let rwx := existsb (λ mode, bool_decide (Controller.Mode mode
                                           = Controller.MULTI_NODE_MULTI_WRITER))
               (caps ++ [c]) in
  let single := Controller.mkVolumeCapability (Controller.HasBlock c) []
                  (if rwx then Controller.MULTI_NODE_MULTI_WRITER else Controller.UNKNOWN) in
  Helper.validateModeAndType L Ext2 Ext3 Ext4 Xfs
    (Helper.mkCreateVolumeRequest name range (caps ++ [c])) params
  = Helper.validateModeAndType L Ext2 Ext3 Ext4 Xfs
      (Helper.mkCreateVolumeRequest name range [single]) params.
Proof.
  intros rwx single. unfold Helper.validateModeAndType. simpl.
  rewrite (bool_decide_eq_false_2 (length (caps ++ [c]) = 0%nat))
    by (rewrite length_app; simpl; lia).
  rewrite modes_snoc. fold rwx. unfold Helper.modes. simpl.
  by destruct rwx.
Qed.


Lemma nfsProtocolMap_values k v :
  Helper.nfsProtocolMap !! k = Some v → v ∈ ["nfs3"; "nfs4"; "nfs41"].
Proof.
  unfold Helper.nfsProtocolMap. intros H.
  repeat (apply lookup_insert_Some in H as [[_ <-]|[_ H]]; [by repeat constructor|]).
  by rewrite lookup_empty in H.
Qed.

Lemma index_insert_eq (m : gomap) k v : index (<[k := v]> m) k = v.
Proof. unfold index. by rewrite lookup_insert_eq. Qed.

(** One pass over the pieces of a mount option string. *)
Lemma addNFSProtocol_range_inv L mountFlag flags params w :
  ∃ params' err evs,
    Helper.addNFSProtocol_range L mountFlag flags params w
    = (Done (params', err), extends w evs)
    ∧ ((params' = params
        ∧ (err = None → List.filter (Helper.is_version_flag L) flags = []))
       ∨ (Helper.not_nil (index params "nfsProtocol") = false
          ∧ ∃ f v, head (List.filter (Helper.is_version_flag L) flags) = Some f
                   ∧ Helper.nfsProtocolMap !! lib_TrimSpace L f = Some v
                   ∧ params' = <["nfsProtocol" := VString v]> params
                   ∧ (err = None → List.filter (Helper.is_version_flag L) flags = [f]))).
Proof.
  revert params w. induction flags as [|f flags IH]; intros params w; simpl.
  - exists params, None, []. split; [by unfold extends; rewrite app_nil_r; destruct w|].
    by left.
  - assert (Hfold : String.prefix "nfsvers=" (lib_TrimSpace L f) = Helper.is_version_flag L f)
      by done.
    rewrite Hfold. clear Hfold. destruct (Helper.is_version_flag L f) eqn:Hpre; simpl.
    + destruct (Helper.nfsProtocolMap !! lib_TrimSpace L f) as [v|] eqn:Hv.
      * destruct (Helper.not_nil (index params "nfsProtocol")) eqn:Hnn.
        -- unfold utils_Errorf. crunch. eexists _, _, [_]. split; [done|]. left. by split.
        -- crunch.
           destruct (IH (<["nfsProtocol" := VString v]> params)
                       (extend w (EvLog Info "Add nfs protocol: %v"
                                    [index (<["nfsProtocol" := VString v]> params)
                                       "nfsProtocol"])))
             as (params' & err & evs & Hrun & Hinv).
           unfold extend in Hrun. simpl in Hrun. rewrite Hrun.
           destruct Hinv as [[-> Hnone]|[Hset _]];
             [|by rewrite index_insert_eq in Hset].
           eexists _, err, (_ :: evs). split.
           { unfold extends. simpl. by rewrite <- app_assoc. }
           right. split; [done|]. exists f, v.
           split; [done|]. split; [done|]. split; [done|].
           intros He. by rewrite (Hnone He).
      * unfold utils_Errorf. crunch. eexists _, _, [_]. split; [done|]. left. by split.
    + destruct (IH params w) as (params' & err & evs & Hrun & Hinv).
      by exists params', err, evs.
Qed.

(** X22: a mount option string names at most one NFS version.  When
    [addNFSProtocol] returns nil on parameters without an NFS protocol, the
    pieces of the string between commas hold no version flag, and the
    parameters are what they were, or exactly one, and then that flag is
    one of nfsvers=3, nfsvers=4, nfsvers=4.0 and nfsvers=4.1 and the
    parameters have gained the entry nfsProtocol with nfs3, nfs4 or nfs41
    for it; two version flags in one string are always an error. *)
Theorem addNFSProtocol_one_version L mountFlag params w params' w' :
  Helper.not_nil (index params "nfsProtocol") = false →
  Helper.addNFSProtocol L mountFlag params w = (Done (params', None), w') →
  match List.filter (Helper.is_version_flag L) (Helper.Split mountFlag) with
  | [] => params' = params
  | [f] =>
      ∃ v, Helper.nfsProtocolMap !! lib_TrimSpace L f = Some v
           ∧ v ∈ ["nfs3"; "nfs4"; "nfs41"]
           ∧ params' = <["nfsProtocol" := VString v]> params
  | _ => False
  end.
Proof.
  intros Hunset Hrun. unfold Helper.addNFSProtocol in Hrun.
  destruct (addNFSProtocol_range_inv L mountFlag (Helper.Split mountFlag) params w)
    as (p1 & err & evs & Hr & Hinv).
  rewrite Hr in Hrun. injection Hrun as -> -> _.
  destruct Hinv as [[-> Hnone]|(_ & f & v & _ & Hv & -> & Hone)].
  - by rewrite Hnone.
  - rewrite Hone by done. exists v. split; [done|]. split; [|done].
    by eapply nfsProtocolMap_values.
Qed.

Lemma addNFSProtocol_one_version_witness :
  let L := FixturesRest.lib EmptyString None (None, None) FixturesRest.rest in
  ∃ v, v ∈ ["nfs3"; "nfs4"; "nfs41"]
       ∧ (Helper.addNFSProtocol L "nolock,nfsvers=4.1" ∅ Fixtures.alone).1
         = Done (<["nfsProtocol" := VString v]> ∅, None).
Proof.
  intros L.
  pose proof (addNFSProtocol_one_version L "nolock,nfsvers=4.1" ∅ Fixtures.alone
                (<["nfsProtocol" := VString "nfs41"]> ∅)
                (Helper.addNFSProtocol L "nolock,nfsvers=4.1" ∅ Fixtures.alone).2
                eq_refl) as H.
  assert (Hrun : Helper.addNFSProtocol L "nolock,nfsvers=4.1" ∅ Fixtures.alone
                 = (Done (<["nfsProtocol" := VString "nfs41"]> ∅, None),
                    (Helper.addNFSProtocol L "nolock,nfsvers=4.1" ∅ Fixtures.alone).2))
    by (vm_compute; reflexivity).
  specialize (H Hrun). simpl in H. destruct H as (v & _ & Hv & Heq).
  exists v. split; [exact Hv|]. rewrite Hrun. simpl. by rewrite Heq.
Defined.

Lemma protocol_added_refl params : Helper.protocol_added params params.
Proof. by left. Qed.

Lemma protocol_added_trans a b c :
  Helper.protocol_added a b → Helper.protocol_added b c → Helper.protocol_added a c.
Proof.
  intros [->|(Ha & v & Hv & ->)] H; [done|].
  destruct H as [->|(Hb & _)]; [right; eauto|].
  by rewrite index_insert_eq in Hb.
Qed.

Lemma addNFSProtocol_added L mountFlag params w :
  ∃ params' err evs,
    Helper.addNFSProtocol L mountFlag params w = (Done (params', err), extends w evs)
    ∧ Helper.protocol_added params params'.
Proof.
  unfold Helper.addNFSProtocol.
  destruct (addNFSProtocol_range_inv L mountFlag (Helper.Split mountFlag) params w)
    as (p1 & err & evs & Hr & Hinv).
  exists p1, err, evs. split; [done|].
  destruct Hinv as [[-> _]|(Hunset & f & v & _ & Hv & -> & _)]; [by left|].
  right. split; [done|]. exists v. split; [by eapply nfsProtocolMap_values|done].
Qed.

Lemma extends_extends w evs evs' : extends (extends w evs) evs' = extends w (evs ++ evs').
Proof. unfold extends. simpl. by rewrite app_assoc. Qed.

Lemma processNFSProtocol_flags_added L mountFlags params w :
  ∃ params' err evs,
    Helper.processNFSProtocol_flags L mountFlags params w
    = (Done (params', err), extends w evs)
    ∧ Helper.protocol_added params params'.
Proof.
  revert params w. induction mountFlags as [|mountFlag mountFlags IH]; intros params w; simpl.
  - exists params, None, []. split; [by unfold extends; rewrite app_nil_r; destruct w|].
    apply protocol_added_refl.
  - destruct (addNFSProtocol_added L mountFlag params w) as (p1 & err & evs & Hr & Hadd).
    rewrite (bind_done _ _ _ _ _ Hr). destruct err as [e|]; [by eexists _, _, _|].
    destruct (IH p1 (extends w evs)) as (p2 & err & evs' & Hr2 & Hadd2).
    rewrite Hr2, extends_extends. eexists _, _, _. split; [done|].
    by eapply protocol_added_trans.
Qed.

Lemma processNFSProtocol_range_added L caps params w :
  ∃ params' err evs,
    Helper.processNFSProtocol_range L caps params w
    = (Done (params', err), extends w evs)
    ∧ Helper.protocol_added params params'.
Proof.
  revert params w. induction caps as [|v caps IH]; intros params w; simpl.
  - exists params, None, []. split; [by unfold extends; rewrite app_nil_r; destruct w|].
    apply protocol_added_refl.
  - destruct (processNFSProtocol_flags_added L (Controller.MountFlags v) params w)
      as (p1 & err & evs & Hr & Hadd).
    rewrite (bind_done _ _ _ _ _ Hr). destruct err as [e|]; [by eexists _, _, _|].
    destruct (Helper.not_nil (index p1 "nfsProtocol")); [by eexists _, _, _|].
    destruct (IH p1 (extends w evs)) as (p2 & err & evs' & Hr2 & Hadd2).
    rewrite Hr2, extends_extends. eexists _, _, _. split; [done|].
    by eapply protocol_added_trans.
Qed.

(** X23: what [processNFSProtocol] can do to the parameters.  It returns
    for every request; with or without an error, the parameters come back
    as they were or, when they had no NFS protocol, with the one new entry
    nfsProtocol set to nfs3, nfs4 or nfs41, no other key being touched; the
    store of plugins is left alone. *)
Theorem processNFSProtocol_result L req params w :
  ∃ params' err w',
    Helper.processNFSProtocol L req params w = (Done (params', err), w')
    ∧ heap w' = heap w ∧ nextClient w' = nextClient w
    ∧ (params' = params
       ∨ (Helper.not_nil (index params "nfsProtocol") = false
          ∧ ∃ v, v ∈ ["nfs3"; "nfs4"; "nfs41"]
                 ∧ params' = <["nfsProtocol" := VString v]> params)).
Proof.
  unfold Helper.processNFSProtocol.
  destruct (processNFSProtocol_range_added L (Helper.cv_VolumeCapabilities req) params w)
    as (p1 & err & evs & Hr & Hadd).
  by exists p1, err, (extends w evs).
Qed.

(** X24: the description after [processDescription].  When it returns nil
    the parameters hold a description that is a string of at most 255
    bytes: the one they had, or the default "Created from Kubernetes CSI"
    when they had none or one that is not a string; no other key is
    touched.  When it returns an error the parameters are what they were
    and the error has been logged.  A description that is a string is
    never replaced: the parameters come back as they were, with nil exactly
    when it has at most 255 bytes; without one the default is written and
    the answer is nil. *)
Theorem processDescription_result params w :
  ∃ params' err w',
    Helper.processDescription params w = (Done (params', err), w')
    ∧ (∀ k, k ≠ "description" → params' !! k = params !! k)
    ∧ match err with
      | None =>
          ∃ d, params' !! "description" = Some (VString d)
               ∧ (String.length d ≤ 255)%nat
               ∧ (as_string (params !! "description") = None
                  → d = "Created from Kubernetes CSI")
      | Some e => params' = params ∧ added (Helper.processDescription params) w
                                      = [EvLog Error e.1 e.2]
      end
    ∧ match as_string (params !! "description") with
      | Some d =>
          params' = params
          ∧ (err = None ↔ (String.length d ≤ 255)%nat)
          ∧ (err = None → w' = w)
      | None =>
          err = None ∧ w' = w
          ∧ params' = <["description" := VString "Created from Kubernetes CSI"]> params
      end.
Proof.
  unfold added, Helper.processDescription, Helper.refuse, Helper.maxDescriptionLength.
  destruct (as_string (params !! "description")) as [d|] eqn:Hd; simpl.
  - destruct (255 <? String.length d)%nat eqn:Hlen; crunch.
    + apply Nat.ltb_lt in Hlen.
      eexists _, _, _. split; [done|]. split; [done|]. split.
      { split; [done|]. by rewrite drop_app_length. }
      split; [done|]. split; [|done]. split; [done|lia].
    + apply Nat.ltb_ge in Hlen.
      eexists _, _, _. split; [done|]. split; [done|]. split.
      { exists d. split; [|done].
        destruct (params !! "description") as [[]|]; by simplify_eq/=. }
      done.
  - crunch. eexists _, _, _. split; [done|]. split.
    { intros k Hk. by rewrite lookup_insert_ne. }
    split; [|done].
    eexists. split; [by rewrite lookup_insert_eq|]. split; [simpl; lia|done].
Qed.

Lemma as_string_Some (v : option value) s : as_string v = Some s ↔ v = Some (VString s).
Proof. destruct v as [[]|]; simpl; split; intros; by simplify_eq. Qed.

Lemma extends_nil w : extends w [] = w.
Proof. unfold extends. rewrite app_nil_r. by destruct w. Qed.

Lemma checkFsPermission_out params w :
  ∃ err evs,
    Helper.checkFsPermission params w = (Done err, extends w evs)
    ∧ (err = None → evs = [])
    ∧ (err = None
       ↔ ∀ s, params !! "fsPermission" = Some (VString s) →
              Helper.FindStringSubmatch s = true).
Proof.
  unfold Helper.checkFsPermission, Helper.refuse.
  destruct (as_string (params !! "fsPermission")) as [s|] eqn:Hs.
  - apply as_string_Some in Hs.
    destruct (Helper.FindStringSubmatch s) eqn:Hm; crunch.
    + exists None, []. split; [by rewrite <- (extends_nil w) at 1|]. split; [done|].
      split; [|done]. intros _ s'. rewrite Hs. by intros [= <-].
    + eexists (Some _), [_]. split; [done|]. split; [done|]. split; [done|].
      intros H. specialize (H s Hs). congruence.
  - exists None, []. split; [by rewrite <- (extends_nil w) at 1|]. split; [done|].
    split; [|done]. intros _ s Hs'. apply as_string_Some in Hs'. congruence.
Qed.

Lemma checkReservedSnapshotSpaceRatio_out L params w :
  ∃ err evs,
    Helper.checkReservedSnapshotSpaceRatio L params w = (Done err, extends w evs)
    ∧ (err = None → evs = [])
    ∧ (err = None
       ↔ ∀ s, params !! "reservedSnapshotSpaceRatio" = Some (VString s) →
              ∃ n, lib_Atoi L s = (n, None) ∧ (0 ≤ n ≤ 50)%Z).
Proof.
  unfold Helper.checkReservedSnapshotSpaceRatio, Helper.refuse.
  destruct (as_string (params !! "reservedSnapshotSpaceRatio")) as [s|] eqn:Hs.
  - apply as_string_Some in Hs.
    destruct (lib_Atoi L s) as [n [e|]] eqn:Ha; crunch.
    { eexists (Some _), [_]. split; [done|]. split; [done|]. split; [done|].
      intros H. destruct (H s Hs) as (x & Hx & _). by rewrite Ha in Hx. }
    destruct ((n <? 0)%Z || (50 <? n)%Z) eqn:Hn; crunch.
    + eexists (Some _), [_]. split; [done|]. split; [done|]. split; [done|].
      intros H. destruct (H s Hs) as (x & Hx & ?). rewrite Ha in Hx.
      injection Hx as <-.
      apply orb_true_iff in Hn as [Hn|Hn]; apply Z.ltb_lt in Hn; lia.
    + exists None, []. split; [by rewrite <- (extends_nil w) at 1|]. split; [done|].
      split; [|done]. intros _ s'. rewrite Hs. intros [= <-]. exists n. split; [done|].
      apply orb_false_iff in Hn as [H1 H2]. apply Z.ltb_ge in H1, H2. lia.
  - exists None, []. split; [by rewrite <- (extends_nil w) at 1|]. split; [done|].
    split; [|done]. intros _ s Hs'. apply as_string_Some in Hs'. congruence.
Qed.

Lemma FindStringSubmatch_octal s :
  Helper.FindStringSubmatch s = true
  ↔ ∃ a b c, s = String a (String b (String c EmptyString))
             ∧ Helper.octal a = true ∧ Helper.octal b = true ∧ Helper.octal c = true.
Proof.
  split.
  - destruct s as [|a [|b [|c [|]]]]; simpl; try done.
    intros [[??]%andb_true_iff ?]%andb_true_iff. by exists a, b, c.
  - intros (a & b & c & -> & Ha & Hb & Hc). simpl. by rewrite Ha, Hb, Hc.
Qed.

(** X25: which storage class parameters pass.
    [checkStorageClassParameters] returns, and returns nil exactly when
    fsPermission, if it is a string, is three octal digits and nothing
    else, and reservedSnapshotSpaceRatio, if it is a string, is read by
    [strconv.Atoi] as a number from 0 to 50; a value that is not a string
    is not checked.  When it returns nil nothing has been logged. *)
Theorem checkStorageClassParameters_accepts L params w :
  ∃ err w',
    Helper.checkStorageClassParameters L params w = (Done err, w')
    ∧ (err = None → w' = w)
    ∧ (err = None
       ↔ (∀ s, params !! "fsPermission" = Some (VString s) →
               ∃ a b c, s = String a (String b (String c EmptyString))
                        ∧ Helper.octal a = true ∧ Helper.octal b = true
                        ∧ Helper.octal c = true)
         ∧ (∀ s, params !! "reservedSnapshotSpaceRatio" = Some (VString s) →
                 ∃ n, lib_Atoi L s = (n, None) ∧ (0 ≤ n ≤ 50)%Z)).
Proof.
  unfold Helper.checkStorageClassParameters.
  destruct (checkFsPermission_out params w) as (e1 & evs1 & Hr1 & Hq1 & Hi1).
  rewrite (bind_done _ _ _ _ _ Hr1).
  destruct e1 as [e1|].
  { eexists _, _. split; [done|]. split; [done|]. split; [done|].
    intros [H _]. assert (Some e1 = None); [|done]. apply Hi1.
    intros s Hs. by apply FindStringSubmatch_octal, H. }
  rewrite (Hq1 eq_refl), extends_nil.
  destruct (checkReservedSnapshotSpaceRatio_out L params w) as (e2 & evs2 & Hr2 & Hq2 & Hi2).
  rewrite (bind_done _ _ _ _ _ Hr2).
  destruct e2 as [e2|].
  { eexists _, _. split; [done|]. split; [done|]. split; [done|].
    intros [_ H]. assert (Some e2 = None); [|done]. by apply Hi2. }
  rewrite (Hq2 eq_refl), extends_nil.
  eexists _, _. split; [done|]. split; [done|]. split; [|done]. intros _. split.
  - intros s Hs. apply FindStringSubmatch_octal. by apply Hi1.
  - by apply Hi2.
Qed.

(* ================================================================== *)
(** ** The volume package                                              *)
(* ================================================================== *)

(** The analyzers in closed form.  [getCloneSpeed] adds no event. *)
Lemma getCloneSpeed_out L p params w :
  let source := bool_decide (is_Some (as_string (params !! "clonefrom")))
                || bool_decide (is_Some (as_string (params !! "sourcevolumename")))
                || bool_decide (is_Some (as_string (params !! "sourcesnapshotname"))) in
  ∃ params' err,
    Volume.getCloneSpeed L p params w = (Done (params', err), w)
    ∧ match err with
      | Some e =>
          params' = params ∧ source = true
          ∧ ∃ v, params !! "clonespeed" = Some (VString v) ∧ v ≠ EmptyString
                 ∧ e = fmt_Errorf "error config %s for clonespeed" [VString v]
                 ∧ ¬ ∃ n, lib_Atoi L v = (n, None) ∧ (1 ≤ n ≤ 4)%Z
      | None =>
          if source
          then ∃ n, (1 ≤ n ≤ 4)%Z ∧ params' = <["clonespeed" := VInt n]> params
          else params' = params
      end.
Proof.
  intros source. unfold Volume.getCloneSpeed. fold source.
  destruct source; simpl; [|by exists params, None].
  destruct (as_string (params !! "clonespeed")) as [v|] eqn:Hv;
    [|eexists _, None; split; [done|]; exists 3%Z; split; [lia|done]].
  apply as_string_Some in Hv.
  case_bool_decide as Hempty; simpl;
    [eexists _, None; split; [done|]; exists 3%Z; split; [lia|done]|].
  destruct (lib_Atoi L v) as [n [e|]] eqn:Ha; simpl.
  { eexists _, (Some _). split; [done|]. split; [done|]. split; [done|].
    exists v. split; [done|]. split; [done|]. split; [done|].
    intros (n' & Hn' & _). by rewrite Ha in Hn'. }
  destruct ((n <? 1)%Z || (4 <? n)%Z) eqn:Hn; simpl.
  - eexists _, (Some _). split; [done|]. split; [done|]. split; [done|].
    exists v. split; [done|]. split; [done|]. split; [done|].
    intros (n' & Hn' & ?). rewrite Ha in Hn'. injection Hn' as <-.
    apply orb_true_iff in Hn as [Hn|Hn]; apply Z.ltb_lt in Hn; lia.
  - eexists _, None. split; [done|]. exists n. split; [|done].
    apply orb_false_iff in Hn as [H1 H2]. apply Z.ltb_ge in H1, H2. lia.
Qed.

Lemma getPoolID_out L p params w :
  match Volume.getPoolID L p params w with
  | (Done (params', Some _), w') =>
      params' = params
      ∧ length (List.filter Volume.is_GetPoolByName (drop (length (trace w)) (trace w'))) ≤ 1
      ∧ heap w' = heap w ∧ nextClient w' = nextClient w
  | (Done (params', None), w') =>
      ∃ poolName pool id,
        params !! "storagepool" = Some (VString poolName) ∧ poolName ≠ EmptyString
        ∧ lib_GetPoolByName L (Volume.cli p) poolName (trace w) = (Some pool, None)
        ∧ pool !! "ID" = Some (VString id)
        ∧ params' = <["poolID" := VString id]> params
        ∧ w' = extend w (EvPluginCall "GetPoolByName" [VString poolName] None)
  | (Panic _, w') =>
      ∃ poolName pool,
        lib_GetPoolByName L (Volume.cli p) poolName (trace w) = (Some pool, None)
        ∧ as_string (pool !! "ID") = None
  end.
Proof.
  unfold Volume.getPoolID, Volume.GetPoolByName, called.
  destruct (as_string (params !! "storagepool")) as [poolName|] eqn:Hs; simpl;
    [|rewrite drop_all; simpl; repeat split; (done || lia)].
  apply as_string_Some in Hs.
  case_bool_decide as Hempty; simpl;
    [rewrite drop_all; simpl; repeat split; (done || lia)|].
  crunch.
  destruct (lib_GetPoolByName L (Volume.cli p) poolName (trace w)) as [[pool|] [e|]] eqn:Hg;
    simpl; rewrite <- ?app_assoc, ?drop_app_length; simpl; try (repeat split; (done || lia)).
  destruct (as_string (pool !! "ID")) as [id|] eqn:Hid; simpl.
  - apply as_string_Some in Hid. by exists poolName, pool, id.
  - by exists poolName, pool.
Qed.

Lemma getQoS_out L p params w :
  ∃ params' err evs,
    Volume.getQoS L p params w = (Done (params', err), extends w evs)
    ∧ Forall (λ e, Volume.is_GetPoolByName e = false) evs
    ∧ match err with
      | Some _ => params' = params
      | None => params' = params ∨ ∃ qos, params' = <["qos" := VMap qos]> params
      end.
Proof.
  unfold Volume.getQoS, utils_Errorf.
  destruct (as_string (params !! "qos")) as [v|];
    [|exists params, None, []; split; [by rewrite extends_nil|]; split; [done|by left]].
  case_bool_decide; simpl;
    [exists params, None, []; split; [by rewrite extends_nil|]; split; [done|by left]|].
  destruct (lib_ExtractQoSParameters L _ v) as [qos [e|]]; crunch.
  { eexists _, (Some _), [_]. split; [done|]. split; [by repeat constructor|done]. }
  destruct (lib_ValidateQoSParameters L _ qos) as [validated [e|]]; crunch.
  { eexists _, (Some _), [_]. split; [done|]. split; [by repeat constructor|done]. }
  eexists _, None, []. split; [by rewrite app_nil_r; destruct w|].
  split; [done|]. right. by eexists.
Qed.

Lemma filter_none {A} (f : A → bool) (l : list A) :
  Forall (λ e, f e = false) l → List.filter f l = [].
Proof. induction 1 as [|e l He _ IH]; [done|]. simpl. by rewrite He. Qed.

Lemma getAllocType_eq p params w :
  Volume.getAllocType p params w
  = (Done (<["alloctype" := VInt (if iface_eq_string (params !! "alloctype") "thick"
                                  then 0 else 1)]> params, None), w).
Proof.
  unfold Volume.getAllocType.
  destruct (params !! "alloctype") as [[]|]; simpl; try done.
  by case_bool_decide.
Qed.

(** X26: what [commonPreCreate] leaves in the parameters.  When it returns
    nil, alloctype is the number 0 if it was the string thick and 1 in
    every other case; clonespeed, when the parameters name a clone source,
    a source volume or a source snapshot, is a number from 1 to 4, which is
    3 unless a non-empty string was given; the storage pool is a non-empty
    string, the array was asked for it once and answered with a pool whose
    ID is a string, and poolID is that ID. *)
Theorem commonPreCreate_success L p params w params' w' :
  Volume.commonPreCreate L p params w = (Done (params', None), w') →
  params' !! "alloctype"
  = Some (VInt (if iface_eq_string (params !! "alloctype") "thick" then 0 else 1))
  ∧ (is_Some (as_string (params !! "clonefrom"))
     ∨ is_Some (as_string (params !! "sourcevolumename"))
     ∨ is_Some (as_string (params !! "sourcesnapshotname")) →
     ∃ n, params' !! "clonespeed" = Some (VInt n) ∧ (1 ≤ n ≤ 4)%Z
          ∧ (as_string (params !! "clonespeed") = None
             ∨ params !! "clonespeed" = Some (VString EmptyString) → n = 3%Z))
  ∧ ∃ poolName pool id,
      params !! "storagepool" = Some (VString poolName) ∧ poolName ≠ EmptyString
      ∧ lib_GetPoolByName L (Volume.cli p) poolName (trace w) = (Some pool, None)
      ∧ pool !! "ID" = Some (VString id)
      ∧ params' !! "poolID" = Some (VString id)
      ∧ List.filter Volume.is_GetPoolByName (added (Volume.commonPreCreate L p params) w)
        = [EvPluginCall "GetPoolByName" [VString poolName] None].
Proof.
  unfold added, Volume.commonPreCreate. simpl.
  rewrite (bind_done _ _ _ _ _ (getAllocType_eq p params w)).
  set (p1 := <["alloctype" := _]> params).
  destruct (getCloneSpeed_out L p p1 w) as (p2 & e2 & Hr2 & H2).
  rewrite (bind_done _ _ _ _ _ Hr2). destruct e2 as [e2|]; [done|].
  pose proof (getPoolID_out L p p2 w) as H3.
  unfold bind at 1.
  destruct (Volume.getPoolID L p p2 w) as [[[p3 [e3|]]|] w3] eqn:Hr3; [done| |done].
  destruct H3 as (poolName & pool & id & Hpool & Hne & Hg & Hid & -> & ->).
  destruct (getQoS_out L p (<["poolID" := VString id]> p2)
              (extend w (EvPluginCall "GetPoolByName" [VString poolName] None)))
    as (p4 & e4 & evs & Hr4 & Hevs & H4).
  rewrite (bind_done _ _ _ _ _ Hr4). destruct e4 as [e4|]; [done|].
  intros [= <- <-].
  assert (Hp2 : ∀ k, k ≠ "clonespeed" → p2 !! k = p1 !! k).
  { intros k Hk. simpl in H2. destruct (_ || _) in H2.
    - destruct H2 as (n & _ & ->). by rewrite lookup_insert_ne.
    - by rewrite H2. }
  assert (Hp1 : ∀ k, k ≠ "alloctype" → p1 !! k = params !! k).
  { intros k Hk. unfold p1. by rewrite lookup_insert_ne. }
  assert (Hp4 : ∀ k, k ≠ "qos" → p4 !! k = <["poolID" := VString id]> p2 !! k).
  { intros k Hk. destruct H4 as [->|[qos ->]]; [done|]. by rewrite lookup_insert_ne. }
  split; [|split].
  - rewrite Hp4, lookup_insert_ne, Hp2 by done. unfold p1. by rewrite lookup_insert_eq.
  - intros Hsrc. simpl in H2.
    rewrite !Hp1 in H2 by done.
    assert ((bool_decide (is_Some (as_string (params !! "clonefrom")))
             || bool_decide (is_Some (as_string (params !! "sourcevolumename")))
             || bool_decide (is_Some (as_string (params !! "sourcesnapshotname")))) = true)
      as Hs.
    { destruct Hsrc as [H|[H|H]]; rewrite (bool_decide_eq_true_2 _ H); simpl;
        by rewrite ?orb_true_r. }
    rewrite Hs in H2. destruct H2 as (n & Hn & Hp2').
    exists n. split; [|split; [done|]].
    + rewrite Hp4, lookup_insert_ne by done. rewrite Hp2'. by rewrite lookup_insert_eq.
    + intros Hdefault.
      assert (Hrun := Hr2). unfold Volume.getCloneSpeed in Hrun.
      rewrite !Hp1 in Hrun by done. rewrite Hs in Hrun. simpl in Hrun.
      destruct Hdefault as [Hd|Hd].
      * rewrite Hd in Hrun. injection Hrun as Hrun. rewrite Hp2' in Hrun.
        apply (f_equal (λ m : gomap, m !! "clonespeed")) in Hrun.
        rewrite !lookup_insert_eq in Hrun. by injection Hrun.
      * rewrite Hd in Hrun. simpl in Hrun. injection Hrun as Hrun. rewrite Hp2' in Hrun.
        apply (f_equal (λ m : gomap, m !! "clonespeed")) in Hrun.
        rewrite !lookup_insert_eq in Hrun. by injection Hrun.
  - exists poolName, pool, id.
    rewrite Hp2, Hp1 in Hpool by done.
    split; [done|]. split; [done|]. split; [done|]. split; [done|]. split.
    + rewrite Hp4 by done. by rewrite lookup_insert_eq.
    + rewrite (bind_done _ _ _ _ _ Hr3). simpl. rewrite (bind_done _ _ _ _ _ Hr4).
      simpl. rewrite <- app_assoc, drop_app_length. simpl.
      f_equal.
      by apply filter_none.
Qed.

Lemma commonPreCreate_success_witness :
  let L := FixturesRest.lib EmptyString None (Some (<["ID" := VString "0"]> ∅), None)
             FixturesRest.rest in
  let p := Volume.mkBase 10 None None "DoradoV6" in
  let params := <["storagepool" := VString "pool1"]> (<["alloctype" := VString "thick"]> ∅) in
  ∃ poolName,
    List.filter Volume.is_GetPoolByName (added (Volume.commonPreCreate L p params) Fixtures.alone)
    = [EvPluginCall "GetPoolByName" [VString poolName] None].
Proof.
  intros L p params.
  destruct (commonPreCreate_success L p params Fixtures.alone
              (<["poolID" := VString "0"]>
                 (<["alloctype" := VInt 0]> params))
              (Volume.commonPreCreate L p params Fixtures.alone).2)
    as (_ & _ & poolName & pool & id & _ & _ & _ & _ & _ & Hf).
  - vm_compute. reflexivity.
  - exists poolName. exact Hf.
Defined.

(** X27: a bad clone speed stops [commonPreCreate] before the array is
    asked.  When the parameters name a clone source, a source volume or a
    source snapshot and clonespeed is a non-empty string that
    [strconv.Atoi] does not read as a number from 1 to 4, the error is
    "error config ... for clonespeed", nothing is logged and the array is
    not asked for the pool; the parameters come back with alloctype
    already replaced by its number. *)
Theorem commonPreCreate_bad_clonespeed L p params v w :
  is_Some (as_string (params !! "clonefrom"))
  ∨ is_Some (as_string (params !! "sourcevolumename"))
  ∨ is_Some (as_string (params !! "sourcesnapshotname")) →
  params !! "clonespeed" = Some (VString v) →
  v ≠ EmptyString →
  (¬ ∃ n, lib_Atoi L v = (n, None) ∧ (1 ≤ n ≤ 4)%Z) →
  Volume.commonPreCreate L p params w
  = (Done (<["alloctype" := VInt (if iface_eq_string (params !! "alloctype") "thick"
                                  then 0 else 1)]> params,
           Some (fmt_Errorf "error config %s for clonespeed" [VString v])), w).
Proof.
  intros Hsrc Hv Hne Hbad. unfold Volume.commonPreCreate. simpl.
  rewrite (bind_done _ _ _ _ _ (getAllocType_eq p params w)).
  set (p1 := <["alloctype" := _]> params).
  assert (Hp1 : ∀ k, k ≠ "alloctype" → p1 !! k = params !! k).
  { intros k Hk. unfold p1. by rewrite lookup_insert_ne. }
  unfold bind, Volume.getCloneSpeed. rewrite !Hp1 by done.
  assert ((bool_decide (is_Some (as_string (params !! "clonefrom")))
           || bool_decide (is_Some (as_string (params !! "sourcevolumename")))
           || bool_decide (is_Some (as_string (params !! "sourcesnapshotname")))) = true)
    as ->.
  { destruct Hsrc as [H|[H|H]]; rewrite (bool_decide_eq_true_2 _ H); simpl;
      by rewrite ?orb_true_r. }
  rewrite Hv. simpl. rewrite bool_decide_eq_false_2 by done. simpl.
  destruct (lib_Atoi L v) as [n [e|]] eqn:Ha; simpl; [done|].
  destruct ((n <? 1)%Z || (4 <? n)%Z) eqn:Hn; simpl; [done|].
  exfalso. apply Hbad. exists n. split; [done|].
  apply orb_false_iff in Hn as [H1 H2]. apply Z.ltb_ge in H1, H2. lia.
Qed.

Lemma commonPreCreate_bad_clonespeed_witness :
  let L := FixturesRest.lib EmptyString None (None, None) FixturesRest.rest in
  let p := Volume.mkBase 10 None None "DoradoV6" in
  let params := <["clonefrom" := VString "b1.v0"]> (<["clonespeed" := VString "9"]> ∅) in
  Volume.commonPreCreate L p params Fixtures.alone
  = (Done (<["alloctype" := VInt 1]> params,
           Some (fmt_Errorf "error config %s for clonespeed" [VString "9"])),
     Fixtures.alone).
Proof.
  intros L p params.
  apply (commonPreCreate_bad_clonespeed L p params "9" Fixtures.alone).
  - left. by eexists.
  - vm_compute. reflexivity.
  - discriminate.
  - intros (n & Hn & Hr). injection Hn as <-. lia.
Defined.

(** X28: [commonPreCreate] returns unless the array hands out a pool
    without an ID.  When every pool the array returns has a string ID,
    [commonPreCreate] returns for every parameter map; it leaves the store
    of plugins alone and asks the array for a pool at most once. *)
Theorem commonPreCreate_returns L p params w :
  (∀ name tr pool, lib_GetPoolByName L (Volume.cli p) name tr = (Some pool, None) →
                   is_Some (as_string (pool !! "ID"))) →
  ∃ r w',
    Volume.commonPreCreate L p params w = (Done r, w')
    ∧ heap w' = heap w ∧ nextClient w' = nextClient w
    ∧ length (List.filter Volume.is_GetPoolByName
                (added (Volume.commonPreCreate L p params) w)) ≤ 1.
Proof.
  intros Hpools. unfold added, Volume.commonPreCreate. simpl.
  rewrite !(bind_done _ _ _ _ _ (getAllocType_eq p params w)).
  set (p1 := <["alloctype" := _]> params).
  destruct (getCloneSpeed_out L p p1 w) as (p2 & e2 & Hr2 & _).
  rewrite !(bind_done _ _ _ _ _ Hr2).
  destruct e2 as [e2|]; [eexists _, _; rewrite drop_all; repeat split; simpl; lia|].
  pose proof (getPoolID_out L p p2 w) as H3.
  unfold bind at 1 3.
  destruct (Volume.getPoolID L p p2 w) as [[[p3 [e3|]]|] w3] eqn:Hr3.
  - destruct H3 as (_ & Hlen & Hh & Hn). simpl. by eexists _, _.
  - destruct H3 as (poolName & pool & id & _ & _ & _ & _ & -> & ->).
    destruct (getQoS_out L p (<["poolID" := VString id]> p2)
                (extend w (EvPluginCall "GetPoolByName" [VString poolName] None)))
      as (p4 & e4 & evs & Hr4 & Hevs & _).
    rewrite !(bind_done _ _ _ _ _ Hr4).
    assert (Hfilter : List.filter Volume.is_GetPoolByName
                        (drop (length (trace w))
                           (trace (extends (extend w (EvPluginCall "GetPoolByName"
                                                        [VString poolName] None)) evs)))
                      = [EvPluginCall "GetPoolByName" [VString poolName] None]).
    { simpl. rewrite <- app_assoc, drop_app_length. simpl. f_equal. by apply filter_none. }
    destruct e4 as [e4|]; simpl; eexists _, _; (split; [done|]); simpl;
      (split; [done|]); (split; [done|]); simpl in Hfilter; rewrite Hfilter; simpl; lia.
  - destruct H3 as (poolName & pool & Hg & Hid).
    destruct (Hpools _ _ _ Hg) as [id Hid']. congruence.
Qed.

Lemma commonPreCreate_returns_witness :
  let L := FixturesRest.lib EmptyString None (Some (<["ID" := VString "0"]> ∅), None)
             FixturesRest.rest in
  let p := Volume.mkBase 10 None None "DoradoV6" in
  ∃ r w', Volume.commonPreCreate L p ∅ Fixtures.alone = (Done r, w').
Proof.
  intros L p.
  destruct (commonPreCreate_returns L p ∅ Fixtures.alone) as (r & w' & Hr & _).
  - intros name tr pool [= <-]. by eexists.
  - by exists r, w'.
Defined.

(* ================================================================== *)
(** ** connector.go                                                    *)
(* ================================================================== *)

(** X29: which connector flags pass.  ValidateFlags reports no error
    exactly when the SCSI multipath type is one of DM-multipath,
    HW-UltraPath and HW-UltraPath-NVMe, the NVMe multipath type is
    HW-UltraPath-NVMe and the scan timeout is from 1 to 600, whatever the
    other four flags are: the number of connector threads is not looked at,
    although [validateConnectorThreads] would bound it by 1 and 10.  It
    never reports more than three errors. *)
Theorem ValidateFlags_accepts multi scsi nvme cleanup scan threads allPath :
  let opt := Options.mkConnectorOptions multi scsi nvme cleanup scan threads allPath in
  (Options.ValidateFlags opt = []
   ↔ scsi ∈ ["DM-multipath"; "HW-UltraPath"; "HW-UltraPath-NVMe"]
     ∧ nvme = "HW-UltraPath-NVMe"
     ∧ (1 ≤ scan ≤ 600)%Z)
  ∧ length (Options.ValidateFlags opt) ≤ 3.
Proof.
  intros opt.
  unfold Options.ValidateFlags, Options.validateScsiMultiPathType,
    Options.validateNvmeMultiPathType, Options.validateScanVolumeTimeout, Options.collect,
    Options.dmMultiPath, Options.hwUltraPath, Options.hwUltraPathNVMe.
  simpl.
  destruct (decide (scsi = "DM-multipath")) as [H1|H1];
    destruct (decide (scsi = "HW-UltraPath")) as [H2|H2];
    destruct (decide (scsi = "HW-UltraPath-NVMe")) as [H3|H3];
    destruct (decide (nvme = "HW-UltraPath-NVMe")) as [H4|H4];
    destruct (scan <? 1)%Z eqn:H5; destruct (600 <? scan)%Z eqn:H6;
    rewrite ?(bool_decide_eq_true_2 _ H1), ?(bool_decide_eq_false_2 _ H1),
      ?(bool_decide_eq_true_2 _ H2), ?(bool_decide_eq_false_2 _ H2),
      ?(bool_decide_eq_true_2 _ H3), ?(bool_decide_eq_false_2 _ H3),
      ?(bool_decide_eq_true_2 _ H4), ?(bool_decide_eq_false_2 _ H4); simpl;
    (split; [|lia]);
    try apply Z.ltb_lt in H5; try apply Z.ltb_ge in H5;
    try apply Z.ltb_lt in H6; try apply Z.ltb_ge in H6;
    (split; [try done; intros _|
             try done; intros (Hs & Hn & Hr); try lia; try done;
             exfalso;
             repeat (apply elem_of_cons in Hs as [Hs|Hs]; [done|]);
             by apply elem_of_nil in Hs]);
    (split; [|split; [done|lia]]); subst; by repeat constructor.
Qed.
